(** * TuyAPI device client ([index.js]): a shallow embedding

    The class [TuyaDevice] of [index.js] is embedded as a record of its
    instance fields and one state-passing function per method or event
    handler.  Promises are cells of an explicit store, so that "pending",
    "fulfilled" and "rejected" are observable in the model. *)

From Stdlib Require Import ZArith NArith String Ascii PrimFloat Bool Lia.
From Stdlib Require Import DecimalString.
From stdpp Require Import base option list sets.

Local Open Scope string_scope.
Local Open Scope list_scope.
Local Open Scope N_scope.

(** ** JavaScript values *)

(** Documents handled by the client: what [JSON.parse] yields in the parser,
    and [undefined] for an absent property or argument.  A payload that is
    not a structured document is raw text or a [Buffer] of bytes.  Numbers
    are IEEE doubles, as in the language. *)
#[warnings="-register-all"]
Inductive value : Type :=
| VUndefined
| VNull
| VBool (b : bool)
| VNum (n : float)
| VStr (s : string)
| VBuf (bytes : list Byte.byte)
| VObj (props : list (string * value)).

(** What a [throw] carries.  [JsError m] is [new Error(m)] and [JsTypeError m]
    is [new TypeError(m)]; the last two are the [TypeError]s the engine raises
    itself: calling something that is not a function, and reading a property
    of [undefined] or [null]. *)
Inductive exn : Type :=
| JsError (message : string)
| JsTypeError (message : string)
| NotAFunction
| CannotReadProperty (prop : string).

Definition is_TypeError (e : exn) : bool :=
  match e with
  | JsError _ => false
  | JsTypeError _ | NotAFunction | CannotReadProperty _ => true
  end.

(** [typeof v === 'string'] and [v.length]. *)
Definition is_string (v : value) : bool :=
  match v with VStr _ => true | _ => false end.

(** ToBoolean. *)
Definition truthy (v : value) : bool :=
  match v with
  | VUndefined | VNull => false
  | VBool b => b
  | VNum n => negb (PrimFloat.eqb n 0 || PrimFloat.is_nan n)
  | VStr s => negb (String.eqb s "")
  | VBuf _ | VObj _ => true
  end.

(** [a === b].  Two objects are strictly equal only when they are the same
    reference; every comparison the client makes puts a value stored earlier
    next to one freshly produced by [parse], so two objects never are. *)
Definition strict_eq (a b : value) : bool :=
  match a, b with
  | VUndefined, VUndefined => true
  | VNull, VNull => true
  | VBool x, VBool y => Bool.eqb x y
  | VNum x, VNum y => PrimFloat.eqb x y
  | VStr x, VStr y => String.eqb x y
  | _, _ => false
  end.

Fixpoint assoc (k : string) (props : list (string * value)) : option value :=
  match props with
  | [] => None
  | (k', v) :: rest => if String.eqb k k' then Some v else assoc k rest
  end.

(** [v[k]] for an own data property: [undefined] when the property is absent,
    a [TypeError] when [v] is [undefined] or [null]. *)
Definition get_prop (v : value) (k : string) : exn + value :=
  match v with
  | VUndefined | VNull => inl (CannotReadProperty k)
  | VObj props => inr (default VUndefined (assoc k props))
  | _ => inr VUndefined
  end.

(** ** Objects keyed by numbers, in own-property order

    [_resolvers] is a plain object whose property names are the decimal
    spellings of sequence numbers; a key is the number itself here.
    [Object.keys] lists array-index names (below [2^32 - 1]) in ascending
    order first, then the other names in insertion order; the list is kept in
    exactly that order. *)
Definition jsobj (A : Type) : Type := list (N * A).

Definition is_array_index (k : N) : bool := k <? 2 ^ 32 - 1.

Fixpoint obj_get {A} (o : jsobj A) (k : N) : option A :=
  match o with
  | [] => None
  | (k', a) :: rest => if k =? k' then Some a else obj_get rest k
  end.

Fixpoint obj_delete {A} (o : jsobj A) (k : N) : jsobj A :=
  match o with
  | [] => []
  | (k', a) :: rest =>
      if k =? k' then obj_delete rest k else (k', a) :: obj_delete rest k
  end.

Fixpoint obj_update {A} (o : jsobj A) (k : N) (a : A) : jsobj A :=
  match o with
  | [] => []
  | (k', a') :: rest =>
      if k =? k' then (k, a) :: rest else (k', a') :: obj_update rest k a
  end.

(** Position of a new own property. *)
Fixpoint obj_add {A} (o : jsobj A) (k : N) (a : A) : jsobj A :=
  match o with
  | [] => [(k, a)]
  | (k', a') :: rest =>
      if is_array_index k && (negb (is_array_index k') || (k <? k'))
      then (k, a) :: (k', a') :: rest
      else (k', a') :: obj_add rest k a
  end.

(** [o[k] = a]. *)
Definition obj_set {A} (o : jsobj A) (k : N) (a : A) : jsobj A :=
  match obj_get o k with
  | Some _ => obj_update o k a
  | None => obj_add o k a
  end.

(** [Object.keys(o)]. *)
Definition obj_keys {A} (o : jsobj A) : list N := map fst o.

(** ** Promises *)

Inductive settled : Type :=
| Pending
| Fulfilled (v : value)
| Rejected (e : exn).

(** A DPS index as callers give it: a number (an index, so a natural one) or
    its spelling. *)
Inductive dps_key : Type :=
| DpsNum (n : N)
| DpsStr (s : string).

(** ToBoolean of a DPS index: [0] and the empty string are falsy. *)
Definition dps_truthy (k : dps_key) : bool :=
  match k with
  | DpsNum n => negb (n =? 0)
  | DpsStr s => negb (String.eqb s "")
  end.

(** The property name a DPS index denotes ([o[k]], [k.toString()]). *)
Definition dps_name (k : dps_key) : string :=
  match k with
  | DpsNum n => NilEmpty.string_of_uint (N.to_uint n)
  | DpsStr s => s
  end.

(** [get(options)]: [schema] and [dps] are optional; [schema] is
    [VUndefined] and [dps] is [None] when left out. *)
Record get_options : Type := {
  schema : value;
  dps : option dps_key
}.

(** What is attached to a promise of the store.  [Attempt r]: the promise was
    made by one attempt of the retry operation whose promise is [r];
    [GetThen] and [SetThen]: the callback [get] or [set] passed to [.then] on
    the promise of [_send], with the promise of [get] or [set] it resolves. *)
Inductive reaction : Type :=
| NoReaction
| Attempt (r : nat)
| GetThen (options : get_options) (target : nat)
| SetThen (target : nat).

Record promise : Type := {
  pstate : settled;
  on_settled : reaction
}.

Definition is_pending (ps : list promise) (p : nat) : bool :=
  match ps !! p with
  | Some {| pstate := Pending |} => true
  | _ => false
  end.

Definition state_of (ps : list promise) (p : nat) : option settled :=
  pstate <$> ps !! p.

(** Settling is final: a promise that is no longer pending ignores it. *)
Definition settle (ps : list promise) (p : nat) (s : settled) : list promise :=
  match ps !! p with
  | Some {| pstate := Pending; on_settled := k |} =>
      <[p := {| pstate := s; on_settled := k |}]> ps
  | _ => ps
  end.

Definition attach (ps : list promise) (p : nat) (k : reaction) : list promise :=
  match ps !! p with
  | Some c => <[p := {| pstate := pstate c; on_settled := k |}]> ps
  | None => ps
  end.

(** The callback of [get] (lines 112-123): the value it resolves the promise
    of [get] with, or what it throws. *)
Definition get_callback (options : get_options) (data : value) : exn + value :=
  if strict_eq (schema options) (VBool true) then inr data
  else
    match dps options with
    | Some k =>
        if dps_truthy k then
          match get_prop data "dps" with
          | inl e => inl e
          | inr m => get_prop m (dps_name k)
          end
        else
          match get_prop data "dps" with
          | inl e => inl e
          | inr m => get_prop m "1"
          end
    | None =>
        match get_prop data "dps" with
        | inl e => inl e
        | inr m => get_prop m "1"
        end
    end.

(** Fulfilling the promise of [_send] runs the callback attached to it; a
    callback that throws leaves its target pending (the rejection goes to the
    promise [.then] returned, which nobody holds). *)
Definition fulfil_send (ps : list promise) (r : nat) (v : value) : list promise :=
  if is_pending ps r then
    let ps1 := settle ps r (Fulfilled v) in
    match on_settled <$> ps !! r with
    | Some (GetThen options g) =>
        match get_callback options v with
        | inr x => settle ps1 g (Fulfilled x)
        | inl _ => ps1
        end
    | Some (SetThen g) => settle ps1 g (Fulfilled v)
    | _ => ps1
    end
  else ps.

(** A resolver [data => resolve(data)] is the promise of the attempt that
    registered it; calling it fulfils that promise, and through it the
    promise of the retry operation. *)
Definition call_resolver (ps : list promise) (a : nat) (v : value) : list promise :=
  if is_pending ps a then
    let ps1 := settle ps a (Fulfilled v) in
    match on_settled <$> ps !! a with
    | Some (Attempt r) => fulfil_send ps1 r v
    | _ => ps1
    end
  else ps.

(** ** The device object *)

Definition buffer : Type := list Byte.byte.

(** Modelled from the spec: [lib/message-parser.js] and [lib/cipher.js] are
    not part of the sources at hand.  Section 2 of the specification makes
    the codec and the cipher objects configured by key and protocol version;
    constructing one stores the two and does not fail.  Their methods
    ([encode], [writeSequenceN], [parse]) are parameters of the development
    below. *)
Record MessageParser : Type := {
  parser_key : value;
  parser_version : value
}.

(** Modelled from the spec: the cipher object of [lib/cipher.js], keyed by
    the device secret and selected by protocol version (section 4.1). *)
Record Cipher : Type := {
  cipher_key : value;
  cipher_version : value
}.

(** [this.device]. *)
Record DeviceConfig : Type := {
  ip : value;
  port : value;
  id : value;
  gwID : value;
  key : value;
  productKey : value;
  version : value;
  parser : MessageParser;
  cipher : Cipher
}.

(** A decoded frame, as [parse] hands it to the client. *)
Record Packet : Type := {
  payload : value;
  commandByte : N;
  sequenceN : N
}.

(** An element of [foundDevices]: [{id, ip}]. *)
Record FoundDevice : Type := {
  found_id : value;
  found_ip : value
}.

(** [this.client], a [net.Socket]: the buffers handed to [write], oldest
    first. *)
Record Socket : Type := {
  written : list buffer
}.

(** Notifications sent with [this.emit]. *)
Inductive event : Type :=
| EvData (payload : value) (commandByte sequenceN : N)
| EvError (e : exn).

(** One call of [pRetry] (package p-retry): the function it retries closes
    over [buffer], which every attempt reassigns; [op_promise] is the promise
    [pRetry] returned; [op_errors] are the rejections of the attempts so far;
    [op_timer] says that the next attempt is scheduled. *)
Record RetryOp : Type := {
  op_buffer : buffer;
  op_promise : nat;
  op_errors : list exn;
  op_timer : bool
}.

Record TuyaDevice : Type := {
  device : DeviceConfig;
  foundDevices : list FoundDevice;
  _connected : bool;
  _responseTimeout : N;
  _connectTimeout : N;
  _pingPongPeriod : N;
  _currentSequenceN : N;
  _resolvers : jsobj nat;
  client : option Socket;
  (* the surroundings of the object *)
  emitted : list event;
  promises : list promise;
  retries : list RetryOp;
  (* [this.listenerCount('error') > 0]: the program has attached a listener
     for ['error'] with [on], which the class inherits from [EventEmitter] *)
  has_error_listener : bool
}.

Definition with_device (d : TuyaDevice) (c : DeviceConfig) : TuyaDevice :=
  {| device := c; foundDevices := foundDevices d; _connected := _connected d;
     _responseTimeout := _responseTimeout d; _connectTimeout := _connectTimeout d;
     _pingPongPeriod := _pingPongPeriod d;
     _currentSequenceN := _currentSequenceN d; _resolvers := _resolvers d;
     client := client d; emitted := emitted d; promises := promises d;
     retries := retries d; has_error_listener := has_error_listener d |}.

Definition with_foundDevices (d : TuyaDevice) (l : list FoundDevice) : TuyaDevice :=
  {| device := device d; foundDevices := l; _connected := _connected d;
     _responseTimeout := _responseTimeout d; _connectTimeout := _connectTimeout d;
     _pingPongPeriod := _pingPongPeriod d;
     _currentSequenceN := _currentSequenceN d; _resolvers := _resolvers d;
     client := client d; emitted := emitted d; promises := promises d;
     retries := retries d; has_error_listener := has_error_listener d |}.

Definition with_sequenceN (d : TuyaDevice) (n : N) : TuyaDevice :=
  {| device := device d; foundDevices := foundDevices d; _connected := _connected d;
     _responseTimeout := _responseTimeout d; _connectTimeout := _connectTimeout d;
     _pingPongPeriod := _pingPongPeriod d;
     _currentSequenceN := n; _resolvers := _resolvers d;
     client := client d; emitted := emitted d; promises := promises d;
     retries := retries d; has_error_listener := has_error_listener d |}.

Definition with_resolvers (d : TuyaDevice) (o : jsobj nat) : TuyaDevice :=
  {| device := device d; foundDevices := foundDevices d; _connected := _connected d;
     _responseTimeout := _responseTimeout d; _connectTimeout := _connectTimeout d;
     _pingPongPeriod := _pingPongPeriod d;
     _currentSequenceN := _currentSequenceN d; _resolvers := o;
     client := client d; emitted := emitted d; promises := promises d;
     retries := retries d; has_error_listener := has_error_listener d |}.

Definition with_client (d : TuyaDevice) (c : option Socket) : TuyaDevice :=
  {| device := device d; foundDevices := foundDevices d; _connected := _connected d;
     _responseTimeout := _responseTimeout d; _connectTimeout := _connectTimeout d;
     _pingPongPeriod := _pingPongPeriod d;
     _currentSequenceN := _currentSequenceN d; _resolvers := _resolvers d;
     client := c; emitted := emitted d; promises := promises d;
     retries := retries d; has_error_listener := has_error_listener d |}.

Definition with_emitted (d : TuyaDevice) (l : list event) : TuyaDevice :=
  {| device := device d; foundDevices := foundDevices d; _connected := _connected d;
     _responseTimeout := _responseTimeout d; _connectTimeout := _connectTimeout d;
     _pingPongPeriod := _pingPongPeriod d;
     _currentSequenceN := _currentSequenceN d; _resolvers := _resolvers d;
     client := client d; emitted := l; promises := promises d;
     retries := retries d; has_error_listener := has_error_listener d |}.

Definition with_promises (d : TuyaDevice) (ps : list promise) : TuyaDevice :=
  {| device := device d; foundDevices := foundDevices d; _connected := _connected d;
     _responseTimeout := _responseTimeout d; _connectTimeout := _connectTimeout d;
     _pingPongPeriod := _pingPongPeriod d;
     _currentSequenceN := _currentSequenceN d; _resolvers := _resolvers d;
     client := client d; emitted := emitted d; promises := ps;
     retries := retries d; has_error_listener := has_error_listener d |}.

Definition with_retries (d : TuyaDevice) (l : list RetryOp) : TuyaDevice :=
  {| device := device d; foundDevices := foundDevices d; _connected := _connected d;
     _responseTimeout := _responseTimeout d; _connectTimeout := _connectTimeout d;
     _pingPongPeriod := _pingPongPeriod d;
     _currentSequenceN := _currentSequenceN d; _resolvers := _resolvers d;
     client := client d; emitted := emitted d; promises := promises d;
     retries := l; has_error_listener := has_error_listener d |}.

(** [this.emit(...)]: the notification is appended to the log. *)
Definition emit (d : TuyaDevice) (e : event) : TuyaDevice :=
  with_emitted d (emitted d ++ [e]).

(** [this.on('error', listener)] and [this.removeAllListeners('error')],
    which the program may call at any time. *)
Definition with_error_listener (d : TuyaDevice) (b : bool) : TuyaDevice :=
  {| device := device d; foundDevices := foundDevices d; _connected := _connected d;
     _responseTimeout := _responseTimeout d; _connectTimeout := _connectTimeout d;
     _pingPongPeriod := _pingPongPeriod d;
     _currentSequenceN := _currentSequenceN d; _resolvers := _resolvers d;
     client := client d; emitted := emitted d; promises := promises d;
     retries := retries d; has_error_listener := b |}.

(** [this.emit('error', e)] (package events): an ['error'] notification
    that no listener is attached for is not delivered; [emit] throws the
    error instead.  Every [exn] stands for an [Error] object, which is
    thrown as it is. *)
Definition emit_error (d : TuyaDevice) (e : exn) : option exn * TuyaDevice :=
  if has_error_listener d then (None, emit d (EvError e)) else (Some e, d).

(** [new Promise(...)]: a fresh pending cell, named by its index. *)
Definition new_promise (d : TuyaDevice) (k : reaction) : nat * TuyaDevice :=
  (length (promises d),
   with_promises d (promises d ++ [{| pstate := Pending; on_settled := k |}])).

(** [checkIfValidString] (line 461): a string is held as its UTF-8 bytes, and
    its length is above 0 exactly when it has a byte. *)
Definition checkIfValidString (input : value) : bool :=
  match input with
  | VStr s => (0 <? String.length s)%nat
  | _ => false
  end.

(** [isConnected] (line 450). *)
Definition isConnected (d : TuyaDevice) : bool := _connected d.

(** *** The constructor (lines 34-71) *)

(** The argument of the constructor; a property left out is [VUndefined]. *)
Record Options : Type := {
  o_ip : value;
  o_port : value;
  o_id : value;
  o_gwID : value;
  o_key : value;
  o_productKey : value;
  o_version : value
}.

(** A default in a destructuring pattern applies when the property is
    [undefined], and only then. *)
Definition or_default (v dflt : value) : value :=
  match v with
  | VUndefined => dflt
  | _ => v
  end.

(** A string is held as its UTF-8 bytes, as the literals of this file are
    (a lone surrogate as the three bytes of its number).  [.length] counts
    UTF-16 code units: one for a character of one, two or three bytes, which
    starts with a byte below 128 or from 192 to 239, two for a character of
    four bytes, which starts with a byte from 240 on and is a surrogate pair
    in UTF-16, and none for the bytes from 128 to 191 that continue a
    character. *)
Definition utf16_units (c : ascii) : nat :=
  let n := N_of_ascii c in
  if n <? 128 then 1%nat
  else if n <? 192 then 0%nat
  else if n <? 240 then 1%nat
  else 2%nat.

Fixpoint js_length (s : string) : nat :=
  match s with
  | EmptyString => 0%nat
  | String c rest => (utf16_units c + js_length rest)%nat
  end.

(** [key.length !== 16] for a key that passed [checkIfValidString]. *)
Definition key_length_is_16 (k : value) : bool :=
  match k with
  | VStr s => (js_length s =? 16)%nat
  | _ => false
  end.

(** The defaults [port = 6668] and [version = 3.1] of line 34; [3.1] is the
    double nearest to it. *)
Definition default_port : value := VNum 6668.

#[warnings="-inexact-float"] Definition default_version : value := VNum 3.1.

Definition constructor (o : Options) : exn + TuyaDevice :=
  let ip := o_ip o in
  let port := or_default (o_port o) default_port in
  let id := o_id o in
  let gwID := or_default (o_gwID o) id in
  let key := o_key o in
  let productKey := o_productKey o in
  let version := or_default (o_version o) default_version in
  if negb (checkIfValidString id || checkIfValidString ip) then
    inl (JsTypeError "ID and IP are missing from device.")
  else if negb (checkIfValidString key) || negb (key_length_is_16 key) then
    inl (JsTypeError "Key is missing or incorrect.")
  else
    inr {| device := {| ip := ip; port := port; id := id; gwID := gwID;
                        key := key; productKey := productKey;
                        version := version;
                        parser := {| parser_key := key; parser_version := version |};
                        cipher := {| cipher_key := key; cipher_version := version |} |};
           foundDevices := [];
           _connected := false;
           _responseTimeout := 5;
           _connectTimeout := 5;
           _pingPongPeriod := 10;
           _currentSequenceN := 0;
           _resolvers := [];
           client := None;
           emitted := [];
           promises := [];
           retries := [];
           has_error_listener := false |}.

(** ** Requests, responses and the heartbeat *)

(** The argument of [parser.encode]. *)
Record EncodeArgs : Type := {
  enc_data : value;
  enc_encrypted : value;
  enc_commandByte : N
}.

(** [++n] on a double holding a natural number: exact below [2^53], where
    the next integer is no longer representable and the sum rounds back. *)
Definition incr (n : N) : N := if n <? 2 ^ 53 then n + 1 else n.

(** [set(options)]; a property left out is [None]. *)
Record set_options : Type := {
  multiple : option value;
  data : option value;
  set_dps : option dps_key;
  set_set : option value
}.

(** [Object.entries(options).length === 0]. *)
Definition no_entries (o : set_options) : bool :=
  match multiple o, data o, set_dps o, set_set o with
  | None, None, None, None => true
  | _, _, _, _ => false
  end.

(** What the client calls and [index.js] does not define: the methods of the
    codec object of [lib/message-parser.js], and [operation.mainError()] of
    package retry, the error [pRetry] rejects with once the attempts are
    used up. *)
Class Libraries : Type := {
  encode : EncodeArgs -> buffer;
  writeSequenceN : buffer -> N -> exn + buffer;
  parse : buffer -> exn + list Packet;
  mainError : list exn -> exn
}.

Section Client.

Context {lib : Libraries}.

(** [{retries: 5}]: after a rejected attempt [pRetry] schedules another one
    as long as fewer than five have been scheduled. *)
Definition retry_budget : nat := 5.

(** An attempt rejected with [e] (line 235).  [pRetry] does not retry after
    a [TypeError], which it hands on at once; after any other error it
    either schedules the next attempt or, the budget used up, rejects its
    own promise. *)
Definition attempt_rejected (i a : nat) (op : RetryOp) (e : exn)
    (d : TuyaDevice) : TuyaDevice :=
  let errors := op_errors op ++ [e] in
  let d1 := with_promises d (settle (promises d) a (Rejected e)) in
  if is_TypeError e then
    with_retries
      (with_promises d1 (settle (promises d1) (op_promise op) (Rejected e)))
      (<[i := {| op_buffer := op_buffer op; op_promise := op_promise op;
                 op_errors := op_errors op; op_timer := false |}]> (retries d1))
  else if (length (op_errors op) <? retry_budget)%nat then
    with_retries d1
      (<[i := {| op_buffer := op_buffer op; op_promise := op_promise op;
                 op_errors := errors; op_timer := true |}]> (retries d1))
  else
    with_retries
      (with_promises d1
         (settle (promises d1) (op_promise op) (Rejected (mainError errors))))
      (<[i := {| op_buffer := op_buffer op; op_promise := op_promise op;
                 op_errors := errors; op_timer := false |}]> (retries d1)).

(** One attempt (lines 226-237) of retry operation [i]. *)
Definition attempt (i : nat) (d : TuyaDevice) : TuyaDevice :=
  match retries d !! i with
  | None => d
  | Some op =>
      let (a, d1) := new_promise d (Attempt (op_promise op)) in
      let n := incr (_currentSequenceN d1) in
      let d2 := with_sequenceN d1 n in
      match writeSequenceN (op_buffer op) n with
      | inl e => attempt_rejected i a op e d2
      | inr b =>
          let op' := {| op_buffer := b; op_promise := op_promise op;
                        op_errors := op_errors op; op_timer := false |} in
          let d3 := with_retries d2 (<[i := op']> (retries d2)) in
          match client d3 with
          | None => attempt_rejected i a op' (CannotReadProperty "write") d3
          | Some sock =>
              let d4 := with_client d3 (Some {| written := written sock ++ [b] |}) in
              with_resolvers d4 (obj_set (_resolvers d4) n a)
          end
      end
  end.

(** [_send] (lines 218-239): throws when not connected, else starts a retry
    operation and returns its promise.  [pRetry] runs the first attempt
    before anything else of the program gets to run; it is run here. *)
Definition _send (buf : buffer) (d : TuyaDevice) : (exn + nat) * TuyaDevice :=
  if negb (isConnected d) then
    (inl (JsError "No connection has been made to the device."), d)
  else
    let (r, d1) := new_promise d NoReaction in
    let i := length (retries d1) in
    let d2 := with_retries d1
                (retries d1 ++ [{| op_buffer := buf; op_promise := r;
                                   op_errors := []; op_timer := false |}]) in
    (inr r, attempt i d2).

(** The timer [pRetry] set for operation [i] fires: the next attempt runs. *)
Definition retry_timer (i : nat) (d : TuyaDevice) : TuyaDevice :=
  match retries d !! i with
  | Some op =>
      if op_timer op then
        attempt i
          (with_retries d
             (<[i := {| op_buffer := op_buffer op; op_promise := op_promise op;
                        op_errors := op_errors op; op_timer := false |}]> (retries d)))
      else d
  | None => d
  end.

(** [_sendPing] (lines 245-256).  The promise of this [async] function is
    dropped by its only caller, the heartbeat timer: a throw of [_send] ends
    there, and nothing runs after the [await]. *)
Definition _sendPing (d : TuyaDevice) : TuyaDevice :=
  let buf := encode {| enc_data := VBuf []; enc_encrypted := VUndefined;
                       enc_commandByte := 9 |} in
  snd (_send buf d).

(** [get] (lines 93-128): returns its promise. *)
Definition get (options : get_options) (d : TuyaDevice) : nat * TuyaDevice :=
  let pl := VObj [("gwId", gwID (device d)); ("devId", id (device d))] in
  let buf := encode {| enc_data := pl; enc_encrypted := VUndefined;
                       enc_commandByte := 10 |} in
  let (g, d1) := new_promise d NoReaction in
  match _send buf d1 with
  | (inl e, d2) => (g, with_promises d2 (settle (promises d2) g (Rejected e)))
  | (inr r, d2) => (g, with_promises d2 (attach (promises d2) r (GetThen options g)))
  end.

(** [set] (lines 154-208); [now] is [parseInt(new Date() / 1000, 10)].
    [None] for [options] is a call without argument. *)
Definition set (options : option set_options) (now : value) (d : TuyaDevice)
    : (exn + nat) * TuyaDevice :=
  match options with
  | None => (inl (JsTypeError "No arguments were passed."), d)
  | Some o =>
      if no_entries o then (inl (JsTypeError "No arguments were passed."), d)
      else
        let dpsv :=
          if strict_eq (default VUndefined (multiple o)) (VBool true)
          then default VUndefined (data o)
          else
            match set_dps o with
            | None => VObj [("1", default VUndefined (set_set o))]
            | Some k => VObj [(dps_name k, default VUndefined (set_set o))]
            end in
        let pl := VObj [("devId", id (device d)); ("gwId", gwID (device d));
                        ("uid", VStr ""); ("t", now); ("dps", dpsv)] in
        let buf := encode {| enc_data := pl; enc_encrypted := VBool true;
                             enc_commandByte := 7 |} in
        let (g, d1) := new_promise d NoReaction in
        match _send buf d1 with
        | (inl e, d2) =>
            (inr g, with_promises d2 (settle (promises d2) g (Rejected e)))
        | (inr r, d2) =>
            (inr g, with_promises d2 (attach (promises d2) r (SetThen g)))
        end
  end.

(** [_packetHandler] (lines 385-421).  The result says whether the handler
    returned ([None]) or threw; the state is the one it left behind. *)
Definition _packetHandler (packet : Packet) (d : TuyaDevice)
    : option exn * TuyaDevice :=
  if commandByte packet =? 9 then (None, d)
  else if commandByte packet =? 7 then (None, d)
  else
    let d1 := emit d (EvData (payload packet) (commandByte packet) (sequenceN packet)) in
    match obj_get (_resolvers d1) (sequenceN packet) with
    | Some resolver =>
        let d2 := with_promises d1 (call_resolver (promises d1) resolver (payload packet)) in
        (None, with_resolvers d2 (obj_delete (_resolvers d2) (sequenceN packet)))
    | None =>
        if sequenceN packet =? 0 then
          match obj_keys (_resolvers d1) with
          | k :: _ =>
              match obj_get (_resolvers d1) k with
              | Some resolver =>
                  let d2 := with_promises d1
                              (call_resolver (promises d1) resolver (payload packet)) in
                  (None, with_resolvers d2 (obj_delete (_resolvers d2) (sequenceN packet)))
              | None => (Some NotAFunction, d1)
              end
          | [] => (Some NotAFunction, d1)
          end
        else (None, d1)
    end.

(** [packets.forEach(...)] (line 308): a throw of the handler ends the loop. *)
Fixpoint handle_packets (packets : list Packet) (d : TuyaDevice)
    : option exn * TuyaDevice :=
  match packets with
  | [] => (None, d)
  | p :: rest =>
      match _packetHandler p d with
      | (None, d') => handle_packets rest d'
      | thrown => thrown
      end
  end.

(** The ['data'] handler of the socket (lines 295-314). *)
Definition on_data (bytes : buffer) (d : TuyaDevice) : option exn * TuyaDevice :=
  match parse bytes with
  | inl e => emit_error d e
  | inr packets => handle_packets packets d
  end.

(** What can happen to a connected client between two calls of its user: a
    timer of [pRetry] fires, the heartbeat timer ticks (line 367), or a
    packet arrives. *)
Inductive client_event : Type :=
| RetryTimer (i : nat)
| HeartbeatTick
| Inbound (packet : Packet).

Definition client_step (ev : client_event) (d : TuyaDevice) : TuyaDevice :=
  match ev with
  | RetryTimer i => retry_timer i d
  | HeartbeatTick => _sendPing d
  | Inbound packet => snd (_packetHandler packet d)
  end.

Definition client_run (evs : list client_event) (d : TuyaDevice) : TuyaDevice :=
  fold_left (fun d ev => client_step ev d) evs d.

(** ** Discovery *)

(** The UDP socket of [find] (package dgram). *)
Record Listener : Type := {
  bound_port : N;
  reuseAddr : bool;
  closed : bool;
  has_listeners : bool
}.

(** What the promise of [find] is fulfilled with: [true], or the array
    [this.foundDevices] (the array itself, not a copy). *)
Inductive find_value : Type :=
| FoundTrue
| FoundAll (devices : list FoundDevice).

Inductive find_settled : Type :=
| FindPending
| FindFulfilled (v : find_value)
| FindRejected (e : exn).

(** One call of [find] that went on to listen.  [result] is the promise
    [pTimeout] returned (package p-timeout): it follows the promise
    wrapped, whose settling clears the timer, and is settled by the
    fallback when the timer fires first.  [timer] says that the timer is
    pending. *)
Record FindCall : Type := {
  all : bool;
  timeout_ms : N;
  listener : Listener;
  result : find_settled;
  timer : bool
}.

Definition with_listener (f : FindCall) (l : Listener) : FindCall :=
  {| all := all f; timeout_ms := timeout_ms f; listener := l;
     result := result f; timer := timer f |}.

(** [resolve] and [reject] of the wrapped promise: the first one wins, and
    clears the timer. *)
Definition find_settle (f : FindCall) (s : find_settled) : FindCall :=
  match result f with
  | FindPending =>
      {| all := all f; timeout_ms := timeout_ms f; listener := listener f;
         result := s; timer := false |}
  | _ => f
  end.

(** [listener.close(); listener.removeAllListeners()]. *)
Definition release (f : FindCall) : FindCall :=
  with_listener f
    {| bound_port := bound_port (listener f); reuseAddr := reuseAddr (listener f);
       closed := true; has_listeners := false |}.

Definition released (f : FindCall) : bool :=
  closed (listener f) && negb (has_listeners (listener f)).

Inductive find_start : Type :=
| Immediately
| Listening (f : FindCall).

(** [find] up to the point where it returns its promise (lines 507-522 and
    573): [Immediately] is [Promise.resolve(true)]. *)
Definition find (timeout : N) (all : bool) (d : TuyaDevice) : find_start :=
  if checkIfValidString (id (device d)) && checkIfValidString (ip (device d))
  then Immediately
  else
    Listening {| all := all; timeout_ms := timeout * 1000;
                 listener := {| bound_port := 6666; reuseAddr := true;
                                closed := false; has_listeners := true |};
                 result := FindPending; timer := true |}.

(** [foundDevices.some(e => e.id === thisID && e.ip === thisIP)]. *)
Definition already_found (l : list FoundDevice) (thisID thisIP : value) : bool :=
  existsb (fun e => strict_eq (found_id e) thisID && strict_eq (found_ip e) thisIP) l.

(** The condition of line 547-549. *)
Definition matches (f : FindCall) (d : TuyaDevice) (thisID thisIP pl : value) : bool :=
  negb (all f)
  && (strict_eq (id (device d)) thisID || strict_eq (ip (device d)) thisIP)
  && truthy pl.

(** Lines 551-561; the properties are read from a payload that is truthy. *)
Definition adopt (d : TuyaDevice) (pl : value) : TuyaDevice :=
  let rd k := match get_prop pl k with inr v => v | inl _ => VUndefined end in
  with_device d
    {| ip := rd "ip"; port := port (device d); id := rd "gwId";
       gwID := rd "gwId"; key := key (device d);
       productKey := rd "productKey"; version := rd "version";
       parser := parser (device d); cipher := cipher (device d) |}.

(** Lines 537-567, with [dataRes] a packet. *)
Definition on_found (dataRes : Packet) (d : TuyaDevice) (f : FindCall)
    : option exn * (TuyaDevice * FindCall) :=
  match get_prop (payload dataRes) "gwId" with
  | inl e => (Some e, (d, f))
  | inr thisID =>
      match get_prop (payload dataRes) "ip" with
      | inl e => (Some e, (d, f))
      | inr thisIP =>
          let d1 :=
            if negb (already_found (foundDevices d) thisID thisIP)
            then with_foundDevices d
                   (foundDevices d ++ [{| found_id := thisID; found_ip := thisIP |}])
            else d in
          if matches f d1 thisID thisIP (payload dataRes)
          then (None, (adopt d1 (payload dataRes),
                       find_settle (release f) (FindFulfilled FoundTrue)))
          else (None, (d1, f))
      end
  end.

(** The ['message'] handler (lines 523-568).  A socket that is closed or has
    no listeners delivers nothing. *)
Definition on_message (message : buffer) (d : TuyaDevice) (f : FindCall)
    : option exn * (TuyaDevice * FindCall) :=
  if negb (has_listeners (listener f)) then (None, (d, f))
  else
    match parse message with
    | inl error =>
        (* [reject(error)], then [dataRes.payload] with [dataRes] undefined *)
        (Some (CannotReadProperty "payload"), (d, find_settle f (FindRejected error)))
    | inr [] => (Some (CannotReadProperty "payload"), (d, f))
    | inr (dataRes :: _) => on_found dataRes d f
    end.

(** The ['error'] handler (lines 570-572). *)
Definition on_error (err : exn) (d : TuyaDevice) (f : FindCall)
    : TuyaDevice * FindCall :=
  if negb (has_listeners (listener f)) then (d, f)
  else (d, find_settle f (FindRejected err)).

(** The fallback of [pTimeout] (lines 573-586), run when the timer fires. *)
Definition on_timeout (d : TuyaDevice) (f : FindCall) : TuyaDevice * FindCall :=
  if timer f then
    let f1 := release f in
    if all f
    then (d, find_settle f1 (FindFulfilled (FoundAll (foundDevices d))))
    else (d, find_settle f1
               (FindRejected
                  (JsError "find() timed out. Is the device powered on and the ID or IP correct?")))
  else (d, f).

(** What can happen to a call of [find] that listens. *)
Inductive find_event : Type :=
| Message (message : buffer)
| SocketError (err : exn)
| TimerFires.

Definition find_step (ev : find_event) (s : TuyaDevice * FindCall)
    : TuyaDevice * FindCall :=
  match ev with
  | Message m => snd (on_message m (fst s) (snd s))
  | SocketError e => on_error e (fst s) (snd s)
  | TimerFires => on_timeout (fst s) (snd s)
  end.

Definition find_run (evs : list find_event) (s : TuyaDevice * FindCall)
    : TuyaDevice * FindCall :=
  fold_left (fun s ev => find_step ev s) evs s.

End Client.

Arguments attempt_rejected {_} i a op e d : simpl never.

(** ** Connecting and disconnecting *)

Definition with_connected (d : TuyaDevice) (c : bool) : TuyaDevice :=
  {| device := device d; foundDevices := foundDevices d; _connected := c;
     _responseTimeout := _responseTimeout d; _connectTimeout := _connectTimeout d;
     _pingPongPeriod := _pingPongPeriod d;
     _currentSequenceN := _currentSequenceN d; _resolvers := _resolvers d;
     client := client d; emitted := emitted d; promises := promises d;
     retries := retries d; has_error_listener := has_error_listener d |}.

(** The notifications ['connected'] and ['disconnected']. *)
Inductive lifecycle : Type :=
| EvConnected
| EvDisconnected.

(** The object together with what [connect] and [disconnect] touch besides
    the fields above: of the socket in [this.client], where it was told to
    connect to, whether it is destroyed and its idle time-out in
    milliseconds (0 for none); the handle in [this.pingpongTimeout]; the
    timers made by [setInterval], each running or cleared; and the log of
    lifecycle notifications. *)
Record Connection : Type := {
  tuya : TuyaDevice;
  client_target : option (value * value);
  client_destroyed : bool;
  client_timeout : N;
  pingpongTimeout : option nat;
  intervals : list bool;
  lifecycle_log : list lifecycle
}.

Definition with_tuya (s : Connection) (d : TuyaDevice) : Connection :=
  {| tuya := d; client_target := client_target s;
     client_destroyed := client_destroyed s; client_timeout := client_timeout s;
     pingpongTimeout := pingpongTimeout s; intervals := intervals s;
     lifecycle_log := lifecycle_log s |}.

(** [this.client.destroy()]. *)
Definition destroy_client (s : Connection) : Connection :=
  {| tuya := tuya s; client_target := client_target s;
     client_destroyed := true; client_timeout := client_timeout s;
     pingpongTimeout := pingpongTimeout s; intervals := intervals s;
     lifecycle_log := lifecycle_log s |}.

(** [clearTimeout(this.pingpongTimeout)]: the timer behind the handle, if
    there is one, stops; the handle itself is not touched. *)
Definition clear_pingpong (s : Connection) : Connection :=
  match pingpongTimeout s with
  | Some i =>
      {| tuya := tuya s; client_target := client_target s;
         client_destroyed := client_destroyed s; client_timeout := client_timeout s;
         pingpongTimeout := pingpongTimeout s;
         intervals := <[i := false]> (intervals s);
         lifecycle_log := lifecycle_log s |}
  | None => s
  end.

(** A device that was just constructed, with no socket yet. *)
Definition new_connection (d : TuyaDevice) : Connection :=
  {| tuya := d; client_target := None; client_destroyed := false;
     client_timeout := 0; pingpongTimeout := None; intervals := [];
     lifecycle_log := [] |}.

(** [disconnect] (lines 427-443).  [_sendTimeout] is never set, and
    [_connectTimeout] and [_responseTimeout] hold numbers of seconds, not
    timers: clearing them does nothing. *)
Definition disconnect (s : Connection) : Connection :=
  let s1 := clear_pingpong (with_tuya s (with_connected (tuya s) false)) in
  match client (tuya s1) with
  | None => s1
  | Some _ => destroy_client s1
  end.

Section Connect.

Context {lib : Libraries}.

(** [connect] (lines 267-383) up to the point where it returns its promise:
    a new socket takes the place of [this.client], is told to connect and
    gets the connect time-out; the four listeners are the functions below.
    When already connected, the promise is [Promise.resolve(true)]. *)
Definition connect (s : Connection) : nat * Connection :=
  let (c, d1) := new_promise (tuya s) NoReaction in
  if negb (isConnected (tuya s)) then
    (c, {| tuya := with_client d1 (Some {| written := [] |});
           client_target := Some (port (device d1), ip (device d1));
           client_destroyed := false;
           client_timeout := _connectTimeout d1 * 1000;
           pingpongTimeout := pingpongTimeout s; intervals := intervals s;
           lifecycle_log := lifecycle_log s |})
  else
    (c, with_tuya s (with_promises d1 (settle (promises d1) c (Fulfilled (VBool true))))).

(** The callback of [setTimeout] on the socket (lines 279-290), for the call
    of [connect] whose promise is [c]. *)
Definition socket_timeout (c : nat) (s : Connection) : Connection :=
  let s1 := destroy_client s in
  with_tuya s1
    (with_promises (tuya s1)
       (settle (promises (tuya s1)) c (Rejected (JsError "connection timed out")))).

(** The ['data'] listener (lines 295-314). *)
Definition socket_data (bytes : buffer) (s : Connection) : option exn * Connection :=
  let (thrown, d1) := on_data bytes (tuya s) in (thrown, with_tuya s d1).

(** The ['error'] listener (lines 317-323): when [emit] throws, the
    listener ends there and [this.client.destroy()] is not reached. *)
Definition socket_error (s : Connection) : option exn * Connection :=
  match emit_error (tuya s) (JsError "Error from socket") with
  | (None, d1) => (None, destroy_client (with_tuya s d1))
  | (Some e, d1) => (Some e, with_tuya s d1)
  end.

(** The ['close'] listener (lines 326-346). *)
Definition socket_close (s : Connection) : Connection :=
  let s1 := with_tuya s (with_connected (tuya s) false) in
  let s2 := {| tuya := tuya s1; client_target := client_target s1;
               client_destroyed := true; client_timeout := client_timeout s1;
               pingpongTimeout := pingpongTimeout s1; intervals := intervals s1;
               lifecycle_log := lifecycle_log s1 ++ [EvDisconnected] |} in
  match pingpongTimeout s2 with
  | Some _ =>
      let s3 := clear_pingpong s2 in
      {| tuya := tuya s3; client_target := client_target s3;
         client_destroyed := client_destroyed s3; client_timeout := client_timeout s3;
         pingpongTimeout := None; intervals := intervals s3;
         lifecycle_log := lifecycle_log s3 |}
  | None => s2
  end.

(** The ['connect'] listener (lines 348-377) up to its [await]: the result
    names the promise of [get] it waits for. *)
Definition socket_connect (s : Connection) : nat * Connection :=
  let d1 := with_connected (tuya s) true in
  let (g, d2) := get {| schema := VUndefined; dps := None |} d1 in
  (g, {| tuya := d2; client_target := client_target s;
         client_destroyed := client_destroyed s; client_timeout := 0;
         pingpongTimeout := Some (length (intervals s));
         intervals := intervals s ++ [true];
         lifecycle_log := lifecycle_log s ++ [EvConnected] |}).

(** The rest of the ['connect'] listener: once the promise [g] it waits for
    is fulfilled, it resolves the promise [c] of [connect] with [true]; a
    rejection of [g] ends the listener without settling [c]. *)
Definition connect_resume (g c : nat) (s : Connection) : Connection :=
  match state_of (promises (tuya s)) g with
  | Some (Fulfilled _) =>
      with_tuya s
        (with_promises (tuya s)
           (settle (promises (tuya s)) c (Fulfilled (VBool true))))
  | _ => s
  end.

(** A tick of the timer [i] made by [setInterval] (lines 367-369). *)
Definition heartbeat_interval (i : nat) (s : Connection) : Connection :=
  match intervals s !! i with
  | Some true => with_tuya s (_sendPing (tuya s))
  | _ => s
  end.

(** *** [toggle] (lines 594-609) *)

(** Where a call of [toggle] stands: waiting for the first [get], for the
    [set], for the second [get], or finished with what its promise is
    settled with.  [property] is the name after [property.toString()]. *)
Inductive toggle_stage : Type :=
| ToggleStatus (property : string) (g : nat)
| ToggleSet (property : string) (s : nat)
| ToggleResult (g : nat)
| ToggleDone (outcome : settled).

Definition toggle (property : dps_key) (d : TuyaDevice) : toggle_stage * TuyaDevice :=
  let property := dps_name property in
  let (g, d1) := get {| schema := VUndefined; dps := Some (DpsStr property) |} d in
  (ToggleStatus property g, d1).

(** The function goes on when the promise it waits for is settled; [now] is
    the clock [set] reads. *)
Definition toggle_resume (st : toggle_stage) (now : value) (d : TuyaDevice)
    : toggle_stage * TuyaDevice :=
  match st with
  | ToggleStatus property g =>
      match state_of (promises d) g with
      | Some (Fulfilled status) =>
          match set (Some {| multiple := None; data := None;
                             set_dps := Some (DpsStr property);
                             set_set := Some (VBool (negb (truthy status))) |})
                  now d with
          | (inr s, d1) => (ToggleSet property s, d1)
          | (inl e, d1) => (ToggleDone (Rejected e), d1)
          end
      | Some (Rejected e) => (ToggleDone (Rejected e), d)
      | _ => (st, d)
      end
  | ToggleSet property s =>
      match state_of (promises d) s with
      | Some (Fulfilled _) =>
          let (g, d1) := get {| schema := VUndefined; dps := Some (DpsStr property) |} d in
          (ToggleResult g, d1)
      | Some (Rejected e) => (ToggleDone (Rejected e), d)
      | _ => (st, d)
      end
  | ToggleResult g =>
      match state_of (promises d) g with
      | Some (Fulfilled v) => (ToggleDone (Fulfilled v), d)
      | Some (Rejected e) => (ToggleDone (Rejected e), d)
      | _ => (st, d)
      end
  | ToggleDone _ => (st, d)
  end.

End Connect.

(** ** Helpers of the class *)

(** [arrayDeepInclude] (lines 465-475); [stringify] is [JSON.stringify],
    which yields [undefined] ([None]) for some values. *)
Definition arrayDeepInclude (stringify : value -> option string)
    (arr : list value) (obj : value) : bool :=
  let result :=
    forallb (fun item =>
               match stringify item, stringify obj with
               | Some x, Some y => if String.eqb x y then false else true
               | None, None => false
               | _, _ => true
               end) arr in
  negb result.

(** ** Predicates of the statements *)

(** [v] is a string that is not empty. *)
Definition nonempty_string (v : value) : Prop :=
  exists s, v = VStr s /\ s <> "".

(** [v] is a string of length sixteen, in UTF-16 code units. *)
Definition key16 (v : value) : Prop :=
  exists s, v = VStr s /\ js_length s = 16%nat.

Definition config_valid (o : Options) : Prop :=
  (nonempty_string (o_id o) \/ nonempty_string (o_ip o)) /\ key16 (o_key o).


(** Events that come before the timer of [find] fires. *)
Definition before_timeout (evs : list find_event) : Prop :=
  Forall (fun ev => ev <> TimerFires) evs.

(** A datagram the parser decodes: neither a parse failure nor a socket
    error. *)
Definition well_received {lib : Libraries} (ev : find_event) : Prop :=
  exists m, ev = Message m /\ forall e, parse m <> inl e.


(** The datagram is one that the condition of lines 548-549 accepts for the
    identifier and the address configured in [d]. *)
Definition datagram_matches {lib : Libraries} (d : TuyaDevice) (ev : find_event)
    : bool :=
  match ev with
  | Message m =>
      match parse m with
      | inr (dataRes :: _) =>
          match get_prop (payload dataRes) "gwId", get_prop (payload dataRes) "ip" with
          | inr thisID, inr thisIP =>
              (strict_eq (id (device d)) thisID || strict_eq (ip (device d)) thisIP)
              && truthy (payload dataRes)
          | _, _ => false
          end
      | _ => false
      end
  | _ => false
  end.

(** The device sends nothing but heartbeat replies and
    set-acknowledgements. *)
Definition silent (ev : client_event) : Prop :=
  match ev with
  | Inbound packet => commandByte packet = 9 \/ commandByte packet = 7
  | _ => True
  end.

(** Every retry operation holds a promise of the store. *)
Definition store_wf (d : TuyaDevice) : Prop :=
  forall (j : nat) (op : RetryOp),
    retries d !! j = Some op -> (op_promise op < length (promises d))%nat.

(** The counter is ahead of every key of the table and can still count. *)
Definition sequence_fresh (d : TuyaDevice) : Prop :=
  _currentSequenceN d < 2 ^ 53
  /\ forall (k : N) (a : nat),
       obj_get (_resolvers d) k = Some a -> k <= _currentSequenceN d.

(** The state of a request [r] that waits for its answer: its promise is
    pending, its retry operation [i] is [op0], and no other operation holds
    its promise. *)
Definition waiting (r i : nat) (op0 : RetryOp) (d : TuyaDevice) : Prop :=
  (exists k, promises d !! r = Some {| pstate := Pending; on_settled := k |})
  /\ retries d !! i = Some op0
  /\ (forall j op, j <> i -> retries d !! j = Some op -> op_promise op <> r).

(** A packet the handler does not swallow. *)
Definition dispatched (packet : Packet) : Prop :=
  commandByte packet <> 9 /\ commandByte packet <> 7.

(** *** Requests in flight *)

(** The promise a callback of [get] or [set] resolves. *)
Definition reaction_target (k : reaction) : option nat :=
  match k with
  | GetThen _ g | SetThen g => Some g
  | _ => None
  end.

(** What that promise becomes when the promise of [_send] is fulfilled with
    [v]: a callback of [get] that throws leaves it pending. *)
Definition reaction_result (k : reaction) (v : value) : settled :=
  match k with
  | GetThen options _ =>
      match get_callback options v with
      | inr x => Fulfilled x
      | inl _ => Pending
      end
  | SetThen _ => Fulfilled v
  | _ => Pending
  end.

(** A request of [get] or [set] that waits for its response: the sequence
    number it was sent under, the promise of its attempt (which is its
    resolver), the promise of [_send], and the callback attached to it. *)
Record Flight : Type := {
  fl_seq : N;
  fl_attempt : nat;
  fl_send : nat;
  fl_callback : reaction
}.

(** The promises of a flight. *)
Definition fl_cells (fl : Flight) : list nat :=
  match reaction_target (fl_callback fl) with
  | Some g => [fl_attempt fl; fl_send fl; g]
  | None => [fl_attempt fl; fl_send fl]
  end.

Definition in_flight (d : TuyaDevice) (fl : Flight) : Prop :=
  obj_get (_resolvers d) (fl_seq fl) = Some (fl_attempt fl)
  /\ promises d !! fl_attempt fl
     = Some {| pstate := Pending; on_settled := Attempt (fl_send fl) |}
  /\ promises d !! fl_send fl
     = Some {| pstate := Pending; on_settled := fl_callback fl |}
  /\ fl_attempt fl <> fl_send fl
  /\ exists g, reaction_target (fl_callback fl) = Some g
               /\ promises d !! g = Some {| pstate := Pending; on_settled := NoReaction |}
               /\ g <> fl_attempt fl /\ g <> fl_send fl.

(** Two flights share neither sequence number nor promise. *)
Definition apart (fl1 fl2 : Flight) : Prop :=
  fl_seq fl1 <> fl_seq fl2
  /\ forall q, q ∈ fl_cells fl1 -> q ∈ fl_cells fl2 -> False.

(** The state of the promise the caller of the flight holds. *)
Definition caller_state (d : TuyaDevice) (fl : Flight) : option settled :=
  match reaction_target (fl_callback fl) with
  | Some g => state_of (promises d) g
  | None => None
  end.

(** The response to a flight: a packet under its sequence number. *)
Definition response (commandByte : N) (pay : Flight -> value) (fl : Flight) : Packet :=
  {| payload := pay fl; commandByte := commandByte; sequenceN := fl_seq fl |}.

(** *** Notifications and the order of keys *)

(** The test that lets a packet past lines 389-397. *)
Definition dispatchedb (packet : Packet) : bool :=
  negb (commandByte packet =? 9) && negb (commandByte packet =? 7).

(** The data notification of a packet (line 408). *)
Definition data_event (packet : Packet) : event :=
  EvData (payload packet) (commandByte packet) (sequenceN packet).

(** The keys come in strictly ascending order, all above [lo]. *)
Fixpoint ascending_from (lo : N) (ks : list N) : Prop :=
  match ks with
  | [] => True
  | k :: rest => lo < k /\ ascending_from k rest
  end.

(** [Object.keys(this._resolvers)] lists sequence numbers in ascending
    order, none of them 0. *)
Definition keys_ascending (d : TuyaDevice) : Prop :=
  ascending_from 0 (obj_keys (_resolvers d)).

(** *** A request whose attempts fail *)

(** After [k] failed attempts of the operation [i] that holds promise [r]:
    the next attempt is scheduled, the promise is pending, the counter has
    advanced [k] times, and nothing else of the connection has changed. *)
Definition failing (i r : nat) (buf : buffer) (e : exn) (k : nat)
    (d0 d : TuyaDevice) : Prop :=
  retries d !! i
  = Some {| op_buffer := buf; op_promise := r; op_errors := repeat e k;
            op_timer := true |}
  /\ (exists c, promises d !! r = Some {| pstate := Pending; on_settled := c |})
  /\ _currentSequenceN d = Nat.iter k incr (_currentSequenceN d0)
  /\ client d = client d0
  /\ _resolvers d = _resolvers d0.

(** *** A request that was written *)

(** The object after [get] or [set] wrote [frame] on the socket [sock]: the
    promise of the caller, the promise of [_send] with the callback [k]
    attached and the promise of the attempt are new, the attempt is the
    resolver under the next sequence number. *)
Definition sent (d : TuyaDevice) (sock : Socket) (k : reaction) (frame : buffer)
    : TuyaDevice :=
  {| device := device d; foundDevices := foundDevices d;
     _connected := _connected d;
     _responseTimeout := _responseTimeout d;
     _connectTimeout := _connectTimeout d;
     _pingPongPeriod := _pingPongPeriod d;
     _currentSequenceN := incr (_currentSequenceN d);
     _resolvers := obj_set (_resolvers d) (incr (_currentSequenceN d))
                     (S (S (length (promises d))));
     client := Some {| written := written sock ++ [frame] |};
     emitted := emitted d;
     promises := promises d
                 ++ [{| pstate := Pending; on_settled := NoReaction |};
                     {| pstate := Pending; on_settled := k |};
                     {| pstate := Pending;
                        on_settled := Attempt (S (length (promises d))) |}];
     retries := retries d
                ++ [{| op_buffer := frame; op_promise := S (length (promises d));
                       op_errors := []; op_timer := false |}];
     has_error_listener := has_error_listener d |}.

(** The frames of [get] and of [set] for one property. *)
Definition get_frame {lib : Libraries} (d : TuyaDevice) : buffer :=
  encode {| enc_data := VObj [("gwId", gwID (device d)); ("devId", id (device d))];
            enc_encrypted := VUndefined; enc_commandByte := 10 |}.

Definition set_frame {lib : Libraries} (d : TuyaDevice) (now : value)
    (property : string) (v : value) : buffer :=
  encode {| enc_data := VObj [("devId", id (device d)); ("gwId", gwID (device d));
                              ("uid", VStr ""); ("t", now);
                              ("dps", VObj [(property, v)])];
            enc_encrypted := VBool true; enc_commandByte := 7 |}.

(** *** The heartbeat *)

(** No timer of [setInterval] runs but the one [this.pingpongTimeout]
    names. *)
Definition heartbeat_wf (s : Connection) : Prop :=
  forall j, intervals s !! j = Some true -> pingpongTimeout s = Some j.

(** ** A sample codec and sample devices, for closed instances

    Every closed statement below runs the client with the instance
    [Sample.libraries]. *)

Module Sample.

(** A codec that spells a frame as one sequence byte followed by the
    command byte; [writeSequenceN] overwrites the first byte and rejects a
    number that does not fit the field. *)
Definition encode (a : EncodeArgs) : buffer :=
  [Byte.x00; default Byte.x00 (Byte.of_N (enc_commandByte a mod 256))].

Definition writeSequenceN (b : buffer) (n : N) : exn + buffer :=
  if n <? 2 ^ 32 then inr (default Byte.x00 (Byte.of_N (n mod 256)) :: tail b)
  else inl (JsError "out of range").

(** The empty datagram is malformed; one that starts with byte 2 is a
    broadcast of [dev2] at 10.0.0.6, any other a broadcast of [dev1] at
    10.0.0.5. *)
Definition parse (b : buffer) : exn + list Packet :=
  match b with
  | [] => inl (JsError "bad frame")
  | Byte.x02 :: _ =>
      inr [{| payload := VObj [("gwId", VStr "dev2"); ("ip", VStr "10.0.0.6")];
              commandByte := 0; sequenceN := 0 |}]
  | _ =>
      inr [{| payload := VObj [("gwId", VStr "dev1"); ("ip", VStr "10.0.0.5")];
              commandByte := 0; sequenceN := 0 |}]
  end.

Definition mainError (errors : list exn) : exn :=
  List.last errors (JsError "").

#[global] Instance libraries : Libraries :=
  Build_Libraries encode writeSequenceN parse mainError.

Definition options : Options :=
  {| o_ip := VUndefined; o_port := VUndefined; o_id := VStr "dev1";
     o_gwID := VUndefined; o_key := VStr "0123456789abcdef";
     o_productKey := VUndefined; o_version := VUndefined |}.

(** The device [new TuyaDevice({id: 'dev1', key: '0123456789abcdef'})]. *)
Definition fresh : TuyaDevice :=
  match constructor options with
  | inr d => d
  | inl _ =>
      {| device := {| ip := VUndefined; port := VUndefined; id := VUndefined;
                      gwID := VUndefined; key := VUndefined;
                      productKey := VUndefined; version := VUndefined;
                      parser := {| parser_key := VUndefined; parser_version := VUndefined |};
                      cipher := {| cipher_key := VUndefined; cipher_version := VUndefined |} |};
         foundDevices := []; _connected := false; _responseTimeout := 0;
         _connectTimeout := 0; _pingPongPeriod := 0; _currentSequenceN := 0;
         _resolvers := []; client := None; emitted := []; promises := [];
         retries := []; has_error_listener := false |}
  end.

(** The same device once its socket is connected. *)
Definition connected : TuyaDevice :=
  {| device := device fresh; foundDevices := foundDevices fresh;
     _connected := true; _responseTimeout := _responseTimeout fresh;
     _connectTimeout := _connectTimeout fresh;
     _pingPongPeriod := _pingPongPeriod fresh;
     _currentSequenceN := _currentSequenceN fresh;
     _resolvers := _resolvers fresh;
     client := Some {| written := [] |};
     emitted := []; promises := []; retries := [];
     has_error_listener := has_error_listener fresh |}.

(** The call [find({timeout: 10, all})] on [fresh], once it listens. *)
Definition listening (all : bool) : FindCall :=
  {| all := all; timeout_ms := 10000;
     listener := {| bound_port := 6666; reuseAddr := true; closed := false;
                    has_listeners := true |};
     result := FindPending; timer := true |}.

(** A device that says it is connected and has no socket. *)
Definition socketless : TuyaDevice := with_client connected None.

(** A connected device whose counter has reached the last number that
    fits the sequence field. *)
Definition exhausted : TuyaDevice := with_sequenceN connected (2 ^ 32 - 1).

(** The buffer [get] sends for [connected]. *)
Definition request : buffer :=
  encode {| enc_data := VObj [("gwId", VStr "dev1"); ("devId", VStr "dev1")];
            enc_encrypted := VUndefined; enc_commandByte := 10 |}.

Definition status (seq : N) (doc : value) : Packet :=
  {| payload := doc; commandByte := 10; sequenceN := seq |}.

Definition pong (seq : N) : Packet :=
  {| payload := VBuf []; commandByte := 9; sequenceN := seq |}.

(** [connected] after two calls of [get()], and the two requests. *)
Definition query : get_options := {| schema := VUndefined; dps := None |}.

Definition two_requests : TuyaDevice :=
  snd (get query (snd (get query connected))).

Definition first_request : Flight :=
  {| fl_seq := 1; fl_attempt := 2; fl_send := 1; fl_callback := GetThen query 0 |}.

Definition second_request : Flight :=
  {| fl_seq := 2; fl_attempt := 5; fl_send := 4; fl_callback := GetThen query 3 |}.

(** The document of a device whose first property is on. *)
Definition switched_on : value := VObj [("dps", VObj [("1", VBool true)])].

(** [fresh] before [connect], and after its socket has connected. *)
Definition session : Connection := new_connection fresh.

Definition established : Connection :=
  snd (socket_connect (snd (connect session))).

(** The request that [established] waits for. *)
Definition status_query : Flight :=
  {| fl_seq := 1; fl_attempt := 3; fl_send := 2; fl_callback := GetThen query 1 |}.

(** A parser that reads a frame as the status [switched_on] under the
    sequence number in its first byte, with the rest of the codec as
    above. *)
Definition parse_status (b : buffer) : exn + list Packet :=
  match b with
  | [] => inl (JsError "bad frame")
  | n :: _ => inr [status (Byte.to_N n) switched_on]
  end.

Definition framed : Libraries :=
  Build_Libraries encode writeSequenceN parse_status mainError.

(** A parser that could not decode the payload of a broadcast and hands it
    on as the text it received. *)
Definition parse_raw (b : buffer) : exn + list Packet :=
  match b with
  | [] => inl (JsError "bad frame")
  | _ => inr [{| payload := VStr "3.3-undecoded"; commandByte := 0; sequenceN := 0 |}]
  end.

Definition undecoded : Libraries :=
  Build_Libraries encode writeSequenceN parse_raw mainError.



End Sample.

(** ** Facts about objects and the promise store *)

Section ObjFacts.

Context {A : Type}.
Implicit Types (o : jsobj A) (k n : N) (a : A).

Lemma obj_get_update_eq o n a :
  obj_get o n <> None -> obj_get (obj_update o n a) n = Some a.
Proof.
  induction o as [|[k' a'] o IH]; simpl; [congruence|].
  destruct (N.eqb_spec n k') as [->|Hne]; simpl.
  - now rewrite N.eqb_refl.
  - intros H. destruct (N.eqb_spec n k'); [congruence|]. now apply IH.
Qed.

Lemma obj_get_update_ne o n k a :
  k <> n -> obj_get (obj_update o n a) k = obj_get o k.
Proof.
  intros Hne. induction o as [|[k' a'] o IH]; simpl; [reflexivity|].
  destruct (N.eqb_spec n k') as [->|Hn]; simpl.
  - destruct (N.eqb_spec k k'); [congruence|reflexivity].
  - destruct (N.eqb_spec k k'); [reflexivity|apply IH].
Qed.

Lemma obj_get_add_eq o n a :
  obj_get o n = None -> obj_get (obj_add o n a) n = Some a.
Proof.
  induction o as [|[k' a'] o IH]; simpl.
  - now rewrite N.eqb_refl.
  - destruct (N.eqb_spec n k') as [->|Hn]; [congruence|]. intros H.
    destruct (is_array_index n && _); simpl.
    + now rewrite N.eqb_refl.
    + destruct (N.eqb_spec n k'); [congruence|]. now apply IH.
Qed.

Lemma obj_get_add_ne o n k a :
  k <> n -> obj_get (obj_add o n a) k = obj_get o k.
Proof.
  intros Hne. induction o as [|[k' a'] o IH]; simpl.
  - destruct (N.eqb_spec k n); [congruence|reflexivity].
  - destruct (is_array_index n && _); simpl.
    + destruct (N.eqb_spec k n); [congruence|reflexivity].
    + destruct (N.eqb_spec k k'); [reflexivity|apply IH].
Qed.

(** Reading back what was just stored, and reading any other key. *)
Lemma obj_get_set_eq o n a : obj_get (obj_set o n a) n = Some a.
Proof.
  unfold obj_set. destruct (obj_get o n) eqn:E.
  - apply obj_get_update_eq. congruence.
  - now apply obj_get_add_eq.
Qed.

Lemma obj_get_set_ne o n k a : k <> n -> obj_get (obj_set o n a) k = obj_get o k.
Proof.
  intros Hne. unfold obj_set. destruct (obj_get o n).
  - now apply obj_get_update_ne.
  - now apply obj_get_add_ne.
Qed.

Lemma obj_get_delete_eq o n :
  obj_get o n = None -> obj_delete o n = o.
Proof.
  induction o as [|[k' a'] o IH]; simpl; [reflexivity|].
  destruct (N.eqb_spec n k'); [congruence|]. intros H. now rewrite IH.
Qed.

Lemma obj_get_delete_ne o n k :
  k <> n -> obj_get (obj_delete o n) k = obj_get o k.
Proof.
  intros Hne. induction o as [|[k' a'] o IH]; simpl; [reflexivity|].
  destruct (N.eqb_spec n k') as [->|Hn]; simpl.
  - destruct (N.eqb_spec k k'); [congruence|apply IH].
  - destruct (N.eqb_spec k k'); [reflexivity|apply IH].
Qed.

Lemma obj_get_delete_same o n : obj_get (obj_delete o n) n = None.
Proof.
  induction o as [|[k' a'] o IH]; simpl; [reflexivity|].
  destruct (N.eqb_spec n k') as [->|Hn]; simpl; [apply IH|].
  destruct (N.eqb_spec n k'); [congruence|apply IH].
Qed.

End ObjFacts.

(** ** The sequence-0 fallback of the packet handler *)

Section PacketHandler.

Implicit Types (packet : Packet) (d : TuyaDevice).

Lemma dispatched_eqb packet :
  dispatched packet ->
  (commandByte packet =? 9) = false /\ (commandByte packet =? 7) = false.
Proof. intros [H9 H7]. split; now apply N.eqb_neq. Qed.

(** The notification comes first, whatever happens next. *)
Lemma _packetHandler_unfold packet d :
  dispatched packet ->
  _packetHandler packet d =
  let d1 := emit d (EvData (payload packet) (commandByte packet) (sequenceN packet)) in
  match obj_get (_resolvers d1) (sequenceN packet) with
  | Some resolver =>
      let d2 := with_promises d1 (call_resolver (promises d1) resolver (payload packet)) in
      (None, with_resolvers d2 (obj_delete (_resolvers d2) (sequenceN packet)))
  | None =>
      if sequenceN packet =? 0 then
        match obj_keys (_resolvers d1) with
        | k :: _ =>
            match obj_get (_resolvers d1) k with
            | Some resolver =>
                let d2 := with_promises d1
                            (call_resolver (promises d1) resolver (payload packet)) in
                (None, with_resolvers d2 (obj_delete (_resolvers d2) (sequenceN packet)))
            | None => (Some NotAFunction, d1)
            end
        | [] => (Some NotAFunction, d1)
        end
      else (None, d1)
  end.
Proof.
  intros Hd. destruct (dispatched_eqb _ Hd) as [E9 E7].
  unfold _packetHandler. now rewrite E9, E7.
Qed.

(** The fallback calls the resolver under the first key and then deletes
    key 0, which is not there: the table is left as it was. *)
Lemma fallback_keeps_entry packet d k (resolver : nat) rest :
  dispatched packet ->
  sequenceN packet = 0 ->
  _resolvers d = (k, resolver) :: rest ->
  obj_get (_resolvers d) 0 = None ->
  _packetHandler packet d =
  (None,
   with_promises
     (emit d (EvData (payload packet) (commandByte packet) 0))
     (call_resolver (promises d) resolver (payload packet))).
Proof.
  intros Hd Hs Ht H0. rewrite _packetHandler_unfold by assumption.
  rewrite Hs. cbn zeta. simpl _resolvers. rewrite H0. simpl (0 =? 0).
  rewrite Ht. simpl obj_keys. cbn iota. simpl obj_get at 1.
  rewrite N.eqb_refl. rewrite <- Ht.
  unfold with_resolvers, with_promises, emit, with_emitted. simpl.
  rewrite (obj_get_delete_eq _ _ H0). reflexivity.
Qed.

(** C10: a dispatched packet with sequence number 0 that finds the table
    of pending requests empty makes the handler throw a [TypeError] (a call
    of [undefined]) right after the data notification; the packet is not
    ignored. *)
Theorem fallback_on_empty_table_throws packet d :
  dispatched packet ->
  sequenceN packet = 0 ->
  _resolvers d = [] ->
  _packetHandler packet d =
    (Some NotAFunction,
     emit d (EvData (payload packet) (commandByte packet) (sequenceN packet)))
  /\ is_TypeError NotAFunction = true.
Proof.
  intros Hd Hs Ht. split; [|reflexivity].
  rewrite _packetHandler_unfold by assumption.
  cbn zeta. simpl _resolvers. rewrite Ht, Hs. reflexivity.
Qed.

Lemma fallback_on_empty_table_throws_witness :
  fst (_packetHandler (Sample.status 0 (VObj [])) Sample.connected)
  = Some NotAFunction.
Proof.
  pose proof (fallback_on_empty_table_throws
                (Sample.status 0 (VObj [])) Sample.connected) as H.
  destruct H as [H _].
  - split; discriminate.
  - reflexivity.
  - reflexivity.
  - rewrite H. reflexivity.
Defined.

End PacketHandler.

(** C2: in the fallback for sequence number 0 the handler fulfils the entry
    under the first key but deletes key 0, so the fulfilled entry stays in
    the table.  With two requests pending under 1 and 2, a first reply with
    sequence 0 fulfils the request under 1 and leaves both entries; a second
    one is handed to the entry under 1 again, and the request under 2, the
    oldest one still pending, stays pending. *)
Theorem fallback_leaves_fulfilled_entry :
  let get := get in
  let '(g1, d1) := get {| schema := VUndefined; dps := None |} Sample.connected in
  let '(g2, d2) := get {| schema := VUndefined; dps := None |} d1 in
  let reply1 := Sample.status 0 (VObj [("dps", VObj [("1", VBool true)])]) in
  let reply2 := Sample.status 0 (VObj [("dps", VObj [("1", VBool false)])]) in
  let d3 := snd (_packetHandler reply1 d2) in
  let d4 := snd (_packetHandler reply2 d3) in
  obj_keys (_resolvers d2) = [1; 2]
  /\ state_of (promises d2) g1 = Some Pending
  /\ state_of (promises d2) g2 = Some Pending
  /\ state_of (promises d3) g1 = Some (Fulfilled (VBool true))
  /\ _resolvers d3 = _resolvers d2
  /\ state_of (promises d4) g1 = Some (Fulfilled (VBool true))
  /\ state_of (promises d4) g2 = Some Pending
  /\ _resolvers d4 = _resolvers d2.
Proof. vm_compute. repeat split; reflexivity. Qed.

(** ** The constructor *)

Lemma checkIfValidString_spec v :
  checkIfValidString v = true <-> nonempty_string v.
Proof.
  unfold nonempty_string. split.
  - destruct v as [| | | |s| |]; simpl; try discriminate.
    intros H. exists s. split; [reflexivity|].
    intros ->. simpl in H. discriminate.
  - intros (s & -> & Hs). simpl. destruct s; [congruence|reflexivity].
Qed.

Lemma key_check_spec v :
  checkIfValidString v && key_length_is_16 v = true <-> key16 v.
Proof.
  unfold key16. split.
  - destruct v as [| | | |s| |]; simpl; try discriminate.
    intros H. apply andb_true_iff in H as [_ H].
    exists s. split; [reflexivity|]. now apply Nat.eqb_eq.
  - intros (s & -> & Hs). simpl. rewrite Hs.
    destruct s; [discriminate Hs|reflexivity].
Qed.

Lemma config_valid_dec o :
  config_valid o <->
  (checkIfValidString (o_id o) || checkIfValidString (o_ip o))
  && (checkIfValidString (o_key o) && key_length_is_16 (o_key o)) = true.
Proof.
  unfold config_valid.
  rewrite andb_true_iff, orb_true_iff, key_check_spec, !checkIfValidString_spec.
  reflexivity.
Qed.

(** C6: the constructor throws a [TypeError] exactly when the configuration
    is invalid: "ID and IP are missing from device." when neither [id] nor
    [ip] is a non-empty string, and otherwise "Key is missing or incorrect."
    when [key] is not a string of length 16.  A configuration that passes
    both checks yields a device that keeps [id], [ip] and [key], whose port
    is the one given, or 6668 when none is given, whose version is the one
    given, or 3.1 when none is given, and whose gateway identifier is the
    one given, or the identifier when none is given. *)
#[warnings="-inexact-float"] Theorem constructor_checks_config (o : Options) :
  match constructor o with
  | inl e =>
      ~ config_valid o
      /\ ((~ (nonempty_string (o_id o) \/ nonempty_string (o_ip o))
           /\ e = JsTypeError "ID and IP are missing from device.")
          \/ ((nonempty_string (o_id o) \/ nonempty_string (o_ip o))
              /\ ~ key16 (o_key o)
              /\ e = JsTypeError "Key is missing or incorrect."))
  | inr d =>
      config_valid o
      /\ id (device d) = o_id o
      /\ ip (device d) = o_ip o
      /\ key (device d) = o_key o
      /\ port (device d) = match o_port o with VUndefined => VNum 6668 | p => p end
      /\ version (device d) = match o_version o with VUndefined => VNum 3.1 | v => v end
      /\ gwID (device d) = match o_gwID o with VUndefined => o_id o | g => g end
  end.
Proof.
  unfold constructor.
  destruct (checkIfValidString (o_id o) || checkIfValidString (o_ip o)) eqn:E1;
    simpl.
  - assert (H1 : nonempty_string (o_id o) \/ nonempty_string (o_ip o)).
    { rewrite <- !checkIfValidString_spec. now apply orb_true_iff. }
    assert (Hk : ~ key16 (o_key o) <->
                 checkIfValidString (o_key o) && key_length_is_16 (o_key o) = false).
    { rewrite <- key_check_spec. now destruct (_ && _). }
    destruct (checkIfValidString (o_key o)) eqn:E2; simpl.
    + destruct (key_length_is_16 (o_key o)) eqn:E3; simpl.
      * rewrite config_valid_dec, E1, E2, E3. unfold or_default.
        repeat split;
          try reflexivity; [destruct (o_port o)|destruct (o_version o)|destruct (o_gwID o)];
          reflexivity.
      * rewrite config_valid_dec, E1, E2, E3. split; [discriminate|right].
        split; [exact H1|]. split; [now apply Hk|reflexivity].
    + rewrite config_valid_dec, E1, E2. split; [discriminate|right].
      split; [exact H1|]. split; [now apply Hk|reflexivity].
  - rewrite config_valid_dec, E1. split; [discriminate|left].
    split; [|reflexivity].
    rewrite <- !checkIfValidString_spec.
    intros H. apply orb_true_iff in H. congruence.
Qed.

(** ** Facts about the promise store *)

Lemma lookup_snoc_new {A} (l : list A) (x : A) : (l ++ [x]) !! length l = Some x.
Proof. now apply list_lookup_middle. Qed.

Lemma insert_snoc_new {A} (l : list A) (x y : A) :
  <[length l := y]> (l ++ [x]) = l ++ [y].
Proof.
  replace (length l) with (length l + 0)%nat by lia.
  now rewrite insert_app_r.
Qed.

Lemma settle_length ps p s : length (settle ps p s) = length ps.
Proof.
  unfold settle. destruct (ps !! p) as [[[] k]|]; try reflexivity.
  apply length_insert.
Qed.

Lemma settle_other ps p q s : q <> p -> settle ps p s !! q = ps !! q.
Proof.
  intros Hne. unfold settle. destruct (ps !! p) as [[[] k]|]; try reflexivity.
  now apply list_lookup_insert_ne.
Qed.

Lemma settle_new ps s k :
  settle (ps ++ [{| pstate := Pending; on_settled := k |}]) (length ps) s
  = ps ++ [{| pstate := s; on_settled := k |}].
Proof. unfold settle. rewrite lookup_snoc_new. apply insert_snoc_new. Qed.

(** ** Sending while not connected *)

Section NotConnected.

Context {lib : Libraries}.

(** C4: while [isConnected()] is false, [_send] throws the error "No
    connection has been made to the device." and leaves the object as it
    was: no reconnect, nothing written, no sequence number taken, no
    resolver registered.  [get] and [set] (called with options) hand that
    error to their promise, which is rejected when they return, and change
    nothing else. *)
Theorem send_requires_connection (buf : buffer) (options : get_options)
    (sopts : set_options) (now : value) (d : TuyaDevice) :
  isConnected d = false ->
  let e := JsError "No connection has been made to the device." in
  let rejected := promises d ++ [{| pstate := Rejected e; on_settled := NoReaction |}] in
  _send buf d = (inl e, d)
  /\ get options d = (length (promises d), with_promises d rejected)
  /\ (no_entries sopts = false ->
      set (Some sopts) now d = (inr (length (promises d)), with_promises d rejected))
  /\ client (with_promises d rejected) = client d
  /\ _currentSequenceN (with_promises d rejected) = _currentSequenceN d
  /\ _resolvers (with_promises d rejected) = _resolvers d
  /\ _connected (with_promises d rejected) = false.
Proof.
  intros Hc e rejected.
  assert (Hsend : forall b d', isConnected d' = false -> _send b d' = (inl e, d')).
  { intros b d' H. unfold _send. now rewrite H. }
  split; [now apply Hsend|].
  split; [|split]; [| |repeat split; exact Hc].
  - unfold get, new_promise. rewrite Hsend by exact Hc.
    unfold with_promises; simpl. now rewrite settle_new.
  - intros Hne. unfold set. rewrite Hne.
    unfold new_promise. rewrite Hsend by exact Hc.
    unfold with_promises; simpl. now rewrite settle_new.
Qed.

End NotConnected.

Lemma send_requires_connection_witness :
  isConnected Sample.fresh = false
  /\ _send [] Sample.fresh
     = (inl (JsError "No connection has been made to the device."), Sample.fresh).
Proof.
  split; [reflexivity|].
  apply (send_requires_connection [] {| schema := VUndefined; dps := None |}
           {| multiple := None; data := None; set_dps := None;
              set_set := Some (VBool true) |} VUndefined Sample.fresh).
  reflexivity.
Defined.

(** ** Discovery: the set of found devices *)

Section Discovery.

Context {lib : Libraries}.








End Discovery.

(** ** Discovery: settling and releasing *)

Section DiscoveryTimeout.

Context {lib : Libraries}.

Lemma find_listening timeout a d f :
  find timeout a d = Listening f ->
  all f = a /\ result f = FindPending /\ timer f = true
  /\ has_listeners (listener f) = true /\ closed (listener f) = false
  /\ bound_port (listener f) = 6666 /\ reuseAddr (listener f) = true.
Proof.
  unfold find. destruct (_ && _); [discriminate|].
  intros H. injection H as H. subst f. repeat split; reflexivity.
Qed.

(** With [all] set, no message and no socket error fulfils the promise. *)
Lemma step_never_fulfils_all ev d f :
  all f = true ->
  ev <> TimerFires ->
  (forall v, result f <> FindFulfilled v) ->
  all (snd (find_step ev (d, f))) = true
  /\ forall v, result (snd (find_step ev (d, f))) <> FindFulfilled v.
Proof.
  intros Ha Hev Hr. destruct ev as [m|e|]; [| |congruence]; simpl.
  - unfold on_message.
    destruct (negb (has_listeners (listener f))); [now split|].
    destruct (parse m) as [e|[|dataRes rest]]; simpl; [|now split|].
    + unfold find_settle. destruct (result f) eqn:E; simpl; rewrite ?E;
        split; try assumption; try discriminate; intros v'; congruence.
    + unfold on_found.
      destruct (get_prop (payload dataRes) "gwId"); [now split|].
      destruct (get_prop (payload dataRes) "ip"); [now split|].
      cbv zeta. unfold matches. rewrite Ha. simpl. now split.
  - unfold on_error. destruct (negb (has_listeners (listener f))); [now split|].
    simpl. unfold find_settle. destruct (result f) eqn:E; simpl; rewrite ?E;
      split; try assumption; try discriminate; intros v'; congruence.
Qed.

Lemma run_never_fulfils_all evs d f :
  all f = true ->
  before_timeout evs ->
  (forall v, result f <> FindFulfilled v) ->
  forall v, result (snd (find_run evs (d, f))) <> FindFulfilled v.
Proof.
  revert d f. induction evs as [|ev evs IH]; intros d f Ha Hevs Hr; [exact Hr|].
  apply Forall_cons in Hevs as [Hev Hevs]. simpl.
  destruct (step_never_fulfils_all ev d f Ha Hev Hr) as [Ha' Hr'].
  destruct (find_step ev (d, f)) as [d' f'].
  now apply IH.
Qed.

Lemma datagram_matches_device d d' ev :
  device d = device d' -> datagram_matches d ev = datagram_matches d' ev.
Proof. intros H. unfold datagram_matches. now rewrite H. Qed.

(** A decoded datagram that does not settle the call leaves the call as it
    is and changes nothing of the device but [foundDevices]. *)
Lemma quiet_step ev d f :
  well_received ev ->
  all f = true \/ datagram_matches d ev = false ->
  exists d', find_step ev (d, f) = (d', f) /\ device d' = device d.
Proof.
  intros (m & -> & Hm) Hq. simpl. unfold on_message.
  destruct (negb (has_listeners (listener f))); [now exists d|].
  unfold datagram_matches in Hq.
  destruct (parse m) as [e|[|dataRes rest]]; [now destruct (Hm e)|now exists d|].
  unfold on_found.
  destruct (get_prop (payload dataRes) "gwId") as [e|thisID]; [now exists d|].
  destruct (get_prop (payload dataRes) "ip") as [e|thisIP]; [now exists d|].
  cbv zeta.
  set (d1 := if negb (already_found (foundDevices d) thisID thisIP)
             then _ else d).
  assert (Hdev : device d1 = device d).
  { unfold d1. now destruct (negb _). }
  assert (Hno : matches f d1 thisID thisIP (payload dataRes) = false).
  { unfold matches. rewrite Hdev. destruct Hq as [Ha|Hq].
    - now rewrite Ha.
    - rewrite <- andb_assoc, Hq. apply andb_false_r. }
  rewrite Hno. now exists d1.
Qed.

Lemma quiet_run evs d f :
  Forall well_received evs ->
  all f = true \/ Forall (fun ev => datagram_matches d ev = false) evs ->
  exists d', find_run evs (d, f) = (d', f) /\ device d' = device d.
Proof.
  revert d. induction evs as [|ev evs IH]; intros d Hw Hq; [now exists d|].
  apply Forall_cons in Hw as [Hw1 Hw].
  assert (Hq1 : all f = true \/ datagram_matches d ev = false).
  { destruct Hq as [Ha|Hq]; [now left|right].
    now apply Forall_cons in Hq as [Hq _]. }
  destruct (quiet_step ev d f Hw1 Hq1) as (d1 & Hstep & Hdev).
  simpl. rewrite Hstep.
  destruct (IH d1 Hw) as (d2 & Hrun & Hdev2).
  { destruct Hq as [Ha|Hq]; [now left|right].
    apply Forall_cons in Hq as [_ Hq].
    eapply Forall_impl; [exact Hq|]. intros ev' H.
    now rewrite (datagram_matches_device d1 d ev' Hdev). }
  exists d2. split; [exact Hrun|congruence].
Qed.

(** As the code has it, a call that listens with [all] set is never
    fulfilled before its timer fires, whatever arrives.  If every event
    before the timer is a datagram the parser decodes (no parse failure, no
    socket error, either of which rejects the call at once and clears the
    timer), then the call is still pending when the timer fires, and the
    timer fulfils it with [foundDevices] when [all] is set; without [all],
    and with no datagram matching the configured identifier or address, the
    timer rejects it with the time-out error. *)
Theorem find_until_timeout (timeout : N) (a : bool) (d : TuyaDevice)
    (f : FindCall) (evs : list find_event) :
  find timeout a d = Listening f ->
  before_timeout evs ->
  let s := find_run evs (d, f) in
  (a = true -> forall v, result (snd s) <> FindFulfilled v)
  /\ (Forall well_received evs ->
      (a = false -> Forall (fun ev => datagram_matches d ev = false) evs) ->
      result (snd s) = FindPending
      /\ result (snd (find_step TimerFires s)) =
         if a then FindFulfilled (FoundAll (foundDevices (fst s)))
         else FindRejected
                (JsError "find() timed out. Is the device powered on and the ID or IP correct?")).
Proof.
  intros Hfind Hevs s.
  destruct (find_listening _ _ _ _ Hfind) as (Ha & Hr & Ht & _).
  split.
  - intros ->. apply run_never_fulfils_all; try assumption.
    intros v. rewrite Hr. discriminate.
  - intros Hw Hq.
    destruct (quiet_run evs d f Hw) as (d' & Hrun & Hdev).
    { destruct a; [now left|right; now apply Hq]. }
    subst s. rewrite Hrun. simpl. split; [exact Hr|].
    unfold on_timeout. rewrite Ht, Ha.
    destruct a; simpl; unfold find_settle; simpl; now rewrite Hr.
Qed.

(** A parse failure rejects the call and clears its timer without touching
    the socket: nothing is left that would release the listener. *)
Lemma parse_failure_keeps_listener m e d f :
  parse m = inl e ->
  has_listeners (listener f) = true ->
  result f = FindPending ->
  let f' := snd (find_step (Message m) (d, f)) in
  result f' = FindRejected e /\ listener f' = listener f /\ timer f' = false
  /\ find_step TimerFires (d, f') = (d, f').
Proof.
  intros Hm Hl Hr. simpl. unfold on_message. rewrite Hl, Hm. simpl.
  unfold find_settle. rewrite Hr. simpl. repeat split.
Qed.

Lemma socket_error_keeps_listener e d f :
  has_listeners (listener f) = true ->
  result f = FindPending ->
  let f' := snd (find_step (SocketError e) (d, f)) in
  result f' = FindRejected e /\ listener f' = listener f /\ timer f' = false
  /\ find_step TimerFires (d, f') = (d, f').
Proof.
  intros Hl Hr. simpl. unfold on_error. rewrite Hl. simpl.
  unfold find_settle. rewrite Hr. simpl. repeat split.
Qed.

End DiscoveryTimeout.




Lemma find_until_timeout_witness :
  find 10 false Sample.fresh = Listening (Sample.listening false)
  /\ result (snd (find_run [Message [Byte.x02]; TimerFires]
                    (Sample.fresh, Sample.listening false)))
     = FindRejected
         (JsError "find() timed out. Is the device powered on and the ID or IP correct?").
Proof.
  split; [reflexivity|].
  apply (find_until_timeout 10 false Sample.fresh
           (Sample.listening false) [Message [Byte.x02]]).
  - reflexivity.
  - repeat constructor. discriminate.
  - repeat constructor. exists [Byte.x02]. split; [reflexivity|].
    intros e. discriminate.
  - intros _. repeat constructor.
Defined.

(** [find] on a device that knows its identifier only receives one
    malformed datagram, which matches nothing.  The call is
    rejected with the error of the parser at once, its timer is cleared, and
    the end of the time-out changes nothing: without [all] it has not failed
    with the time-out error, and with [all] it never resolves with the
    devices found. *)
Lemma find_rejected_before_timeout :
  find 10 false Sample.fresh = Listening (Sample.listening false)
  /\ find 10 true Sample.fresh = Listening (Sample.listening true)
  /\ datagram_matches Sample.fresh (Message []) = false
  /\ result (snd (find_run [Message []] (Sample.fresh, Sample.listening false)))
     = FindRejected (JsError "bad frame")
  /\ result (snd (find_run [Message []; TimerFires]
                    (Sample.fresh, Sample.listening false)))
     = FindRejected (JsError "bad frame")
  /\ result (snd (find_run [Message []; TimerFires]
                    (Sample.fresh, Sample.listening true)))
     = FindRejected (JsError "bad frame").
Proof. repeat split; reflexivity. Qed.

(** C5: the listener is released when a datagram matches and when the timer
    fires, with or without [all]; it is not released on the paths that
    reject.  After a datagram that fails to parse, and after a socket error,
    the promise is rejected and the timer is cleared, while the socket is
    still open with its handlers attached; the end of the time-out no longer
    releases it. *)
Theorem listener_kept_on_rejection :
  forall a : bool,
    let start := (Sample.fresh, Sample.listening a) in
    let run evs := snd (find_run evs start) in
    find 10 a Sample.fresh = Listening (Sample.listening a)
    /\ released (run [TimerFires]) = true
    /\ (a = false ->
        result (run [Message [Byte.x01]]) = FindFulfilled FoundTrue
        /\ released (run [Message [Byte.x01]]) = true)
    /\ result (run [Message []]) = FindRejected (JsError "bad frame")
    /\ released (run [Message []]) = false
    /\ timer (run [Message []]) = false
    /\ released (run [Message []; TimerFires]) = false
    /\ result (run [SocketError (JsError "EADDRINUSE")])
       = FindRejected (JsError "EADDRINUSE")
    /\ released (run [SocketError (JsError "EADDRINUSE")]) = false
    /\ released (run [SocketError (JsError "EADDRINUSE"); TimerFires]) = false.
Proof.
  intros []; repeat split; try reflexivity; intros; try discriminate; reflexivity.
Qed.

(** ** What an attempt touches *)

Section Attempts.

Context {lib : Libraries}.

Lemma lookup_app_plus {A} (l1 l2 : list A) (i : nat) :
  (l1 ++ l2) !! (length l1 + i)%nat = l2 !! i.
Proof. rewrite lookup_app_r by lia. f_equal. lia. Qed.

(** A rejected attempt settles the promise of the attempt and at most the
    promise of its operation; it changes the entry of its operation only. *)
Lemma attempt_rejected_promises i a op e d q :
  q <> a -> q <> op_promise op ->
  promises (attempt_rejected i a op e d) !! q = promises d !! q.
Proof.
  intros Ha Hr. unfold attempt_rejected.
  destruct (is_TypeError e); [|destruct (_ <? _)%nat]; simpl.
  - rewrite settle_other by assumption. now apply settle_other.
  - now apply settle_other.
  - rewrite settle_other by assumption. now apply settle_other.
Qed.

Lemma attempt_rejected_retries_other i a op e d j :
  j <> i -> retries (attempt_rejected i a op e d) !! j = retries d !! j.
Proof.
  intros Hj. unfold attempt_rejected.
  destruct (is_TypeError e); [|destruct (_ <? _)%nat]; simpl;
    now apply list_lookup_insert_ne.
Qed.

Lemma attempt_rejected_retries_same i a op e d :
  (i < length (retries d))%nat ->
  exists op', retries (attempt_rejected i a op e d) !! i = Some op'
              /\ op_promise op' = op_promise op.
Proof.
  intros Hi. unfold attempt_rejected.
  destruct (is_TypeError e); [|destruct (_ <? _)%nat]; simpl; eexists;
    (split; [now apply list_lookup_insert_eq|reflexivity]).
Qed.

Lemma attempt_rejected_fields i a op e d :
  _resolvers (attempt_rejected i a op e d) = _resolvers d
  /\ _currentSequenceN (attempt_rejected i a op e d) = _currentSequenceN d
  /\ _connected (attempt_rejected i a op e d) = _connected d
  /\ client (attempt_rejected i a op e d) = client d
  /\ length (promises (attempt_rejected i a op e d)) = length (promises d)
  /\ length (retries (attempt_rejected i a op e d)) = length (retries d).
Proof.
  unfold attempt_rejected.
  destruct (is_TypeError e); [|destruct (_ <? _)%nat]; simpl;
    rewrite ?settle_length, ?length_insert; repeat split; reflexivity.
Qed.

(** The three ways an attempt can go. *)
Lemma attempt_unfold j d op :
  retries d !! j = Some op ->
  attempt j d =
  let a := length (promises d) in
  let n := incr (_currentSequenceN d) in
  let d2 := with_sequenceN
              (with_promises d
                 (promises d ++ [{| pstate := Pending;
                                    on_settled := Attempt (op_promise op) |}])) n in
  match writeSequenceN (op_buffer op) n with
  | inl e => attempt_rejected j a op e d2
  | inr b =>
      let op' := {| op_buffer := b; op_promise := op_promise op;
                    op_errors := op_errors op; op_timer := false |} in
      let d3 := with_retries d2 (<[j := op']> (retries d)) in
      match client d with
      | None => attempt_rejected j a op' (CannotReadProperty "write") d3
      | Some sock =>
          with_resolvers
            (with_client d3 (Some {| written := written sock ++ [b] |}))
            (obj_set (_resolvers d) n a)
      end
  end.
Proof. intros Ej. unfold attempt. rewrite Ej. reflexivity. Qed.

Ltac attempt_cases Ej :=
  rewrite (attempt_unfold _ _ _ Ej); cbv zeta;
  destruct (writeSequenceN _ _) as [?e|?b];
    [|match goal with |- context [client ?d] => destruct (client d) as [?sock|] end].

Ltac fields :=
  cbn [device foundDevices _connected _responseTimeout _connectTimeout
       _pingPongPeriod _currentSequenceN _resolvers client emitted promises
       retries with_device with_foundDevices with_sequenceN with_resolvers
       with_client with_emitted with_promises with_retries op_promise].

(** An attempt leaves alone every promise that exists already, except the
    promise of its own operation. *)
Lemma attempt_promises j d q :
  (q < length (promises d))%nat ->
  (forall op, retries d !! j = Some op -> op_promise op <> q) ->
  promises (attempt j d) !! q = promises d !! q.
Proof.
  intros Hq Hop.
  destruct (retries d !! j) as [op|] eqn:Ej;
    [|unfold attempt; now rewrite Ej].
  specialize (Hop op eq_refl). attempt_cases Ej.
  - rewrite attempt_rejected_promises; fields; [|lia|congruence].
    now apply lookup_app_l.
  - fields. now apply lookup_app_l.
  - rewrite attempt_rejected_promises; fields; [|lia|congruence].
    now apply lookup_app_l.
Qed.

Lemma attempt_retries_other j d i :
  i <> j -> retries (attempt j d) !! i = retries d !! i.
Proof.
  intros Hi.
  destruct (retries d !! j) as [op|] eqn:Ej;
    [|unfold attempt; now rewrite Ej].
  attempt_cases Ej.
  - now rewrite attempt_rejected_retries_other.
  - fields. now apply list_lookup_insert_ne.
  - rewrite attempt_rejected_retries_other by assumption. fields.
    now apply list_lookup_insert_ne.
Qed.

Lemma attempt_retries_same j d op :
  retries d !! j = Some op ->
  exists op', retries (attempt j d) !! j = Some op'
              /\ op_promise op' = op_promise op.
Proof.
  intros Ej. assert (Hj : (j < length (retries d))%nat).
  { apply lookup_lt_is_Some. rewrite Ej. eauto. }
  attempt_cases Ej.
  - now apply attempt_rejected_retries_same.
  - fields. eexists. split; [now apply list_lookup_insert_eq|reflexivity].
  - match goal with |- context [attempt_rejected ?i ?a ?o ?e ?s] =>
      destruct (attempt_rejected_retries_same i a o e s) as (op' & H1 & H2)
    end.
    { fields. now rewrite length_insert. }
    exists op'. split; [exact H1|exact H2].
Qed.

Lemma attempt_lengths j d :
  (length (promises d) <= length (promises (attempt j d)))%nat
  /\ length (retries (attempt j d)) = length (retries d).
Proof.
  destruct (retries d !! j) as [op|] eqn:Ej;
    [|unfold attempt; now rewrite Ej].
  attempt_cases Ej.
  - match goal with |- context [attempt_rejected ?i ?a ?o ?e ?s] =>
      destruct (attempt_rejected_fields i a o e s) as (_ & _ & _ & _ & Hp & Hr)
    end.
    rewrite Hp, Hr. fields. rewrite length_app. simpl. split; [lia|reflexivity].
  - fields. rewrite length_app, length_insert. simpl. split; [lia|reflexivity].
  - match goal with |- context [attempt_rejected ?i ?a ?o ?e ?s] =>
      destruct (attempt_rejected_fields i a o e s) as (_ & _ & _ & _ & Hp & Hr)
    end.
    rewrite Hp, Hr. fields. rewrite length_app, length_insert. simpl.
    split; [lia|reflexivity].
Qed.

(** The table of resolvers changes at the new sequence number only, and the
    connection is not touched. *)
Lemma attempt_resolvers j d k :
  k <> incr (_currentSequenceN d) ->
  obj_get (_resolvers (attempt j d)) k = obj_get (_resolvers d) k.
Proof.
  intros Hk.
  destruct (retries d !! j) as [op|] eqn:Ej;
    [|unfold attempt; now rewrite Ej].
  attempt_cases Ej.
  - match goal with |- context [attempt_rejected ?i ?a ?o ?e ?s] =>
      destruct (attempt_rejected_fields i a o e s) as (-> & _)
    end. reflexivity.
  - fields. now apply obj_get_set_ne.
  - match goal with |- context [attempt_rejected ?i ?a ?o ?e ?s] =>
      destruct (attempt_rejected_fields i a o e s) as (-> & _)
    end. reflexivity.
Qed.

Lemma attempt_connected j d : _connected (attempt j d) = _connected d.
Proof.
  destruct (retries d !! j) as [op|] eqn:Ej;
    [|unfold attempt; now rewrite Ej].
  attempt_cases Ej.
  - match goal with |- context [attempt_rejected ?i ?a ?o ?e ?s] =>
      destruct (attempt_rejected_fields i a o e s) as (_ & _ & -> & _)
    end. reflexivity.
  - reflexivity.
  - match goal with |- context [attempt_rejected ?i ?a ?o ?e ?s] =>
      destruct (attempt_rejected_fields i a o e s) as (_ & _ & -> & _)
    end. reflexivity.
Qed.

Lemma attempt_sequenceN j d op :
  retries d !! j = Some op ->
  _currentSequenceN (attempt j d) = incr (_currentSequenceN d).
Proof.
  intros Ej. attempt_cases Ej.
  - match goal with |- context [attempt_rejected ?i ?a ?o ?e ?s] =>
      destruct (attempt_rejected_fields i a o e s) as (_ & -> & _)
    end. reflexivity.
  - reflexivity.
  - match goal with |- context [attempt_rejected ?i ?a ?o ?e ?s] =>
      destruct (attempt_rejected_fields i a o e s) as (_ & -> & _)
    end. reflexivity.
Qed.

End Attempts.

(** ** Requests that get no answer *)

Section Requests.

Context {lib : Libraries}.

(** [_send] on a connected client: the promise it returns is new, and so
    is its retry operation, whose first attempt has run. *)
Lemma _send_connected buf d :
  isConnected d = true ->
  _send buf d =
  (inr (length (promises d)),
   attempt (length (retries d))
     (with_retries
        (with_promises d
           (promises d ++ [{| pstate := Pending; on_settled := NoReaction |}]))
        (retries d ++ [{| op_buffer := buf; op_promise := length (promises d);
                          op_errors := []; op_timer := false |}]))).
Proof. intros H. unfold _send. now rewrite H. Qed.

(** What [_send] leaves alone: the promises and the retry operations there
    are, the connection, and every key of the table but the new one. *)
Lemma _send_frame buf d :
  let d' := snd (_send buf d) in
  (forall q, (q < length (promises d))%nat -> promises d' !! q = promises d !! q)
  /\ (forall j, (j < length (retries d))%nat -> retries d' !! j = retries d !! j)
  /\ (forall k, k <> incr (_currentSequenceN d) ->
        obj_get (_resolvers d') k = obj_get (_resolvers d) k)
  /\ (forall j op, retries d' !! j = Some op -> (length (retries d) <= j)%nat ->
        op_promise op = length (promises d)
        /\ (length (promises d) < length (promises d'))%nat)
  /\ (length (promises d) <= length (promises d'))%nat
  /\ _connected d' = _connected d.
Proof.
  destruct (isConnected d) eqn:Hc.
  - rewrite (_send_connected _ _ Hc). cbn [snd].
    set (d2 := with_retries _ _).
    assert (Hnew : retries d2 !! length (retries d)
                   = Some {| op_buffer := buf; op_promise := length (promises d);
                             op_errors := []; op_timer := false |}).
    { unfold d2. simpl. apply lookup_snoc_new. }
    split; [|split; [|split; [|split; [|split]]]].
    + intros q Hq. rewrite attempt_promises.
      * unfold d2. simpl. now apply lookup_app_l.
      * unfold d2. simpl. rewrite length_app. lia.
      * intros op Hop. rewrite Hnew in Hop. injection Hop as Hop. subst op.
        simpl. lia.
    + intros j Hj. rewrite attempt_retries_other by lia.
      unfold d2. simpl. now apply lookup_app_l.
    + intros k Hk. now rewrite attempt_resolvers.
    + intros j op Hop Hj.
      destruct (attempt_lengths (length (retries d)) d2)
        as [_ Hlen].
      assert (j = length (retries d)) as ->.
      { apply lookup_lt_Some in Hop. rewrite Hlen in Hop. unfold d2 in Hop.
        simpl in Hop. rewrite length_app in Hop. simpl in Hop. lia. }
      destruct (attempt_retries_same _ _ _ Hnew)
        as (op' & H1 & H2).
      rewrite H1 in Hop. injection Hop as Hop. subst op'. split; [exact H2|].
      destruct (attempt_lengths (length (retries d)) d2) as [Hp _].
      unfold d2 in Hp at 1. cbn [promises with_retries with_promises] in Hp.
      rewrite length_app in Hp. simpl in Hp. lia.
    + destruct (attempt_lengths (length (retries d)) d2)
        as [Hlen _].
      unfold d2 in Hlen at 1. simpl in Hlen. rewrite length_app in Hlen. lia.
    + now rewrite attempt_connected.
  - unfold _send. rewrite Hc. simpl.
    split; [|split; [|split; [|split; [|split]]]]; try reflexivity.
    intros j op Hop Hj. apply lookup_lt_Some in Hop. lia.
Qed.

Lemma swallowed packet d :
  commandByte packet = 9 \/ commandByte packet = 7 ->
  _packetHandler packet d = (None, d).
Proof.
  unfold _packetHandler. intros [->| ->]; reflexivity.
Qed.

Lemma waiting_step r i op0 ev d :
  op_timer op0 = false ->
  silent ev ->
  waiting r i op0 d -> waiting r i op0 (client_step ev d).
Proof.
  intros Ht Hs (Hp & Hi & Ho).
  assert (Hr : (r < length (promises d))%nat).
  { destruct Hp as [k Hp]. apply lookup_lt_is_Some. rewrite Hp. eauto. }
  assert (Hil : (i < length (retries d))%nat).
  { apply lookup_lt_is_Some. rewrite Hi. eauto. }
  destruct ev as [j| |packet]; simpl.
  - (* a retry timer *)
    unfold retry_timer.
    destruct (retries d !! j) as [op|] eqn:Ej; [|now repeat split].
    destruct (op_timer op) eqn:Et; [|now repeat split].
    assert (Hji : j <> i) by (intros ->; congruence).
    set (d1 := with_retries d _).
    assert (Hj1 : retries d1 !! j
                  = Some {| op_buffer := op_buffer op; op_promise := op_promise op;
                            op_errors := op_errors op; op_timer := false |}).
    { unfold d1. simpl. apply list_lookup_insert_eq.
      apply lookup_lt_is_Some. rewrite Ej. eauto. }
    repeat split.
    + rewrite attempt_promises; [exact Hp|exact Hr|].
      intros op' Hop'. rewrite Hj1 in Hop'. injection Hop' as Hop'. subst op'.
      simpl. exact (Ho j op Hji Ej).
    + rewrite attempt_retries_other by congruence.
      unfold d1. simpl. rewrite list_lookup_insert_ne by assumption. exact Hi.
    + intros j' op' Hj' Hop'. destruct (decide (j' = j)) as [->|Hne].
      * destruct (attempt_retries_same _ _ _ Hj1)
          as (op2 & H1 & H2).
        rewrite H1 in Hop'. injection Hop' as Hop'. subst op2.
        rewrite H2. simpl. exact (Ho j op Hji Ej).
      * rewrite attempt_retries_other in Hop' by assumption.
        unfold d1 in Hop'. simpl in Hop'.
        rewrite list_lookup_insert_ne in Hop' by congruence.
        exact (Ho j' op' Hj' Hop').
  - (* a heartbeat *)
    unfold _sendPing.
    match goal with |- context [_send ?b d] =>
      destruct (_send_frame b d) as (Fp & Fr & _ & Fn & _)
    end.
    repeat split.
    + rewrite Fp by exact Hr. exact Hp.
    + rewrite Fr by exact Hil. exact Hi.
    + intros j' op' Hj' Hop'.
      destruct (decide (j' < length (retries d))%nat) as [Hlt|Hge].
      * rewrite Fr in Hop' by exact Hlt. exact (Ho j' op' Hj' Hop').
      * destruct (Fn j' op' Hop') as [-> _]; lia.
  - (* a packet the handler swallows *)
    rewrite swallowed by exact Hs. now repeat split.
Qed.

Lemma waiting_run r i op0 evs d :
  op_timer op0 = false ->
  Forall silent evs ->
  waiting r i op0 d -> waiting r i op0 (client_run evs d).
Proof.
  intros Ht. revert d. induction evs as [|ev evs IH]; intros d Hs Hw; [exact Hw|].
  apply Forall_cons in Hs as [Hs1 Hs]. simpl. apply IH; [exact Hs|].
  now apply waiting_step.
Qed.

(** The state [_send] leaves when its first attempt is written. *)
Lemma _send_written buf d sock b :
  isConnected d = true ->
  client d = Some sock ->
  writeSequenceN buf (incr (_currentSequenceN d)) = inr b ->
  _send buf d =
  (inr (length (promises d)),
   {| device := device d; foundDevices := foundDevices d;
      _connected := _connected d;
      _responseTimeout := _responseTimeout d;
      _connectTimeout := _connectTimeout d;
      _pingPongPeriod := _pingPongPeriod d;
      _currentSequenceN := incr (_currentSequenceN d);
      _resolvers := obj_set (_resolvers d) (incr (_currentSequenceN d))
                      (S (length (promises d)));
      client := Some {| written := written sock ++ [b] |};
      emitted := emitted d;
      promises := promises d
                  ++ [{| pstate := Pending; on_settled := NoReaction |};
                      {| pstate := Pending;
                         on_settled := Attempt (length (promises d)) |}];
      retries := retries d
                 ++ [{| op_buffer := b; op_promise := length (promises d);
                        op_errors := []; op_timer := false |}];
     has_error_listener := has_error_listener d |}).
Proof.
  intros Hc Hs Hw. rewrite (_send_connected _ _ Hc). f_equal.
  destruct d as [dev fd conn rt ct pp seq res cl em ps rs el].
  cbn [client _currentSequenceN promises retries] in *. subst cl.
  unfold attempt, new_promise, with_retries, with_promises.
  cbn [retries promises]. rewrite lookup_snoc_new.
  cbn [op_buffer op_promise op_errors with_sequenceN with_promises
       _currentSequenceN fst snd promises retries device foundDevices
       _connected _responseTimeout _connectTimeout _pingPongPeriod _resolvers
       client emitted].
  rewrite Hw.
  cbn [with_retries with_client with_resolvers client written
       _currentSequenceN fst snd promises retries device foundDevices
       _connected _responseTimeout _connectTimeout _pingPongPeriod _resolvers
       emitted].
  rewrite insert_snoc_new, length_app, <- app_assoc. cbn [length app].
  replace (length ps + 1)%nat with (S (length ps)) by lia.
  reflexivity.
Qed.

(** C1: a request to a device that does not answer it.  [_send] writes the
    request once, under the next sequence number, and returns a pending
    promise.  Whatever follows among the timers of [pRetry], the heartbeat
    and the packets the handler swallows, that promise stays pending and the
    operation never makes a second attempt: a missing response never rejects
    an attempt, so the bounded retry is never entered and the call never
    fails. *)
Theorem unanswered_request_stalls (buf : buffer) (d : TuyaDevice)
    (sock : Socket) (b : buffer) (evs : list client_event) :
  isConnected d = true ->
  client d = Some sock ->
  writeSequenceN buf (incr (_currentSequenceN d)) = inr b ->
  store_wf d ->
  Forall silent evs ->
  let r := length (promises d) in
  let d' := client_run evs (snd (_send buf d)) in
  fst (_send buf d) = inr r
  /\ client (snd (_send buf d)) = Some {| written := written sock ++ [b] |}
  /\ state_of (promises d') r = Some Pending
  /\ retries d' !! length (retries d)
     = Some {| op_buffer := b; op_promise := r; op_errors := []; op_timer := false |}.
Proof.
  intros Hc Hs Hw Hwf Hev. cbv zeta.
  rewrite (_send_written _ _ _ _ Hc Hs Hw). cbn [fst snd].
  set (r := length (promises d)). set (d' := client_run evs _).
  split; [reflexivity|]. split; [reflexivity|].
  assert (Hwait : waiting r (length (retries d))
                    {| op_buffer := b; op_promise := r; op_errors := [];
                       op_timer := false |} d').
  { apply waiting_run; [reflexivity|exact Hev|].
    repeat split; cbn [promises retries].
    - exists NoReaction. unfold r. now apply list_lookup_middle.
    - apply lookup_snoc_new.
    - intros j op Hj Hop.
      assert (Hlt : (j < length (retries d))%nat).
      { apply lookup_lt_Some in Hop. rewrite length_app in Hop. simpl in Hop. lia. }
      rewrite lookup_app_l in Hop by exact Hlt.
      specialize (Hwf j op Hop). unfold r. lia. }
  destruct Hwait as ((k & Hp) & Hi & _).
  split; [|exact Hi]. unfold state_of. now rewrite Hp.
Qed.

End Requests.

(** ** The conditions on the state hold along a run *)

Section Invariants.

Context {lib : Libraries}.

Lemma incr_below n : n < 2 ^ 53 -> incr n = n + 1.
Proof. intros Hn. unfold incr. destruct (N.ltb_spec n (2 ^ 53)); lia. Qed.

Lemma _send_resolvers buf d k a :
  obj_get (_resolvers (snd (_send buf d))) k = Some a ->
  k = incr (_currentSequenceN d) \/ obj_get (_resolvers d) k = Some a.
Proof.
  intros Hk. destruct (N.eq_dec k (incr (_currentSequenceN d))) as [->|Hne];
    [now left|right].
  destruct (_send_frame buf d) as (_ & _ & Fk & _).
  now rewrite <- (Fk k Hne).
Qed.

(** A new device has both properties, and a request keeps them as long as
    the counter stays below [2^53]. *)
Lemma sequence_fresh_constructor o d : constructor o = inr d -> sequence_fresh d.
Proof.
  unfold constructor. destruct (negb _); [discriminate|].
  destruct (_ || _); [discriminate|]. intros Hd. injection Hd as <-.
  split; [reflexivity|]. intros k a Hk. discriminate Hk.
Qed.

Lemma sequence_fresh_send buf d :
  sequence_fresh d ->
  _currentSequenceN d + 1 < 2 ^ 53 ->
  sequence_fresh (snd (_send buf d)).
Proof.
  intros [Hlt Hkeys] Hnext.
  pose proof (incr_below _ Hlt) as Hincr.
  destruct (isConnected d) eqn:Hc.
  - assert (Hs : _currentSequenceN (snd (_send buf d)) = _currentSequenceN d + 1).
    { rewrite (_send_connected _ _ Hc). cbn [snd].
      erewrite attempt_sequenceN; [exact Hincr|]. apply lookup_snoc_new. }
    split; rewrite Hs; [exact Hnext|].
    intros k a Hk. destruct (_send_resolvers _ _ _ _ Hk) as [-> |Hold]; [lia|].
    specialize (Hkeys k a Hold). lia.
  - unfold _send. rewrite Hc. now split.
Qed.

Lemma obj_get_delete_Some {A} (o : jsobj A) n k a :
  obj_get (obj_delete o n) k = Some a -> obj_get o k = Some a.
Proof.
  destruct (N.eq_dec k n) as [->|Hne].
  - now rewrite obj_get_delete_same.
  - now rewrite obj_get_delete_ne.
Qed.

Lemma sequence_fresh_packet packet d :
  sequence_fresh d -> sequence_fresh (snd (_packetHandler packet d)).
Proof.
  intros [Hlt Hkeys]. unfold _packetHandler.
  destruct (commandByte packet =? 9); [now split|].
  destruct (commandByte packet =? 7); [now split|]. cbv zeta.
  assert (Hdel : forall ps n,
            sequence_fresh
              (with_resolvers
                 (with_promises (emit d (EvData (payload packet) (commandByte packet)
                                           (sequenceN packet))) ps)
                 (obj_delete (_resolvers d) n))).
  { intros ps n. split; [exact Hlt|]. intros k a Hk. cbn [_resolvers with_resolvers] in Hk.
    exact (Hkeys k a (obj_get_delete_Some _ _ _ _ Hk)). }
  cbn [_resolvers emit with_emitted with_promises].
  destruct (obj_get (_resolvers d) (sequenceN packet)); [apply Hdel|].
  destruct (sequenceN packet =? 0); [|now split].
  destruct (obj_keys (_resolvers d)) as [|k ks]; [now split|].
  destruct (obj_get (_resolvers d) k); [apply Hdel|now split].
Qed.

Lemma store_wf_constructor o d : constructor o = inr d -> store_wf d.
Proof.
  unfold constructor. destruct (negb _); [discriminate|].
  destruct (_ || _); [discriminate|]. intros Hd. injection Hd as <-.
  intros j op Hj. simpl in Hj. discriminate.
Qed.

Lemma store_wf_send buf d : store_wf d -> store_wf (snd (_send buf d)).
Proof.
  intros Hwf j op Hj.
  destruct (_send_frame buf d) as (_ & Fr & _ & Fn & Fl & _).
  destruct (decide (j < length (retries d))%nat) as [Hlt|Hge].
  - rewrite Fr in Hj by exact Hlt. specialize (Hwf j op Hj). lia.
  - destruct (Fn j op Hj) as [-> Hnew]; [lia|exact Hnew].
Qed.

End Invariants.

(** ** The value [get] returns *)

Lemma lookup_app_at {A} (l1 l2 : list A) (i j : nat) :
  j = (length l1 + i)%nat -> (l1 ++ l2) !! j = l2 !! i.
Proof. intros ->. apply lookup_app_plus. Qed.

Lemma insert_app_at {A} (l1 l2 : list A) (i j : nat) (x : A) :
  j = (length l1 + i)%nat -> <[j := x]> (l1 ++ l2) = l1 ++ <[i := x]> l2.
Proof. intros ->. apply insert_app_r. Qed.




Section Get.

Context {lib : Libraries}.

(** The state [get] leaves on a connected client whose request is written. *)
Lemma get_sent options d sock b :
  isConnected d = true ->
  client d = Some sock ->
  (forall buf, writeSequenceN buf (incr (_currentSequenceN d)) = inr (b buf)) ->
  let buf := encode {| enc_data := VObj [("gwId", gwID (device d));
                                         ("devId", id (device d))];
                       enc_encrypted := VUndefined; enc_commandByte := 10 |} in
  get options d =
  (length (promises d),
   {| device := device d; foundDevices := foundDevices d;
      _connected := _connected d;
      _responseTimeout := _responseTimeout d;
      _connectTimeout := _connectTimeout d;
      _pingPongPeriod := _pingPongPeriod d;
      _currentSequenceN := incr (_currentSequenceN d);
      _resolvers := obj_set (_resolvers d) (incr (_currentSequenceN d))
                      (S (S (length (promises d))));
      client := Some {| written := written sock ++ [b buf] |};
      emitted := emitted d;
      promises := promises d
                  ++ [{| pstate := Pending; on_settled := NoReaction |};
                      {| pstate := Pending;
                         on_settled := GetThen options (length (promises d)) |};
                      {| pstate := Pending;
                         on_settled := Attempt (S (length (promises d))) |}];
      retries := retries d
                 ++ [{| op_buffer := b buf; op_promise := S (length (promises d));
                        op_errors := []; op_timer := false |}];
     has_error_listener := has_error_listener d |}).
Proof.
  intros Hc Hs Hw buf. unfold buf, get, new_promise.
  set (d1 := with_promises d _).
  rewrite (_send_written _ d1 sock _ Hc Hs (Hw _)).
  destruct d as [dev fd conn rt ct pp seq res cl em ps rs el].
  unfold d1, with_promises.
  cbn [promises retries device foundDevices _connected _responseTimeout
       _connectTimeout _pingPongPeriod _resolvers client emitted
       _currentSequenceN].
  rewrite length_app. cbn [length].
  replace (length ps + 1)%nat with (S (length ps)) by lia.
  rewrite <- app_assoc. cbn [app].
  unfold attach. rewrite (lookup_app_at _ _ 1) by lia.
  cbn [lookup list_lookup pstate].
  rewrite (insert_app_at _ _ 1) by lia. cbn [insert list_insert].
  reflexivity.
Qed.


End Get.

(** ** Closed instances *)

Lemma unanswered_request_stalls_witness :
  let evs := [RetryTimer 0; HeartbeatTick; Inbound (Sample.pong 2);
              RetryTimer 0; RetryTimer 1; HeartbeatTick] in
  let sent := _send Sample.request
                Sample.connected in
  fst sent = inr 0%nat
  /\ state_of
       (promises (client_run
                    evs (snd sent))) 0
     = Some Pending.
Proof.
  pose proof (unanswered_request_stalls Sample.request Sample.connected
                {| written := [] |} [Byte.x01; Byte.x0a]
                [RetryTimer 0; HeartbeatTick; Inbound (Sample.pong 2);
                 RetryTimer 0; RetryTimer 1; HeartbeatTick]) as H.
  destruct H as (H1 & _ & H2 & _).
  - reflexivity.
  - reflexivity.
  - reflexivity.
  - intros j op Hj. destruct j; discriminate.
  - repeat constructor.
  - split; [exact H1|exact H2].
Defined.

(** The retry of [_send] is entered only when an attempt is rejected, which a
    failing [writeSequenceN] brings about: with [{retries: 5}] there are six
    attempts, each under a sequence number of its own, and the promise is
    rejected after the sixth.  A [TypeError], as from a missing socket, is
    not retried. *)
Example retry_gives_up_after_six_attempts :
  let sent := _send Sample.request
                Sample.exhausted in
  let after n := client_run
                   (repeat (RetryTimer 0) n) (snd sent) in
  state_of (promises (after 4%nat)) 0 = Some Pending
  /\ _currentSequenceN (after 4%nat) = 2 ^ 32 + 4
  /\ state_of (promises (after 5%nat)) 0 = Some (Rejected (JsError "out of range"))
  /\ _currentSequenceN (after 5%nat) = 2 ^ 32 + 5
  /\ after 6%nat = after 5%nat
  /\ client (after 5%nat) = Some {| written := [] |}
  /\ state_of
       (promises (snd (_send Sample.request
                         Sample.socketless))) 0
     = Some (Rejected (CannotReadProperty "write")).
Proof. vm_compute. repeat split; reflexivity. Qed.



(** ** Heartbeat traffic and the table of pending requests *)

Section Heartbeat.

Context {lib : Libraries}.

Lemma dispatched_emits packet d :
  dispatched packet ->
  emitted (snd (_packetHandler packet d))
  = emitted d ++ [EvData (payload packet) (commandByte packet) (sequenceN packet)].
Proof.
  intros Hd. rewrite _packetHandler_unfold by exact Hd. cbn zeta.
  destruct (obj_get _ _); [reflexivity|].
  destruct (sequenceN packet =? 0); [|reflexivity].
  destruct (obj_keys _) as [|k ks]; [reflexivity|].
  destruct (obj_get _ k); reflexivity.
Qed.

Lemma dispatched_resolves packet d a :
  dispatched packet ->
  obj_get (_resolvers d) (sequenceN packet) = Some a ->
  _packetHandler packet d =
  (None,
   with_resolvers
     (with_promises
        (emit d (EvData (payload packet) (commandByte packet) (sequenceN packet)))
        (call_resolver (promises d) a (payload packet)))
     (obj_delete (_resolvers d) (sequenceN packet))).
Proof.
  intros Hd Ha. rewrite _packetHandler_unfold by exact Hd. cbn zeta.
  simpl _resolvers. now rewrite Ha.
Qed.

End Heartbeat.

(** C3: heartbeat traffic does affect a pending request.  The handler
    swallows a pong, so the resolver that the ping registered through
    [_send] is never called for it and never removed: after ping and pong
    the table still holds the entry of the ping under 1, and the promise of
    the ping is still pending.  On a quiet connection [get] is sent under
    sequence number 1 and a reply with sequence number 0 fulfils it through
    the fallback.  After the ping and its pong the request is sent under 2,
    and the same reply is handed to the entry of the ping, the first key of
    the table: the promise of the ping is fulfilled with the status document
    and the request stays pending. *)
Theorem heartbeat_affects_pending_request :
  let get := get
               {| schema := VUndefined; dps := None |} in
  let ping := _sendPing in
  let status := VObj [("dps", VObj [("1", VBool true)])] in
  let reply := Sample.status 0 status in
  let quiet := get Sample.connected in
  let ponged := snd (_packetHandler (Sample.pong 1) (ping Sample.connected)) in
  let busy := get ponged in
  obj_keys (_resolvers (ping Sample.connected)) = [1]
  /\ ponged = ping Sample.connected
  /\ state_of (promises ponged) 0 = Some Pending
  /\ obj_keys (_resolvers (snd quiet)) = [1]
  /\ obj_keys (_resolvers (snd busy)) = [1; 2]
  /\ state_of (promises (snd quiet)) (fst quiet) = Some Pending
  /\ state_of (promises (snd busy)) (fst busy) = Some Pending
  /\ state_of (promises (snd (_packetHandler reply (snd quiet)))) (fst quiet)
     = Some (Fulfilled (VBool true))
  /\ state_of (promises (snd (_packetHandler reply (snd busy)))) (fst busy)
     = Some Pending
  /\ state_of (promises (snd (_packetHandler reply (snd busy)))) 0
     = Some (Fulfilled status).
Proof. vm_compute. repeat split; reflexivity. Qed.

(** ** Responses in any order *)

Lemma settle_at ps p s k :
  ps !! p = Some {| pstate := Pending; on_settled := k |} ->
  settle ps p s !! p = Some {| pstate := s; on_settled := k |}.
Proof.
  intros H. unfold settle. rewrite H. apply list_lookup_insert_eq.
  apply lookup_lt_is_Some. rewrite H. eauto.
Qed.

Lemma is_pending_true ps p k :
  ps !! p = Some {| pstate := Pending; on_settled := k |} -> is_pending ps p = true.
Proof. intros H. unfold is_pending. now rewrite H. Qed.

(** Calling the resolver of a request fulfils the promise of the attempt and
    the promise of [_send] with the payload, gives the promise of the caller
    the outcome of the callback, and touches no other promise. *)
Lemma call_resolver_chain ps a r k g v :
  ps !! a = Some {| pstate := Pending; on_settled := Attempt r |} ->
  ps !! r = Some {| pstate := Pending; on_settled := k |} ->
  reaction_target k = Some g ->
  ps !! g = Some {| pstate := Pending; on_settled := NoReaction |} ->
  a <> r -> g <> a -> g <> r ->
  let ps' := call_resolver ps a v in
  state_of ps' a = Some (Fulfilled v)
  /\ state_of ps' r = Some (Fulfilled v)
  /\ state_of ps' g = Some (reaction_result k v)
  /\ forall q, q <> a -> q <> r -> q <> g -> ps' !! q = ps !! q.
Proof.
  intros Ha Hr Hk Hg Har Hga Hgr. cbv zeta.
  unfold call_resolver. rewrite (is_pending_true _ _ _ Ha), Ha. cbn [fmap option_fmap option_map on_settled].
  set (ps1 := settle ps a (Fulfilled v)).
  assert (H1a : ps1 !! a = Some {| pstate := Fulfilled v; on_settled := Attempt r |})
    by now apply settle_at.
  assert (H1r : ps1 !! r = Some {| pstate := Pending; on_settled := k |}).
  { unfold ps1. rewrite settle_other by congruence. exact Hr. }
  assert (H1g : ps1 !! g = Some {| pstate := Pending; on_settled := NoReaction |}).
  { unfold ps1. rewrite settle_other by congruence. exact Hg. }
  unfold fulfil_send. rewrite (is_pending_true _ _ _ H1r), H1r.
  cbn [fmap option_fmap option_map on_settled].
  set (ps2 := settle ps1 r (Fulfilled v)).
  assert (H2a : ps2 !! a = Some {| pstate := Fulfilled v; on_settled := Attempt r |}).
  { unfold ps2. rewrite settle_other by congruence. exact H1a. }
  assert (H2r : ps2 !! r = Some {| pstate := Fulfilled v; on_settled := k |})
    by now apply settle_at.
  assert (H2g : ps2 !! g = Some {| pstate := Pending; on_settled := NoReaction |}).
  { unfold ps2. rewrite settle_other by congruence. exact H1g. }
  assert (H2q : forall q, q <> a -> q <> r -> ps2 !! q = ps !! q).
  { intros q Hqa Hqr. unfold ps2, ps1. now rewrite !settle_other by congruence. }
  assert (Hfin : forall s,
            state_of (settle ps2 g s) a = Some (Fulfilled v)
            /\ state_of (settle ps2 g s) r = Some (Fulfilled v)
            /\ state_of (settle ps2 g s) g = Some s
            /\ forall q, q <> a -> q <> r -> q <> g -> settle ps2 g s !! q = ps !! q).
  { intros s. unfold state_of. rewrite !settle_other by congruence.
    rewrite H2a, H2r, (settle_at _ _ _ _ H2g). repeat split.
    intros q Hqa Hqr Hqg. rewrite settle_other by congruence. now apply H2q. }
  destruct k as [|r'|options g'|g']; try discriminate; simpl in Hk;
    injection Hk as ->; cbn [reaction_result].
  - destruct (get_callback options v) as [e|x]; [|apply Hfin].
    unfold state_of. rewrite H2a, H2r, H2g. repeat split.
    intros q Hqa Hqr _. now apply H2q.
  - apply Hfin.
Qed.

Section Flights.

Context {lib : Libraries}.

(** The response to a flight settles it, without throwing, and leaves every
    promise outside the flight and every other entry of the table alone. *)
Lemma response_lands packet d fl :
  dispatched packet ->
  sequenceN packet = fl_seq fl ->
  in_flight d fl ->
  let d' := snd (_packetHandler packet d) in
  fst (_packetHandler packet d) = None
  /\ caller_state d' fl = Some (reaction_result (fl_callback fl) (payload packet))
  /\ (forall q, q ∉ fl_cells fl -> promises d' !! q = promises d !! q)
  /\ (forall k, k <> fl_seq fl -> obj_get (_resolvers d') k = obj_get (_resolvers d) k)
  /\ obj_get (_resolvers d') (fl_seq fl) = None.
Proof.
  intros Hd Hs (Ht & Ha & Hr & Har & g & Hk & Hg & Hga & Hgr). cbv zeta.
  rewrite <- Hs in Ht. rewrite (dispatched_resolves _ _ _ Hd Ht). cbn [fst snd].
  cbn [promises _resolvers with_resolvers with_promises].
  destruct (call_resolver_chain _ _ _ _ _ (payload packet) Ha Hr Hk Hg Har Hga Hgr)
    as (_ & _ & Hres & Hother).
  split; [reflexivity|]. split; [|split; [|split]].
  - unfold caller_state. rewrite Hk. exact Hres.
  - intros q Hq. unfold fl_cells in Hq. rewrite Hk in Hq.
    apply Hother; intros ->; apply Hq; set_solver.
  - intros k Hne. apply obj_get_delete_ne. congruence.
  - rewrite <- Hs. apply obj_get_delete_same.
Qed.

Lemma in_flight_frame d d' fl :
  in_flight d fl ->
  (forall q, q ∈ fl_cells fl -> promises d' !! q = promises d !! q) ->
  obj_get (_resolvers d') (fl_seq fl) = obj_get (_resolvers d) (fl_seq fl) ->
  in_flight d' fl.
Proof.
  intros (Ht & Ha & Hr & Har & g & Hk & Hg & Hga & Hgr) Hp Hkeys.
  assert (Hcells : fl_cells fl = [fl_attempt fl; fl_send fl; g]).
  { unfold fl_cells. now rewrite Hk. }
  unfold in_flight. rewrite Hkeys, !Hp by (rewrite Hcells; set_solver).
  repeat split; try assumption. exists g. rewrite Hp by (rewrite Hcells; set_solver).
  repeat split; assumption.
Qed.

Lemma caller_state_frame d d' fl :
  (forall q, q ∈ fl_cells fl -> promises d' !! q = promises d !! q) ->
  caller_state d' fl = caller_state d fl.
Proof.
  intros Hp. unfold caller_state, fl_cells in *.
  destruct (reaction_target (fl_callback fl)) as [g|]; [|reflexivity].
  unfold state_of. rewrite Hp by set_solver. reflexivity.
Qed.

Lemma responses_land commandByte pay (l : list Flight) d :
  commandByte <> 9 -> commandByte <> 7 ->
  NoDup l ->
  (forall fl1 fl2, fl1 ∈ l -> fl2 ∈ l -> fl1 <> fl2 -> apart fl1 fl2) ->
  (forall fl, fl ∈ l -> in_flight d fl) ->
  exists d',
    handle_packets (map (response commandByte pay) l) d = (None, d')
    /\ (forall fl, fl ∈ l ->
          caller_state d' fl = Some (reaction_result (fl_callback fl) (pay fl)))
    /\ (forall q, (forall fl, fl ∈ l -> q ∉ fl_cells fl) ->
          promises d' !! q = promises d !! q)
    /\ (forall k, (forall fl, fl ∈ l -> k <> fl_seq fl) ->
          obj_get (_resolvers d') k = obj_get (_resolvers d) k)
    /\ (forall fl, fl ∈ l -> obj_get (_resolvers d') (fl_seq fl) = None).
Proof.
  intros H9 H7. revert d.
  induction l as [|fl l IH]; intros d Hnd Hap Hin.
  - exists d. simpl. repeat split; intros fl Hfl; set_solver.
  - apply NoDup_cons in Hnd as [Hfl Hnd].
    assert (Hd : dispatched (response commandByte pay fl)) by (split; assumption).
    destruct (response_lands (response commandByte pay fl) d fl Hd eq_refl)
      as (Hnone & Hres & Hother & Hkeys & Hgone1); [apply Hin; set_solver|].
    cbn [map handle_packets].
    destruct (_packetHandler (response commandByte pay fl) d) as [thrown d1] eqn:E.
    cbn [fst snd] in *. subst thrown. cbn [response payload] in Hres.
    assert (Hsep : forall fl', fl' ∈ l -> apart fl fl').
    { intros fl' Hfl'. apply Hap; [set_solver|set_solver|]. intros ->. contradiction. }
    destruct (IH d1 Hnd) as (d' & Hrun & Hall & Hrest & Hkrest & Hgone).
    { intros fl1 fl2 H1 H2. apply Hap; set_solver. }
    { intros fl' Hfl'. apply (in_flight_frame d); [apply Hin; set_solver| |].
      - intros q Hq. apply Hother. intros Hq'.
        destruct (Hsep fl' Hfl') as [_ Hdis]. exact (Hdis q Hq' Hq).
      - apply Hkeys. destruct (Hsep fl' Hfl') as [Hne _]. congruence. }
    exists d'. split; [exact Hrun|]. split; [|split; [|split]]; cycle 3.
    { intros fl' Hfl'. apply elem_of_cons in Hfl' as [->|Hfl']; [|now apply Hgone].
      rewrite Hkrest; [exact Hgone1|].
      intros fl' Hfl'. destruct (Hsep fl' Hfl') as [Hne _]. exact Hne. }
    + intros fl' Hfl'. apply elem_of_cons in Hfl' as [->|Hfl']; [|now apply Hall].
      rewrite <- Hres. apply caller_state_frame. intros q Hq.
      apply Hrest. intros fl' Hfl' Hq'.
      destruct (Hsep fl' Hfl') as [_ Hdis]. exact (Hdis q Hq Hq').
    + intros q Hq. rewrite Hrest by (intros fl' Hfl'; apply Hq; set_solver).
      apply Hother. apply Hq. set_solver.
    + intros k Hk. rewrite Hkrest by (intros fl' Hfl'; apply Hk; set_solver).
      apply Hkeys. apply Hk. set_solver.
Qed.

(** X1: Requests in flight with distinct sequence numbers, answered in any
    order within one buffer or several: every response reaches the caller
    of its own request with its own payload, the handler never throws, and
    no promise outside these requests changes. *)
Theorem responses_in_any_order (commandByte : N) (pay : Flight -> value)
    (flights order : list Flight) (d : TuyaDevice) :
  commandByte <> 9 -> commandByte <> 7 ->
  NoDup flights ->
  (forall fl1 fl2, fl1 ∈ flights -> fl2 ∈ flights -> fl1 <> fl2 -> apart fl1 fl2) ->
  (forall fl, fl ∈ flights -> in_flight d fl) ->
  order ≡ₚ flights ->
  exists d',
    handle_packets (map (response commandByte pay) order) d = (None, d')
    /\ (forall fl, fl ∈ flights ->
          caller_state d' fl = Some (reaction_result (fl_callback fl) (pay fl))
          /\ obj_get (_resolvers d') (fl_seq fl) = None)
    /\ (forall q, (forall fl, fl ∈ flights -> q ∉ fl_cells fl) ->
          promises d' !! q = promises d !! q).
Proof.
  intros H9 H7 Hnd Hap Hin Hperm.
  destruct (responses_land commandByte pay order d H9 H7)
    as (d' & Hrun & Hall & Hrest & _ & Hgone).
  - now rewrite Hperm.
  - intros fl1 fl2 H1 H2. apply Hap; now rewrite <- Hperm.
  - intros fl Hfl. apply Hin. now rewrite <- Hperm.
  - exists d'. split; [exact Hrun|]. split.
    + intros fl Hfl. split; [apply Hall; now rewrite Hperm|].
      apply Hgone. now rewrite Hperm.
    + intros q Hq. apply Hrest. intros fl Hfl. apply Hq. now rewrite <- Hperm.
Qed.

End Flights.

(** ** Requests take off *)

Section TakeOff.

Context {lib : Libraries}.

(** The state [set] leaves on a connected client whose request is written. *)
Lemma set_sent o now d sock b :
  isConnected d = true ->
  client d = Some sock ->
  (forall buf, writeSequenceN buf (incr (_currentSequenceN d)) = inr (b buf)) ->
  no_entries o = false ->
  let dpsv :=
    if strict_eq (default VUndefined (multiple o)) (VBool true)
    then default VUndefined (data o)
    else match set_dps o with
         | None => VObj [("1", default VUndefined (set_set o))]
         | Some k => VObj [(dps_name k, default VUndefined (set_set o))]
         end in
  let buf := encode {| enc_data := VObj [("devId", id (device d));
                                         ("gwId", gwID (device d));
                                         ("uid", VStr ""); ("t", now);
                                         ("dps", dpsv)];
                       enc_encrypted := VBool true; enc_commandByte := 7 |} in
  set (Some o) now d =
  (inr (length (promises d)),
   {| device := device d; foundDevices := foundDevices d;
      _connected := _connected d;
      _responseTimeout := _responseTimeout d;
      _connectTimeout := _connectTimeout d;
      _pingPongPeriod := _pingPongPeriod d;
      _currentSequenceN := incr (_currentSequenceN d);
      _resolvers := obj_set (_resolvers d) (incr (_currentSequenceN d))
                      (S (S (length (promises d))));
      client := Some {| written := written sock ++ [b buf] |};
      emitted := emitted d;
      promises := promises d
                  ++ [{| pstate := Pending; on_settled := NoReaction |};
                      {| pstate := Pending;
                         on_settled := SetThen (length (promises d)) |};
                      {| pstate := Pending;
                         on_settled := Attempt (S (length (promises d))) |}];
      retries := retries d
                 ++ [{| op_buffer := b buf; op_promise := S (length (promises d));
                        op_errors := []; op_timer := false |}];
     has_error_listener := has_error_listener d |}).
Proof.
  intros Hc Hs Hw Hne dpsv buf. unfold set. rewrite Hne. fold dpsv. fold buf.
  unfold new_promise.
  set (d1 := with_promises d _).
  rewrite (_send_written _ d1 sock _ Hc Hs (Hw _)).
  destruct d as [dev fd conn rt ct pp seq res cl em ps rs el].
  unfold d1, with_promises.
  cbn [promises retries device foundDevices _connected _responseTimeout
       _connectTimeout _pingPongPeriod _resolvers client emitted
       _currentSequenceN].
  rewrite length_app. cbn [length].
  replace (length ps + 1)%nat with (S (length ps)) by lia.
  rewrite <- app_assoc. cbn [app].
  unfold attach. rewrite (lookup_app_at _ _ 1) by lia.
  cbn [lookup list_lookup pstate].
  rewrite (insert_app_at _ _ 1) by lia. cbn [insert list_insert].
  reflexivity.
Qed.

(** A flight that just took off: its promises are the three newest of the
    store and its key is the new sequence number. *)
Lemma new_flight_in_flight (ps : list promise) (o : jsobj nat) (n : N)
    (k : reaction) (d' : TuyaDevice) :
  reaction_target k = Some (length ps) ->
  promises d' = ps ++ [{| pstate := Pending; on_settled := NoReaction |};
                       {| pstate := Pending; on_settled := k |};
                       {| pstate := Pending; on_settled := Attempt (S (length ps)) |}] ->
  _resolvers d' = obj_set o n (S (S (length ps))) ->
  in_flight d' {| fl_seq := n; fl_attempt := S (S (length ps));
                  fl_send := S (length ps); fl_callback := k |}.
Proof.
  intros Hk Hp Hr. unfold in_flight. cbn [fl_seq fl_attempt fl_send fl_callback].
  rewrite Hp, Hr, obj_get_set_eq.
  rewrite (lookup_app_at _ _ 2), (lookup_app_at _ _ 1) by lia.
  repeat split; try lia. exists (length ps).
  rewrite (lookup_app_at _ _ 0) by lia. repeat split; try lia. exact Hk.
Qed.

Lemma old_flight_in_flight (d d' : TuyaDevice) (new : list promise) (n : N)
    (a : nat) (fl : Flight) :
  in_flight d fl ->
  promises d' = promises d ++ new ->
  _resolvers d' = obj_set (_resolvers d) n a ->
  fl_seq fl <> n ->
  in_flight d' fl
  /\ forall q, q ∈ fl_cells fl -> (q < length (promises d))%nat.
Proof.
  intros Hfl Hp Hr Hne.
  assert (Hlt : forall q, q ∈ fl_cells fl -> (q < length (promises d))%nat).
  { destruct Hfl as (_ & Ha & Hs & _ & g & Hk & Hg & _).
    unfold fl_cells. rewrite Hk. intros q Hq.
    apply lookup_lt_Some in Ha, Hs, Hg.
    repeat (apply elem_of_cons in Hq as [->|Hq]; [assumption|]).
    now apply elem_of_nil in Hq. }
  split; [|exact Hlt].
  apply (in_flight_frame d); [exact Hfl| |].
  - intros q Hq. rewrite Hp. apply lookup_app_l. now apply Hlt.
  - rewrite Hr. now apply obj_get_set_ne.
Qed.

(** X2: [get] on a connected client puts one more request in flight, under the
    next sequence number and with three new promises, and disturbs none of
    the requests that are in flight already. *)
Theorem get_takes_off (options : get_options) (d : TuyaDevice) (sock : Socket)
    (b : buffer -> buffer) :
  isConnected d = true ->
  client d = Some sock ->
  (forall buf, writeSequenceN buf (incr (_currentSequenceN d)) = inr (b buf)) ->
  sequence_fresh d ->
  let g := length (promises d) in
  let fl := {| fl_seq := _currentSequenceN d + 1; fl_attempt := S (S g);
               fl_send := S g; fl_callback := GetThen options g |} in
  fst (get options d) = g
  /\ in_flight (snd (get options d)) fl
  /\ caller_state (snd (get options d)) fl = Some Pending
  /\ _currentSequenceN (snd (get options d)) = _currentSequenceN d + 1
  /\ forall fl', in_flight d fl' ->
       in_flight (snd (get options d)) fl' /\ apart fl' fl.
Proof.
  intros Hc Hs Hw [Hlt Hkeys]. cbv zeta.
  rewrite (get_sent options d sock b Hc Hs Hw). cbn [fst snd].
  pose proof (incr_below _ Hlt) as Hincr. rewrite Hincr.
  split; [reflexivity|]. split; [|split; [|split]].
  - now apply (new_flight_in_flight (promises d) (_resolvers d)).
  - unfold caller_state. cbn [fl_callback reaction_target promises].
    unfold state_of. now rewrite (lookup_app_at _ _ 0) by lia.
  - reflexivity.
  - intros fl' Hfl'.
    assert (Hseq : fl_seq fl' <> _currentSequenceN d + 1).
    { destruct Hfl' as (Ht & _). specialize (Hkeys _ _ Ht). lia. }
    match goal with |- in_flight ?d' _ /\ _ =>
      destruct (old_flight_in_flight d d' _ _ _ fl' Hfl' eq_refl eq_refl Hseq)
        as [Hin Hold]
    end.
    split; [exact Hin|]. split; [exact Hseq|].
    intros q Hq Hq'. specialize (Hold q Hq).
    unfold fl_cells in Hq'. cbn [fl_callback reaction_target fl_attempt fl_send] in Hq'.
    repeat (apply elem_of_cons in Hq' as [->|Hq']; [lia|]).
    now apply elem_of_nil in Hq'.
Qed.

(** X3: [set], called with options on a connected client, likewise: it writes
    the encrypted command 7 with the document of lines 179-185 and puts one
    request in flight, whose caller gets the raw payload of the response. *)
Theorem set_takes_off (o : set_options) (now : value) (d : TuyaDevice)
    (sock : Socket) (b : buffer -> buffer) :
  isConnected d = true ->
  client d = Some sock ->
  (forall buf, writeSequenceN buf (incr (_currentSequenceN d)) = inr (b buf)) ->
  sequence_fresh d ->
  no_entries o = false ->
  let g := length (promises d) in
  let fl := {| fl_seq := _currentSequenceN d + 1; fl_attempt := S (S g);
               fl_send := S g; fl_callback := SetThen g |} in
  let dpsv :=
    if strict_eq (default VUndefined (multiple o)) (VBool true)
    then default VUndefined (data o)
    else match set_dps o with
         | None => VObj [("1", default VUndefined (set_set o))]
         | Some k => VObj [(dps_name k, default VUndefined (set_set o))]
         end in
  fst (set (Some o) now d) = inr g
  /\ client (snd (set (Some o) now d))
     = Some {| written :=
                 written sock
                 ++ [b (encode {| enc_data := VObj [("devId", id (device d));
                                                    ("gwId", gwID (device d));
                                                    ("uid", VStr ""); ("t", now);
                                                    ("dps", dpsv)];
                                  enc_encrypted := VBool true;
                                  enc_commandByte := 7 |})] |}
  /\ in_flight (snd (set (Some o) now d)) fl
  /\ (forall v, reaction_result (fl_callback fl) v = Fulfilled v)
  /\ forall fl', in_flight d fl' ->
       in_flight (snd (set (Some o) now d)) fl' /\ apart fl' fl.
Proof.
  intros Hc Hs Hw [Hlt Hkeys] Hne. cbv zeta.
  rewrite (set_sent o now d sock b Hc Hs Hw Hne). cbn [fst snd client].
  pose proof (incr_below _ Hlt) as Hincr. rewrite Hincr.
  split; [reflexivity|]. split; [reflexivity|]. split; [|split].
  - now apply (new_flight_in_flight (promises d) (_resolvers d)).
  - reflexivity.
  - intros fl' Hfl'.
    assert (Hseq : fl_seq fl' <> _currentSequenceN d + 1).
    { destruct Hfl' as (Ht & _). specialize (Hkeys _ _ Ht). lia. }
    match goal with |- in_flight ?d' _ /\ _ =>
      destruct (old_flight_in_flight d d' _ _ _ fl' Hfl' eq_refl eq_refl Hseq)
        as [Hin Hold]
    end.
    split; [exact Hin|]. split; [exact Hseq|].
    intros q Hq Hq'. specialize (Hold q Hq).
    unfold fl_cells in Hq'. cbn [fl_callback reaction_target fl_attempt fl_send] in Hq'.
    repeat (apply elem_of_cons in Hq' as [->|Hq']; [lia|]).
    now apply elem_of_nil in Hq'.
Qed.

(** X4: The acknowledgement of a [set] is a packet with command 7, which the
    handler swallows: whatever sequence number and payload it carries, the
    request stays in flight and the promise of [set] stays pending. *)
Theorem set_acknowledgement_is_swallowed (o : set_options) (now : value)
    (d : TuyaDevice) (sock : Socket) (b : buffer -> buffer) (ack : Packet) :
  isConnected d = true ->
  client d = Some sock ->
  (forall buf, writeSequenceN buf (incr (_currentSequenceN d)) = inr (b buf)) ->
  no_entries o = false ->
  commandByte ack = 7 ->
  let d1 := snd (set (Some o) now d) in
  let d2 := snd (_packetHandler ack d1) in
  fst (set (Some o) now d) = inr (length (promises d))
  /\ d2 = d1
  /\ state_of (promises d2) (length (promises d)) = Some Pending
  /\ obj_get (_resolvers d2) (incr (_currentSequenceN d))
     = Some (S (S (length (promises d)))).
Proof.
  intros Hc Hs Hw Hne Hack. cbv zeta.
  rewrite swallowed by now right.
  rewrite (set_sent o now d sock b Hc Hs Hw Hne). cbn [fst snd promises _resolvers].
  split; [reflexivity|]. split; [reflexivity|]. split.
  - unfold state_of. now rewrite (lookup_app_at _ _ 0) by lia.
  - apply obj_get_set_eq.
Qed.

End TakeOff.

(** ** The frames of one buffer *)

Section Frames.

Context {lib : Libraries}.

Lemma dispatchedb_true packet : dispatchedb packet = true <-> dispatched packet.
Proof.
  unfold dispatchedb, dispatched.
  rewrite andb_true_iff, !negb_true_iff, !N.eqb_neq. reflexivity.
Qed.

(** Whatever the handler does with a packet, it emits the data notification
    if and only if it does not swallow the packet. *)
Lemma _packetHandler_emitted packet d :
  emitted (snd (_packetHandler packet d))
  = emitted d ++ (if dispatchedb packet then [data_event packet] else []).
Proof.
  destruct (dispatchedb packet) eqn:E.
  - apply dispatched_emits. now apply dispatchedb_true.
  - rewrite swallowed; [cbn [snd]; now rewrite app_nil_r|].
    unfold dispatchedb in E. apply andb_false_iff in E as [E|E];
      apply negb_false_iff, N.eqb_eq in E; auto.
Qed.

Lemma handle_packets_app l1 l2 d :
  handle_packets (l1 ++ l2) d =
  match handle_packets l1 d with
  | (None, d1) => handle_packets l2 d1
  | thrown => thrown
  end.
Proof.
  revert d. induction l1 as [|p l1 IH]; intros d; [reflexivity|].
  cbn [app handle_packets].
  destruct (_packetHandler p d) as [[e|] d1]; [reflexivity|apply IH].
Qed.

Lemma handle_packets_emitted packets d d' :
  handle_packets packets d = (None, d') ->
  emitted d' = emitted d ++ map data_event (List.filter dispatchedb packets).
Proof.
  revert d. induction packets as [|p l IH]; intros d H.
  - injection H as <-. cbn. now rewrite app_nil_r.
  - cbn [handle_packets] in H.
    pose proof (_packetHandler_emitted p d) as Hp.
    destruct (_packetHandler p d) as [[e|] d1]; [discriminate|].
    cbn [snd] in Hp. rewrite (IH _ H), Hp, <- app_assoc. f_equal.
    cbn [List.filter]. now destruct (dispatchedb p).
Qed.

(** X5: The ['data'] listener.  A buffer the parser rejects yields one error
    notification and nothing else when a listener for ['error'] is attached
    to the device; when none is, [emit] throws the error of the parser, the
    listener ends with it and the object is as before.  Otherwise the frames
    are handled in their order, and the frames that are not swallowed are
    notified in that order; a frame on which the handler throws ends the
    listener, so that the frames behind it in the buffer are neither
    notified nor dispatched. *)
Theorem frames_in_order (bytes : buffer) (d : TuyaDevice) :
  (forall e, parse bytes = inl e ->
     (has_error_listener d = true ->
      on_data bytes d = (None, with_emitted d (emitted d ++ [EvError e])))
     /\ (has_error_listener d = false -> on_data bytes d = (Some e, d)))
  /\ (forall packets d',
        parse bytes = inr packets ->
        on_data bytes d = (None, d') ->
        emitted d' = emitted d ++ map data_event (List.filter dispatchedb packets))
  /\ (forall pre p post d1 e d2,
        parse bytes = inr (pre ++ p :: post) ->
        handle_packets pre d = (None, d1) ->
        _packetHandler p d1 = (Some e, d2) ->
        on_data bytes d = (Some e, d2)
        /\ emitted d2
           = emitted d ++ map data_event (List.filter dispatchedb (pre ++ [p]))).
Proof.
  split; [|split].
  - intros e He. unfold on_data, emit_error. rewrite He.
    split; intros ->; reflexivity.
  - intros packets d' Hp H. unfold on_data in H. rewrite Hp in H.
    now apply handle_packets_emitted.
  - intros pre p post d1 e d2 Hp Hpre Hthrow. unfold on_data. rewrite Hp.
    rewrite handle_packets_app, Hpre. cbn [handle_packets]. rewrite Hthrow.
    split; [reflexivity|].
    rewrite List.filter_app, map_app, app_assoc.
    rewrite <- (handle_packets_emitted _ _ _ Hpre).
    pose proof (_packetHandler_emitted p d1) as He. rewrite Hthrow in He.
    cbn [snd] in He. rewrite He. f_equal.
    cbn [List.filter]. now destruct (dispatchedb p).
Qed.

End Frames.

(** ** The order of the keys of the table *)

Section Keys.

Context {A : Type}.
Implicit Types (o : jsobj A) (k n lo : N) (a : A).

Lemma ascending_from_above lo ks k :
  ascending_from lo ks -> k ∈ ks -> lo < k.
Proof.
  revert lo. induction ks as [|k' ks IH]; intros lo Hs Hk.
  - now apply elem_of_nil in Hk.
  - destruct Hs as [Hlo Hs]. apply elem_of_cons in Hk as [->|Hk]; [exact Hlo|].
    specialize (IH k' Hs Hk). lia.
Qed.

Lemma ascending_from_weaken lo lo' ks :
  lo' <= lo -> ascending_from lo ks -> ascending_from lo' ks.
Proof. destruct ks as [|k ks]; [easy|]. intros Hle [Hlo Hs]. split; [lia|exact Hs]. Qed.

Lemma obj_get_keys o k a : obj_get o k = Some a -> k ∈ obj_keys o.
Proof.
  induction o as [|[k' a'] o IH]; simpl; [discriminate|].
  destruct (N.eqb_spec k k') as [->|Hne]; intros H.
  - apply list_elem_of_here.
  - apply list_elem_of_further. now apply IH.
Qed.

Lemma obj_keys_get o k : k ∈ obj_keys o -> exists a, obj_get o k = Some a.
Proof.
  induction o as [|[k' a'] o IH]; simpl; intros H.
  - now apply elem_of_nil in H.
  - destruct (N.eqb_spec k k') as [->|Hne]; [eauto|].
    apply elem_of_cons in H as [->|H]; [congruence|now apply IH].
Qed.

(** A key above all the keys there are becomes the last one, whether it is
    an array index or not. *)
Lemma obj_set_above o n a :
  (forall k, k ∈ obj_keys o -> k < n) ->
  obj_set o n a = o ++ [(n, a)].
Proof.
  intros Hlt. unfold obj_set.
  destruct (obj_get o n) as [a'|] eqn:E.
  { apply obj_get_keys in E. specialize (Hlt n E). lia. }
  induction o as [|[k' a'] o IH]; [reflexivity|].
  cbn [obj_add app].
  assert (Hk' : k' < n) by (apply Hlt; apply list_elem_of_here).
  assert (Hc : is_array_index n && (negb (is_array_index k') || (n <? k')) = false).
  { unfold is_array_index.
    destruct (N.ltb_spec n (2 ^ 32 - 1)); [|reflexivity].
    destruct (N.ltb_spec k' (2 ^ 32 - 1)); [|lia].
    destruct (N.ltb_spec n k'); [lia|reflexivity]. }
  rewrite Hc. f_equal. apply IH.
  - intros k Hk. apply Hlt. now apply list_elem_of_further.
  - simpl in E. destruct (N.eqb_spec n k'); [lia|exact E].
Qed.

Lemma ascending_from_snoc lo ks n :
  ascending_from lo ks -> lo < n -> (forall k, k ∈ ks -> k < n) ->
  ascending_from lo (ks ++ [n]).
Proof.
  revert lo. induction ks as [|k ks IH]; intros lo Hs Hlo Hlt.
  - now split.
  - destruct Hs as [Hk Hs]. split; [exact Hk|]. apply IH.
    + exact Hs.
    + apply Hlt. apply list_elem_of_here.
    + intros k' Hk'. apply Hlt. now apply list_elem_of_further.
Qed.

Lemma obj_keys_delete o n k : k ∈ obj_keys (obj_delete o n) -> k ∈ obj_keys o.
Proof.
  induction o as [|[k' a'] o IH]; simpl; [easy|].
  destruct (n =? k'); simpl; intros H.
  - apply list_elem_of_further. now apply IH.
  - apply elem_of_cons in H as [->|H]; [apply list_elem_of_here|].
    apply list_elem_of_further. now apply IH.
Qed.

Lemma ascending_from_delete lo o n :
  ascending_from lo (obj_keys o) -> ascending_from lo (obj_keys (obj_delete o n)).
Proof.
  revert lo. induction o as [|[k' a'] o IH]; intros lo Hs; [exact Hs|].
  cbn [obj_keys map fst] in Hs. destruct Hs as [Hlo Hs]. simpl.
  destruct (n =? k'); simpl.
  - apply (ascending_from_weaken k'); [lia|]. now apply IH.
  - split; [exact Hlo|]. now apply IH.
Qed.

End Keys.

Section KeysOfTheTable.

Context {lib : Libraries}.

(** An attempt either leaves the table or adds the new sequence number. *)
Lemma attempt_table j d :
  _resolvers (attempt j d) = _resolvers d
  \/ exists a, _resolvers (attempt j d)
               = obj_set (_resolvers d) (incr (_currentSequenceN d)) a.
Proof.
  destruct (retries d !! j) as [op|] eqn:Ej;
    [|left; unfold attempt; now rewrite Ej].
  rewrite (attempt_unfold _ _ _ Ej). cbv zeta.
  destruct (writeSequenceN _ _) as [e|b]; [|destruct (client d) as [sock|]].
  - left. match goal with |- context [attempt_rejected ?i ?a ?o ?e ?s] =>
      destruct (attempt_rejected_fields i a o e s) as (-> & _)
    end. reflexivity.
  - right. eexists. reflexivity.
  - left. match goal with |- context [attempt_rejected ?i ?a ?o ?e ?s] =>
      destruct (attempt_rejected_fields i a o e s) as (-> & _)
    end. reflexivity.
Qed.

Lemma attempt_counter j d :
  _currentSequenceN (attempt j d) = _currentSequenceN d
  /\ _resolvers (attempt j d) = _resolvers d
  \/ _currentSequenceN (attempt j d) = incr (_currentSequenceN d).
Proof.
  destruct (retries d !! j) as [op|] eqn:Ej.
  - right. now apply (attempt_sequenceN j d op).
  - left. unfold attempt. now rewrite Ej.
Qed.

Lemma table_ok_attempt j d :
  sequence_fresh d -> keys_ascending d ->
  _currentSequenceN d + 1 < 2 ^ 53 ->
  sequence_fresh (attempt j d) /\ keys_ascending (attempt j d)
  /\ _currentSequenceN (attempt j d) <= _currentSequenceN d + 1.
Proof.
  intros [Hlt Hkeys] Hasc Hnext.
  pose proof (incr_below _ Hlt) as Hincr.
  assert (Hbelow : forall k, k ∈ obj_keys (_resolvers d) -> k < incr (_currentSequenceN d)).
  { intros k Hk. destruct (obj_keys_get _ _ Hk) as [a Ha].
    specialize (Hkeys k a Ha). lia. }
  destruct (attempt_counter j d) as [[Hs Ht]|Hs].
  - unfold sequence_fresh, keys_ascending. rewrite Hs, Ht.
    repeat split; [exact Hlt|exact Hkeys|exact Hasc|lia].
  - unfold sequence_fresh, keys_ascending. rewrite Hs, Hincr.
    destruct (attempt_table j d) as [Ht|[a Ht]]; rewrite Ht.
    + repeat split; [exact Hnext| |exact Hasc|lia].
      intros k a Hk. specialize (Hkeys k a Hk). lia.
    + rewrite (obj_set_above _ _ _ Hbelow).
      repeat split; [exact Hnext| | |lia].
      * intros k a' Hk. apply obj_get_keys in Hk.
        unfold obj_keys in Hk. rewrite map_app in Hk. cbn [map fst] in Hk.
        apply elem_of_app in Hk as [Hk|Hk].
        -- specialize (Hbelow k Hk). lia.
        -- apply list_elem_of_singleton in Hk as ->. lia.
      * unfold obj_keys. rewrite map_app. cbn [map fst].
        apply ascending_from_snoc; [exact Hasc|lia|exact Hbelow].
Qed.

Lemma _packetHandler_table packet d :
  _resolvers (snd (_packetHandler packet d)) = _resolvers d
  \/ _resolvers (snd (_packetHandler packet d))
     = obj_delete (_resolvers d) (sequenceN packet).
Proof.
  unfold _packetHandler.
  destruct (commandByte packet =? 9); [now left|].
  destruct (commandByte packet =? 7); [now left|]. cbv zeta.
  cbn [_resolvers emit with_emitted].
  destruct (obj_get (_resolvers d) (sequenceN packet)); [now right|].
  destruct (sequenceN packet =? 0); [|now left].
  destruct (obj_keys (_resolvers d)) as [|k ks]; [now left|].
  destruct (obj_get (_resolvers d) k); [now right|now left].
Qed.

Lemma keys_ascending_packet packet d :
  keys_ascending d -> keys_ascending (snd (_packetHandler packet d)).
Proof.
  intros Hasc. unfold keys_ascending.
  destruct (_packetHandler_table packet d) as [-> | ->];
    [exact Hasc|now apply ascending_from_delete].
Qed.

Lemma table_ok_step ev d :
  sequence_fresh d -> keys_ascending d ->
  _currentSequenceN d + 1 < 2 ^ 53 ->
  sequence_fresh (client_step ev d) /\ keys_ascending (client_step ev d)
  /\ _currentSequenceN (client_step ev d) <= _currentSequenceN d + 1.
Proof.
  intros Hf Ha Hn. destruct ev as [i| |packet]; cbn [client_step].
  - unfold retry_timer. destruct (retries d !! i) as [op|]; [|split; [exact Hf|split; [exact Ha|lia]]].
    destruct (op_timer op); [|split; [exact Hf|split; [exact Ha|lia]]].
    exact (table_ok_attempt i (with_retries d _) Hf Ha Hn).
  - unfold _sendPing, _send.
    destruct (isConnected d); cbn [negb snd]; [|split; [exact Hf|split; [exact Ha|lia]]].
    unfold new_promise.
    exact (table_ok_attempt _ (with_retries (with_promises d _) _) Hf Ha Hn).
  - split; [now apply sequence_fresh_packet|]. split; [now apply keys_ascending_packet|].
    assert (Hsame : _currentSequenceN (snd (_packetHandler packet d)) = _currentSequenceN d);
      [|lia].
    unfold _packetHandler.
    destruct (commandByte packet =? 9); [reflexivity|].
    destruct (commandByte packet =? 7); [reflexivity|]. cbv zeta.
    cbn [_resolvers emit with_emitted].
    destruct (obj_get (_resolvers d) (sequenceN packet)); [reflexivity|].
    destruct (sequenceN packet =? 0); [|reflexivity].
    destruct (obj_keys (_resolvers d)) as [|k ks]; [reflexivity|].
    destruct (obj_get (_resolvers d) k); reflexivity.
Qed.

(** X6: Along any run of timers, heartbeats and packets that stays below the
    end of the counter, the counter is ahead of every key of the table and
    [Object.keys] lists the keys in ascending order, that is, in the order
    in which the requests were sent. *)
Theorem table_keeps_send_order (evs : list client_event) (d : TuyaDevice) :
  sequence_fresh d ->
  keys_ascending d ->
  _currentSequenceN d + N.of_nat (length evs) < 2 ^ 53 ->
  sequence_fresh (client_run evs d)
  /\ keys_ascending (client_run evs d)
  /\ _currentSequenceN (client_run evs d) <= _currentSequenceN d + N.of_nat (length evs).
Proof.
  revert d. induction evs as [|ev evs IH]; intros d Hf Ha Hn.
  - cbn. split; [exact Hf|split; [exact Ha|lia]].
  - cbn [length] in Hn. rewrite Nat2N.inj_succ in Hn.
    destruct (table_ok_step ev d Hf Ha) as (Hf1 & Ha1 & Hs1); [lia|].
    cbn [client_run fold_left]. fold (client_run evs (client_step ev d)).
    destruct (IH (client_step ev d) Hf1 Ha1) as (Hf2 & Ha2 & Hs2); [lia|].
    split; [exact Hf2|split; [exact Ha2|]]. cbn [length]. rewrite Nat2N.inj_succ. lia.
Qed.

(** X7: With the keys in ascending order, the fallback for sequence number 0
    hands the payload to the resolver under the least sequence number of the
    table, the request that was sent first among those still there. *)
Theorem fallback_takes_least_key (packet : Packet) (d : TuyaDevice) (k : N)
    (resolver : nat) (rest : jsobj nat) :
  keys_ascending d ->
  dispatched packet ->
  sequenceN packet = 0 ->
  _resolvers d = (k, resolver) :: rest ->
  fst (_packetHandler packet d) = None
  /\ promises (snd (_packetHandler packet d))
     = call_resolver (promises d) resolver (payload packet)
  /\ forall k' a, obj_get (_resolvers d) k' = Some a -> k <= k'.
Proof.
  intros Hasc Hd Hs Ht.
  assert (H0 : obj_get (_resolvers d) 0 = None).
  { destruct (obj_get (_resolvers d) 0) as [a|] eqn:E; [|reflexivity].
    apply obj_get_keys in E.
    pose proof (ascending_from_above _ _ _ Hasc E). lia. }
  rewrite (fallback_keeps_entry packet d k resolver rest Hd Hs Ht H0).
  cbn [fst snd promises with_promises]. repeat split.
  intros k' a Hk'. apply obj_get_keys in Hk'.
  unfold keys_ascending in Hasc. rewrite Ht in *. cbn [obj_keys map fst] in *.
  destruct Hasc as [_ Hasc].
  apply elem_of_cons in Hk' as [->|Hk']; [lia|].
  pose proof (ascending_from_above _ _ _ Hasc Hk'). lia.
Qed.

End KeysOfTheTable.

(** ** The bound of the retry *)

Section Retry.

Context {lib : Libraries}.

(** One attempt that [writeSequenceN] rejects with an error that is not a
    [TypeError]. *)
Lemma attempt_fails i d buf r es e c :
  retries d !! i
  = Some {| op_buffer := buf; op_promise := r; op_errors := es; op_timer := false |} ->
  promises d !! r = Some {| pstate := Pending; on_settled := c |} ->
  writeSequenceN buf (incr (_currentSequenceN d)) = inl e ->
  is_TypeError e = false ->
  let d' := attempt i d in
  retries d' !! i
  = Some {| op_buffer := buf; op_promise := r; op_errors := es ++ [e];
            op_timer := (length es <? retry_budget)%nat |}
  /\ promises d' !! r
     = Some {| pstate := if (length es <? retry_budget)%nat then Pending
                         else Rejected (mainError (es ++ [e]));
               on_settled := c |}
  /\ _currentSequenceN d' = incr (_currentSequenceN d)
  /\ client d' = client d
  /\ _resolvers d' = _resolvers d.
Proof.
  intros Hi Hr Hw Hte. cbv zeta.
  assert (Hil : (i < length (retries d))%nat).
  { apply lookup_lt_is_Some. rewrite Hi. eauto. }
  assert (Hrl : (r < length (promises d))%nat).
  { apply lookup_lt_is_Some. rewrite Hr. eauto. }
  rewrite (attempt_unfold _ _ _ Hi). cbv zeta. cbn [op_buffer op_promise].
  rewrite Hw. unfold attempt_rejected. rewrite Hte. cbn [op_errors op_promise op_buffer].
  assert (Hr1 : settle (promises d ++ [{| pstate := Pending; on_settled := Attempt r |}])
                  (length (promises d)) (Rejected e) !! r
                = Some {| pstate := Pending; on_settled := c |}).
  { rewrite settle_other by lia. rewrite lookup_app_l by exact Hrl. exact Hr. }
  destruct (length es <? retry_budget)%nat;
    cbn [retries promises _currentSequenceN client _resolvers with_retries
         with_promises with_sequenceN].
  - rewrite list_lookup_insert_eq by exact Hil. rewrite Hr1. repeat split.
  - rewrite list_lookup_insert_eq by exact Hil.
    rewrite (settle_at _ _ _ _ Hr1). repeat split.
Qed.

Lemma failing_step i r buf e k d0 d :
  (forall k, (k <= retry_budget)%nat ->
     writeSequenceN buf (Nat.iter (S k) incr (_currentSequenceN d0)) = inl e) ->
  is_TypeError e = false ->
  failing i r buf e k d0 d ->
  (S k <= retry_budget)%nat ->
  failing i r buf e (S k) d0 (retry_timer i d).
Proof.
  intros Hw Hte (Hi & [c Hr] & Hs & Hc & Ht) Hk.
  unfold retry_timer. rewrite Hi. cbn [op_timer op_buffer op_promise op_errors].
  set (d1 := with_retries d _).
  assert (Hi1 : retries d1 !! i
                = Some {| op_buffer := buf; op_promise := r; op_errors := repeat e k;
                          op_timer := false |}).
  { unfold d1. cbn [retries with_retries]. apply list_lookup_insert_eq.
    apply lookup_lt_is_Some. rewrite Hi. eauto. }
  assert (Hw1 : writeSequenceN buf (incr (_currentSequenceN d1)) = inl e).
  { unfold d1. cbn [_currentSequenceN with_retries]. rewrite Hs.
    apply (Hw k). lia. }
  destruct (attempt_fails i d1 buf r (repeat e k) e c Hi1 Hr Hw1 Hte)
    as (Hi2 & Hr2 & Hs2 & Hc2 & Ht2).
  rewrite repeat_length in Hi2, Hr2.
  assert (Hlt : (k <? retry_budget)%nat = true) by (apply Nat.ltb_lt; lia).
  rewrite Hlt in Hi2, Hr2.
  unfold failing. rewrite Hi2, Hr2, Hs2, Hc2, Ht2.
  replace (repeat e k ++ [e]) with (repeat e (S k))
    by (rewrite <- repeat_cons; reflexivity).
  repeat split; try assumption; eauto.
  cbn [Nat.iter nat_rect]. unfold d1. cbn [_currentSequenceN with_retries].
  now rewrite Hs.
Qed.

Lemma failing_first buf d e :
  isConnected d = true ->
  writeSequenceN buf (incr (_currentSequenceN d)) = inl e ->
  is_TypeError e = false ->
  failing (length (retries d)) (length (promises d)) buf e 1 d (snd (_send buf d)).
Proof.
  intros Hc Hw Hte. rewrite (_send_connected _ _ Hc). cbn [snd].
  set (d2 := with_retries _ _).
  assert (Hi : retries d2 !! length (retries d)
               = Some {| op_buffer := buf; op_promise := length (promises d);
                         op_errors := []; op_timer := false |}).
  { unfold d2. cbn [retries with_retries]. apply lookup_snoc_new. }
  assert (Hr : promises d2 !! length (promises d)
               = Some {| pstate := Pending; on_settled := NoReaction |}).
  { unfold d2. cbn [promises with_retries with_promises]. apply lookup_snoc_new. }
  destruct (attempt_fails _ d2 buf _ [] e _ Hi Hr Hw Hte)
    as (Hi2 & Hr2 & Hs2 & Hc2 & Ht2).
  unfold failing. rewrite Hi2, Hr2, Hs2, Hc2, Ht2. repeat split. eauto.
Qed.

Lemma failing_run i r buf e d0 d1 k :
  (forall k, (k <= retry_budget)%nat ->
     writeSequenceN buf (Nat.iter (S k) incr (_currentSequenceN d0)) = inl e) ->
  is_TypeError e = false ->
  failing i r buf e 1 d0 d1 ->
  (S k <= retry_budget)%nat ->
  failing i r buf e (S k) d0 (Nat.iter k (retry_timer i) d1).
Proof.
  intros Hw Hte H1. induction k as [|k IH]; intros Hk; [exact H1|].
  cbn [Nat.iter nat_rect]. apply failing_step; try assumption.
  apply IH. lia.
Qed.

(** X8: A request whose every attempt is rejected by [writeSequenceN] with an
    error that is not a [TypeError]: [_send] and the first four timers of
    [pRetry] leave its promise pending, the fifth timer, that is the sixth
    attempt, rejects it with the error [mainError] picks, and later timers
    do nothing.  Every attempt takes a sequence number; nothing is written
    and no resolver is registered. *)
Theorem retry_is_bounded (buf : buffer) (d : TuyaDevice) (e : exn) :
  isConnected d = true ->
  (forall k, (k <= 5)%nat ->
     writeSequenceN buf (Nat.iter (S k) incr (_currentSequenceN d)) = inl e) ->
  is_TypeError e = false ->
  let r := length (promises d) in
  let after k := Nat.iter k (retry_timer (length (retries d))) (snd (_send buf d)) in
  fst (_send buf d) = inr r
  /\ (forall k, (k <= 4)%nat ->
        state_of (promises (after k)) r = Some Pending
        /\ _currentSequenceN (after k) = Nat.iter (S k) incr (_currentSequenceN d))
  /\ state_of (promises (after 5%nat)) r = Some (Rejected (mainError (repeat e 6)))
  /\ _currentSequenceN (after 5%nat) = Nat.iter 6 incr (_currentSequenceN d)
  /\ (forall k, (5 <= k)%nat ->
        after k = after 5%nat
        /\ client (after k) = client d /\ _resolvers (after k) = _resolvers d).
Proof.
  intros Hc Hw Hte r after.
  pose proof (failing_first buf d e Hc (Hw 0%nat (Nat.le_0_l _)) Hte) as H1.
  split; [now rewrite (_send_connected _ _ Hc)|].
  assert (Hk : forall k, (k <= 4)%nat ->
            failing (length (retries d)) r buf e (S k) d (after k)).
  { intros k Hk. apply failing_run; try assumption. unfold retry_budget. lia. }
  split.
  { intros k Hle. destruct (Hk k Hle) as (_ & [c Hr] & Hs & _).
    split; [|exact Hs]. unfold state_of. now rewrite Hr. }
  (* the sixth attempt *)
  destruct (Hk 4%nat (le_n _)) as (Hi & [c Hr] & Hs & Hcl & Ht).
  assert (Hstep : after 5%nat
                  = attempt (length (retries d))
                      (with_retries (after 4%nat)
                         (<[length (retries d) :=
                              {| op_buffer := buf; op_promise := r;
                                 op_errors := repeat e 5; op_timer := false |}]>
                            (retries (after 4%nat))))).
  { change (after 5%nat) with (retry_timer (length (retries d)) (after 4%nat)).
    unfold retry_timer at 1. rewrite Hi. reflexivity. }
  set (d5 := with_retries (after 4%nat) _) in Hstep.
  assert (Hi5 : retries d5 !! length (retries d)
                = Some {| op_buffer := buf; op_promise := r; op_errors := repeat e 5;
                          op_timer := false |}).
  { unfold d5. cbn [retries with_retries]. apply list_lookup_insert_eq.
    apply lookup_lt_is_Some. rewrite Hi. eauto. }
  assert (Hw5 : writeSequenceN buf (incr (_currentSequenceN d5)) = inl e).
  { unfold d5. cbn [_currentSequenceN with_retries]. rewrite Hs.
    apply (Hw 5%nat). lia. }
  destruct (attempt_fails _ d5 buf r (repeat e 5) e c Hi5 Hr Hw5 Hte)
    as (Hi6 & Hr6 & Hs6 & Hc6 & Ht6).
  rewrite <- Hstep in Hi6, Hr6, Hs6, Hc6, Ht6.
  cbn [repeat length Nat.ltb Nat.leb retry_budget app] in Hi6, Hr6.
  split; [unfold state_of; now rewrite Hr6|].
  split.
  { rewrite Hs6. unfold d5. cbn [_currentSequenceN with_retries]. rewrite Hs.
    reflexivity. }
  assert (Hstop : forall k, after (5 + k)%nat = after 5%nat).
  { induction k as [|k IH]; [reflexivity|].
    replace (5 + S k)%nat with (S (5 + k)) by lia.
    change (after (S (5 + k))) with (retry_timer (length (retries d)) (after (5 + k)%nat)).
    rewrite IH. unfold retry_timer. now rewrite Hi6. }
  intros k Hle. replace k with (5 + (k - 5))%nat by lia. rewrite Hstop.
  split; [reflexivity|]. rewrite Hc6, Ht6. unfold d5.
  cbn [client _resolvers with_retries]. now split.
Qed.

Lemma attempt_without_socket i d buf r es c b :
  retries d !! i
  = Some {| op_buffer := buf; op_promise := r; op_errors := es; op_timer := false |} ->
  promises d !! r = Some {| pstate := Pending; on_settled := c |} ->
  writeSequenceN buf (incr (_currentSequenceN d)) = inr b ->
  client d = None ->
  let d' := attempt i d in
  retries d' !! i
  = Some {| op_buffer := b; op_promise := r; op_errors := es; op_timer := false |}
  /\ promises d' !! r
     = Some {| pstate := Rejected (CannotReadProperty "write"); on_settled := c |}
  /\ _currentSequenceN d' = incr (_currentSequenceN d)
  /\ _resolvers d' = _resolvers d.
Proof.
  intros Hi Hr Hw Hcl. cbv zeta.
  assert (Hil : (i < length (retries d))%nat).
  { apply lookup_lt_is_Some. rewrite Hi. eauto. }
  assert (Hrl : (r < length (promises d))%nat).
  { apply lookup_lt_is_Some. rewrite Hr. eauto. }
  rewrite (attempt_unfold _ _ _ Hi). cbv zeta. cbn [op_buffer op_promise op_errors].
  rewrite Hw, Hcl. unfold attempt_rejected.
  cbn [is_TypeError op_promise op_buffer op_errors].
  cbn [retries promises _currentSequenceN client _resolvers with_retries
       with_promises with_sequenceN].
  assert (Hr1 : settle (promises d ++ [{| pstate := Pending; on_settled := Attempt r |}])
                  (length (promises d)) (Rejected (CannotReadProperty "write")) !! r
                = Some {| pstate := Pending; on_settled := c |}).
  { rewrite settle_other by lia. rewrite lookup_app_l by exact Hrl. exact Hr. }
  rewrite (settle_at _ _ _ _ Hr1).
  rewrite list_lookup_insert_eq by (rewrite length_insert; exact Hil).
  repeat split.
Qed.

(** X9: A [TypeError] is not retried: on a client that counts as connected but
    has no socket, the first attempt fails on [this.client.write] and the
    promise of [_send] is rejected with that error at once; no timer is
    left, so no second attempt follows. *)
Theorem type_error_is_not_retried (buf : buffer) (d : TuyaDevice) (b : buffer) :
  isConnected d = true ->
  client d = None ->
  writeSequenceN buf (incr (_currentSequenceN d)) = inr b ->
  let d' := snd (_send buf d) in
  state_of (promises d') (length (promises d))
  = Some (Rejected (CannotReadProperty "write"))
  /\ (forall k, Nat.iter k (retry_timer (length (retries d))) d' = d')
  /\ _currentSequenceN d' = incr (_currentSequenceN d)
  /\ _resolvers d' = _resolvers d.
Proof.
  intros Hc Hcl Hw. cbv zeta. rewrite (_send_connected _ _ Hc). cbn [snd].
  set (d2 := with_retries _ _).
  assert (Hi : retries d2 !! length (retries d)
               = Some {| op_buffer := buf; op_promise := length (promises d);
                         op_errors := []; op_timer := false |}).
  { unfold d2. cbn [retries with_retries]. apply lookup_snoc_new. }
  assert (Hr : promises d2 !! length (promises d)
               = Some {| pstate := Pending; on_settled := NoReaction |}).
  { unfold d2. cbn [promises with_retries with_promises]. apply lookup_snoc_new. }
  destruct (attempt_without_socket _ d2 buf _ [] _ b Hi Hr Hw Hcl)
    as (Hi2 & Hr2 & Hs2 & Ht2).
  split; [unfold state_of; now rewrite Hr2|].
  split; [|split; [exact Hs2|exact Ht2]].
  induction k as [|k IH]; [reflexivity|].
  rewrite Nat.iter_succ, IH. unfold retry_timer. now rewrite Hi2.
Qed.

End Retry.

(** ** The connection and its heartbeat *)

Section Lifecycle.

Context {lib : Libraries}.

Lemma clear_pingpong_stops s i :
  heartbeat_wf s -> intervals (clear_pingpong s) !! i <> Some true.
Proof.
  intros Hwf. unfold clear_pingpong.
  destruct (pingpongTimeout s) as [j|] eqn:Ej; cbn [intervals].
  - destruct (decide (i = j)) as [->|Hne].
    + intros H. apply list_lookup_insert_Some in H as [[_ [H _]]|[H _]];
        [discriminate|congruence].
    + rewrite list_lookup_insert_ne by congruence.
      intros H. apply Hwf in H. congruence.
  - intros H. apply Hwf in H. congruence.
Qed.

Lemma heartbeat_interval_stopped i s :
  intervals s !! i <> Some true -> heartbeat_interval i s = s.
Proof.
  intros H. unfold heartbeat_interval.
  destruct (intervals s !! i) as [[]|]; congruence.
Qed.

(** X12: When the socket closes, the object counts as disconnected, says so once,
    and its heartbeat stops for good: no timer sends a ping any more and
    the handle is cleared.  Nothing else of the object changes: the requests
    that wait for a response are neither settled nor forgotten. *)
Theorem close_stops_the_heartbeat (s : Connection) :
  heartbeat_wf s ->
  let s' := socket_close s in
  isConnected (tuya s') = false
  /\ lifecycle_log s' = lifecycle_log s ++ [EvDisconnected]
  /\ client_destroyed s' = true
  /\ pingpongTimeout s' = None
  /\ (forall i, heartbeat_interval i s' = s')
  /\ tuya s' = with_connected (tuya s) false
  /\ (forall fl, in_flight (tuya s) fl -> in_flight (tuya s') fl).
Proof.
  intros Hwf. cbv zeta.
  assert (Hwf1 : heartbeat_wf (with_tuya s (with_connected (tuya s) false)))
    by exact Hwf.
  pose proof (fun i => clear_pingpong_stops _ i Hwf1) as Hstop.
  destruct s as [d tgt des tmo pp ivs log]. unfold socket_close. cbv zeta.
  unfold clear_pingpong in *.
  cbn [pingpongTimeout tuya client_target client_destroyed client_timeout intervals
       lifecycle_log with_tuya] in *.
  destruct pp as [j|];
    cbn [tuya isConnected lifecycle_log pingpongTimeout client_destroyed intervals
         client_target client_timeout] in *;
    (split; [destruct d; reflexivity|]); (split; [reflexivity|]);
    (split; [reflexivity|]); (split; [reflexivity|]);
    (split; [intros i; apply heartbeat_interval_stopped; cbn [intervals]; apply Hstop|]);
    (split; [reflexivity|]); intros fl Hfl; exact Hfl.
Qed.

(** X13: [disconnect] marks the object as disconnected, stops the heartbeat and
    destroys the socket if there is one.  It sends no notification, keeps
    the handle of the heartbeat and the socket in [this.client], and leaves
    the waiting requests as they are; calling it again changes nothing. *)
Theorem disconnect_is_quiet (s : Connection) :
  heartbeat_wf s ->
  let s' := disconnect s in
  isConnected (tuya s') = false
  /\ tuya s' = with_connected (tuya s) false
  /\ lifecycle_log s' = lifecycle_log s
  /\ pingpongTimeout s' = pingpongTimeout s
  /\ client_destroyed s'
     = match client (tuya s) with Some _ => true | None => client_destroyed s end
  /\ (forall i, heartbeat_interval i s' = s')
  /\ (forall fl, in_flight (tuya s) fl -> in_flight (tuya s') fl)
  /\ disconnect s' = s'.
Proof.
  intros Hwf. cbv zeta.
  assert (Hstop : forall i, intervals (disconnect s) !! i <> Some true).
  { intros i. unfold disconnect. cbv zeta.
    destruct (client (tuya (clear_pingpong _)));
      cbn [intervals destroy_client]; apply clear_pingpong_stops; exact Hwf. }
  split; [|split; [|split; [|split; [|split; [|split; [|split]]]]]];
    try (intros i; apply heartbeat_interval_stopped, Hstop);
    clear Hstop Hwf;
    destruct s as [d tgt des tmo [j|] ivs log];
    destruct d as [dev fd con rt ct pp' seq res [sock|] em ps rs el];
    try reflexivity; try (intros fl Hfl; exact Hfl);
    unfold disconnect, clear_pingpong;
    cbn [tuya with_tuya with_connected client pingpongTimeout destroy_client
         intervals client_target client_destroyed client_timeout lifecycle_log
         device foundDevices _connected _responseTimeout _connectTimeout
         _pingPongPeriod _currentSequenceN _resolvers emitted promises retries];
    now rewrite list_insert_insert_eq.
Qed.

End Lifecycle.

(** ** Waiting for a response *)

Section Awaiting.

Context {lib : Libraries}.

(** A request of [get] on a connected client and the response to it, seen
    from a function that waits for the promise of [get] while it holds a
    pending promise [c] of its own. *)
Lemma awaited_get options d sock b c packet :
  isConnected d = true ->
  client d = Some sock ->
  (forall buf, writeSequenceN buf (incr (_currentSequenceN d)) = inr (b buf)) ->
  sequence_fresh d ->
  promises d !! c = Some {| pstate := Pending; on_settled := NoReaction |} ->
  dispatched packet ->
  sequenceN packet = _currentSequenceN d + 1 ->
  let g := fst (get options d) in
  let d2 := snd (get options d) in
  let d3 := snd (_packetHandler packet d2) in
  g = length (promises d)
  /\ state_of (promises d2) g = Some Pending
  /\ promises d2 !! c = Some {| pstate := Pending; on_settled := NoReaction |}
  /\ fst (_packetHandler packet d2) = None
  /\ state_of (promises d3) g = Some (reaction_result (GetThen options g) (payload packet))
  /\ promises d3 !! c = Some {| pstate := Pending; on_settled := NoReaction |}.
Proof.
  intros Hc Hs Hw Hf Hpc Hd Hseq. cbv zeta.
  assert (Hcl : (c < length (promises d))%nat).
  { apply lookup_lt_is_Some. rewrite Hpc. eauto. }
  destruct Hf as [Hlt Hkeys]. pose proof (incr_below _ Hlt) as Hincr.
  rewrite (get_sent options d sock b Hc Hs Hw). cbn [fst snd].
  set (d2 := {| device := device d |}).
  set (fl := {| fl_seq := incr (_currentSequenceN d);
                fl_attempt := S (S (length (promises d)));
                fl_send := S (length (promises d));
                fl_callback := GetThen options (length (promises d)) |}).
  assert (Hfl : in_flight d2 fl).
  { now apply (new_flight_in_flight (promises d) (_resolvers d)). }
  assert (Hs' : sequenceN packet = fl_seq fl).
  { unfold fl. cbn [fl_seq]. now rewrite Hincr. }
  destruct (response_lands packet d2 fl Hd Hs' Hfl) as (Hfst & Hcs & Hother & _).
  assert (Hc2 : promises d2 !! c = Some {| pstate := Pending; on_settled := NoReaction |}).
  { unfold d2. cbn [promises]. rewrite lookup_app_l by exact Hcl. exact Hpc. }
  split; [reflexivity|]. split; [|split; [exact Hc2|split; [exact Hfst|split]]].
  - unfold d2. cbn [promises]. unfold state_of.
    now rewrite (lookup_app_at _ _ 0) by lia.
  - exact Hcs.
  - rewrite Hother; [exact Hc2|].
    unfold fl_cells, fl. cbn [fl_callback reaction_target fl_attempt fl_send].
    intros Hq. repeat (apply elem_of_cons in Hq as [->|Hq]; [lia|]).
    now apply elem_of_nil in Hq.
Qed.

(** X10: [connect] on an object that is not connected installs a new socket with
    the connect time-out and returns a pending promise.  When the socket
    connects, the object counts as connected, the time-out is removed, the
    notification is sent, the heartbeat starts and a status query is
    written; the promise of [connect] stays pending until the response to
    that query has passed through the callback of [get]: it is then
    fulfilled with [true], and stays pending if the callback throws. *)
Theorem connect_waits_for_the_status (s : Connection) (b : buffer -> buffer)
    (bytes : buffer) (packet : Packet) :
  isConnected (tuya s) = false ->
  sequence_fresh (tuya s) ->
  (forall buf, writeSequenceN buf (incr (_currentSequenceN (tuya s))) = inr (b buf)) ->
  parse bytes = inr [packet] ->
  dispatched packet ->
  sequenceN packet = _currentSequenceN (tuya s) + 1 ->
  let c := fst (connect s) in
  let s1 := snd (connect s) in
  let g := fst (socket_connect s1) in
  let s2 := snd (socket_connect s1) in
  let s3 := snd (socket_data bytes s2) in
  let query := encode {| enc_data := VObj [("gwId", gwID (device (tuya s)));
                                           ("devId", id (device (tuya s)))];
                         enc_encrypted := VUndefined; enc_commandByte := 10 |} in
  (client (tuya s1) = Some {| written := [] |}
   /\ client_target s1 = Some (port (device (tuya s)), ip (device (tuya s)))
   /\ client_timeout s1 = _connectTimeout (tuya s) * 1000
   /\ isConnected (tuya s1) = false
   /\ state_of (promises (tuya s1)) c = Some Pending)
  /\ (isConnected (tuya s2) = true
      /\ client_timeout s2 = 0
      /\ lifecycle_log s2 = lifecycle_log s ++ [EvConnected]
      /\ pingpongTimeout s2 = Some (length (intervals s))
      /\ intervals s2 = intervals s ++ [true]
      /\ client (tuya s2) = Some {| written := [b query] |}
      /\ connect_resume g c s2 = s2)
  /\ fst (socket_data bytes s2) = None
  /\ state_of (promises (tuya (connect_resume g c s3))) c
     = Some (match get_callback {| schema := VUndefined; dps := None |}
                     (payload packet) with
             | inr _ => Fulfilled (VBool true)
             | inl _ => Pending
             end).
Proof.
  intros Hc Hf Hw Hp Hd Hseq. cbv zeta.
  destruct s as [d tgt des tmo pp ivs log]. cbn [tuya] in Hc, Hf, Hw, Hseq.
  unfold connect, new_promise. cbn [tuya]. rewrite Hc. cbn [negb fst snd].
  cbn [tuya client_target client_timeout lifecycle_log pingpongTimeout intervals].
  set (cc := {| pstate := Pending; on_settled := NoReaction |}).
  set (d1 := with_client (with_promises d (promises d ++ [cc])) (Some {| written := [] |})).
  set (opts := {| schema := VUndefined; dps := None |}).
  assert (Hpc : promises (with_connected d1 true) !! length (promises d) = Some cc).
  { unfold d1. destruct d. cbn [promises with_connected with_client with_promises].
    apply lookup_snoc_new. }
  assert (Hf1 : sequence_fresh (with_connected d1 true)).
  { unfold d1. destruct d. exact Hf. }
  assert (Hw1 : forall buf,
             writeSequenceN buf (incr (_currentSequenceN (with_connected d1 true)))
             = inr (b buf)).
  { unfold d1. destruct d. exact Hw. }
  assert (Hcon1 : isConnected (with_connected d1 true) = true) by reflexivity.
  assert (Hsock1 : client (with_connected d1 true) = Some {| written := [] |})
    by reflexivity.
  assert (Hseq1 : sequenceN packet = _currentSequenceN (with_connected d1 true) + 1).
  { unfold d1. destruct d. exact Hseq. }
  destruct (awaited_get opts _ _ b _ packet Hcon1 Hsock1 Hw1 Hf1 Hpc Hd Hseq1)
    as (Hg & Hg2 & Hc2 & Hfst & Hg3 & Hc3).
  pose proof (get_sent opts _ _ b Hcon1 Hsock1 Hw1) as Hget. cbv zeta in Hget.
  unfold socket_connect. cbn [tuya client_target client_destroyed client_timeout
                             lifecycle_log pingpongTimeout intervals].
  fold opts.
  destruct (get opts (with_connected d1 true)) as [g d2] eqn:Eget.
  cbn [fst snd] in *. cbn [tuya client_timeout lifecycle_log pingpongTimeout intervals].
  split.
  { unfold d1. destruct d. cbn in Hc. repeat split; try exact Hc.
    unfold state_of. cbn [promises with_client with_promises].
    now rewrite lookup_snoc_new. }
  split.
  { injection Hget as _ Hd2.
    split; [now rewrite Hd2|]. split; [reflexivity|]. split; [reflexivity|].
    split; [reflexivity|]. split; [reflexivity|].
    split.
    - rewrite Hd2. cbn [client]. unfold d1. destruct d. reflexivity.
    - unfold connect_resume. cbn [tuya]. now rewrite Hg2. }
  unfold socket_data, on_data. cbn [tuya]. rewrite Hp. cbn [handle_packets].
  destruct (_packetHandler packet d2) as [thrown d3] eqn:Eh. cbn [fst snd] in *.
  subst thrown. cbn [fst snd tuya with_tuya].
  split; [reflexivity|].
  unfold connect_resume. cbn [tuya with_tuya]. rewrite Hg3.
  cbn [reaction_result].
  destruct (get_callback opts (payload packet)) as [e|x].
  - cbn [tuya with_tuya]. unfold state_of. now rewrite Hc3.
  - cbn [tuya with_tuya]. destruct d3. cbn [promises with_promises] in *.
    unfold state_of. now rewrite (settle_at _ _ _ _ Hc3).
Qed.

End Awaiting.

(** ** [toggle] *)

Section Toggle.

Context {lib : Libraries}.

Lemma get_is_sent options d sock b :
  isConnected d = true ->
  client d = Some sock ->
  (forall buf, writeSequenceN buf (incr (_currentSequenceN d)) = inr (b buf)) ->
  get options d
  = (length (promises d),
     sent d sock (GetThen options (length (promises d))) (b (get_frame d))).
Proof. intros Hc Hs Hw. exact (get_sent options d sock b Hc Hs Hw). Qed.

Lemma set_is_sent property v now d sock b :
  isConnected d = true ->
  client d = Some sock ->
  (forall buf, writeSequenceN buf (incr (_currentSequenceN d)) = inr (b buf)) ->
  set (Some {| multiple := None; data := None; set_dps := Some (DpsStr property);
               set_set := Some v |}) now d
  = (inr (length (promises d)),
     sent d sock (SetThen (length (promises d))) (b (set_frame d now property v))).
Proof.
  intros Hc Hs Hw.
  exact (set_sent {| multiple := None; data := None;
                     set_dps := Some (DpsStr property); set_set := Some v |}
           now d sock b Hc Hs Hw eq_refl).
Qed.

(** A request that was written and the response to it. *)
Lemma exchange d sock k frame packet :
  isConnected d = true ->
  sequence_fresh d ->
  _currentSequenceN d + 1 < 2 ^ 53 ->
  reaction_target k = Some (length (promises d)) ->
  dispatched packet ->
  sequenceN packet = _currentSequenceN d + 1 ->
  let d2 := sent d sock k frame in
  let d3 := snd (_packetHandler packet d2) in
  is_pending (promises d2) (length (promises d)) = true
  /\ isConnected d3 = true
  /\ client d3 = Some {| written := written sock ++ [frame] |}
  /\ _currentSequenceN d3 = _currentSequenceN d + 1
  /\ sequence_fresh d3
  /\ device d3 = device d
  /\ state_of (promises d3) (length (promises d))
     = Some (reaction_result k (payload packet)).
Proof.
  intros Hc [Hlt Hkeys] Hnext Hk Hd Hseq. cbv zeta.
  pose proof (incr_below _ Hlt) as Hincr.
  set (d2 := sent d sock k frame).
  set (fl := {| fl_seq := incr (_currentSequenceN d);
                fl_attempt := S (S (length (promises d)));
                fl_send := S (length (promises d)); fl_callback := k |}).
  assert (Hfl : in_flight d2 fl).
  { now apply (new_flight_in_flight (promises d) (_resolvers d)). }
  assert (Hs' : sequenceN packet = fl_seq fl).
  { unfold fl. cbn [fl_seq]. now rewrite Hincr. }
  assert (Hf2 : sequence_fresh d2).
  { unfold d2, sent. split; cbn [_currentSequenceN _resolvers].
    - now rewrite Hincr.
    - intros q a Hq. destruct (N.eq_dec q (incr (_currentSequenceN d))) as [->|Hne];
        [lia|].
      rewrite obj_get_set_ne in Hq by exact Hne. apply Hkeys in Hq. lia. }
  destruct (response_lands packet d2 fl Hd Hs' Hfl) as (_ & Hcs & _).
  pose proof (sequence_fresh_packet packet d2 Hf2) as Hf3.
  destruct Hfl as (Ht & _). rewrite <- Hs' in Ht.
  rewrite (dispatched_resolves _ _ _ Hd Ht) in *. cbn [snd] in *.
  split.
  { apply (is_pending_true _ _ NoReaction). unfold d2, sent. cbn [promises].
    now rewrite (lookup_app_at _ _ 0) by lia. }
  split; [exact Hc|]. split; [reflexivity|]. split; [exact Hincr|].
  split; [exact Hf3|]. split; [reflexivity|].
  unfold caller_state in Hcs. cbn [fl fl_callback] in Hcs. rewrite Hk in Hcs.
  exact Hcs.
Qed.

(** X15: [toggle] on a connected client, with the device answering each request
    under its sequence number: it asks for the status of the property, then
    writes a [set] of that property to the negation of the truthiness of
    what the status callback returned, then asks for the status again, and
    is fulfilled with what that last callback returns, which is what the
    device reports and not what was set.  Until the first response has
    arrived it waits. *)
Theorem toggle_sets_the_opposite (property : dps_key) (now : value)
    (d : TuyaDevice) (sock : Socket) (b : N -> buffer -> buffer)
    (p1 p2 p3 : Packet) (status v : value) :
  isConnected d = true ->
  client d = Some sock ->
  sequence_fresh d ->
  _currentSequenceN d + 3 < 2 ^ 53 ->
  (forall n buf, _currentSequenceN d < n <= _currentSequenceN d + 3 ->
     writeSequenceN buf n = inr (b n buf)) ->
  dispatched p1 -> sequenceN p1 = _currentSequenceN d + 1 ->
  dispatched p2 -> sequenceN p2 = _currentSequenceN d + 2 ->
  dispatched p3 -> sequenceN p3 = _currentSequenceN d + 3 ->
  let name := dps_name property in
  let options := {| schema := VUndefined; dps := Some (DpsStr name) |} in
  get_callback options (payload p1) = inr status ->
  get_callback options (payload p3) = inr v ->
  let answered p s := snd (_packetHandler p (snd s)) in
  let s1 := toggle property d in
  let s2 := toggle_resume (fst s1) now (answered p1 s1) in
  let s3 := toggle_resume (fst s2) now (answered p2 s2) in
  let s4 := toggle_resume (fst s3) now (answered p3 s3) in
  toggle_resume (fst s1) now (snd s1) = s1
  /\ client (snd s3)
     = Some {| written :=
                 written sock
                 ++ [b (_currentSequenceN d + 1) (get_frame d);
                     b (_currentSequenceN d + 2)
                       (set_frame d now name (VBool (negb (truthy status))));
                     b (_currentSequenceN d + 3) (get_frame d)] |}
  /\ fst s4 = ToggleDone (Fulfilled v).
Proof.
  intros Hc Hs Hf Hlt Hw Hd1 Hq1 Hd2 Hq2 Hd3 Hq3 name options Hcb1 Hcb3.
  cbv zeta.
  assert (Hi : forall n, n < 2 ^ 53 -> incr n = n + 1) by exact incr_below.
  (* the first request *)
  assert (Hw1 : forall buf, writeSequenceN buf (incr (_currentSequenceN d))
                            = inr (b (_currentSequenceN d + 1) buf)).
  { intros buf. rewrite Hi by lia. apply Hw. lia. }
  unfold toggle. fold name. fold options.
  rewrite (get_is_sent options d sock _ Hc Hs Hw1). cbn [fst snd].
  destruct (exchange d sock (GetThen options (length (promises d)))
              (b (_currentSequenceN d + 1) (get_frame d)) p1 Hc Hf
              ltac:(lia) eq_refl Hd1 Hq1)
    as (Hp1 & Hc1 & Hs1 & Hn1 & Hf1 & Hdev1 & Hst1).
  cbv zeta in Hp1, Hc1, Hs1, Hn1, Hf1, Hdev1, Hst1.
  set (d1 := sent d sock _ _) in *.
  split.
  { cbn [toggle_resume]. unfold state_of. unfold is_pending in Hp1.
    destruct (promises d1 !! length (promises d)) as [[[] ?]|];
      try discriminate; reflexivity. }
  set (d1' := snd (_packetHandler p1 d1)) in *.
  (* the second request *)
  cbn [reaction_result] in Hst1. rewrite Hcb1 in Hst1.
  cbn [toggle_resume]. rewrite Hst1.
  assert (Hw2 : forall buf, writeSequenceN buf (incr (_currentSequenceN d1'))
                            = inr (b (_currentSequenceN d + 2) buf)).
  { intros buf. rewrite Hn1, Hi by lia.
    replace (_currentSequenceN d + 1 + 1) with (_currentSequenceN d + 2) by lia.
    apply Hw. lia. }
  rewrite (set_is_sent name _ now d1' _ _ Hc1 Hs1 Hw2). cbn [fst snd].
  destruct (exchange d1' {| written := written sock ++ [b (_currentSequenceN d + 1) (get_frame d)] |}
              (SetThen (length (promises d1')))
              (b (_currentSequenceN d + 2)
                 (set_frame d1' now name (VBool (negb (truthy status))))) p2 Hc1 Hf1
              ltac:(lia) eq_refl Hd2 ltac:(lia))
    as (_ & Hc2 & Hs2 & Hn2 & Hf2 & Hdev2 & Hst2).
  cbv zeta in Hc2, Hs2, Hn2, Hf2, Hdev2, Hst2.
  set (d2 := sent d1' _ _ _) in *.
  set (d2' := snd (_packetHandler p2 d2)) in *.
  (* the third request *)
  cbn [reaction_result] in Hst2. cbn [toggle_resume]. rewrite Hst2.
  assert (Hw3 : forall buf, writeSequenceN buf (incr (_currentSequenceN d2'))
                            = inr (b (_currentSequenceN d + 3) buf)).
  { intros buf. rewrite Hn2, Hn1, Hi by lia.
    replace (_currentSequenceN d + 1 + 1 + 1) with (_currentSequenceN d + 3) by lia.
    apply Hw. lia. }
  fold options. rewrite (get_is_sent options d2' _ _ Hc2 Hs2 Hw3). cbn [fst snd].
  destruct (exchange d2' {| written := (written sock ++ [b (_currentSequenceN d + 1) (get_frame d)])
                                       ++ [b (_currentSequenceN d + 2)
                                             (set_frame d1' now name
                                                (VBool (negb (truthy status))))] |}
              (GetThen options (length (promises d2')))
              (b (_currentSequenceN d + 3) (get_frame d2')) p3 Hc2 Hf2
              ltac:(lia) eq_refl Hd3 ltac:(lia))
    as (_ & Hc3 & Hs3 & Hn3 & Hf3 & Hdev3 & Hst3).
  cbv zeta in Hc3, Hs3, Hn3, Hf3, Hdev3, Hst3.
  set (d3 := sent d2' _ _ _) in *.
  set (d3' := snd (_packetHandler p3 d3)) in *.
  split.
  { unfold d3, sent. cbn [client written].
    unfold set_frame, get_frame. rewrite Hdev2, Hdev1.
    rewrite <- !app_assoc. reflexivity. }
  cbn [reaction_result] in Hst3. rewrite Hcb3 in Hst3.
  cbn [toggle_resume]. now rewrite Hst3.
Qed.

(** X16: While the object is not connected, [toggle] is rejected by its first
    [get]: nothing is set and nothing is written. *)
Theorem toggle_requires_connection (property : dps_key) (now : value)
    (d : TuyaDevice) :
  isConnected d = false ->
  let s1 := toggle property d in
  fst (toggle_resume (fst s1) now (snd s1))
  = ToggleDone (Rejected (JsError "No connection has been made to the device."))
  /\ snd (toggle_resume (fst s1) now (snd s1)) = snd s1
  /\ client (snd s1) = client d
  /\ _resolvers (snd s1) = _resolvers d.
Proof.
  intros Hc. cbv zeta. unfold toggle, get, new_promise, _send.
  destruct d as [dev fd con rt ct pp seq res cl em ps rs el]. cbn in Hc. subst con.
  cbn [isConnected _connected with_promises negb promises fst snd
       device foundDevices _responseTimeout _connectTimeout _pingPongPeriod
       _currentSequenceN _resolvers client emitted retries].
  rewrite settle_new. cbn [toggle_resume]. unfold state_of.
  cbn [promises with_promises]. rewrite lookup_snoc_new.
  cbn [fmap option_fmap option_map pstate fst snd client _resolvers with_promises].
  repeat split.
Qed.

End Toggle.

(** ** Connecting again *)

Section Reconnect.

Context {lib : Libraries}.

Lemma socket_close_fields s :
  heartbeat_wf s ->
  tuya (socket_close s) = with_connected (tuya s) false
  /\ (forall i, intervals (socket_close s) !! i <> Some true)
  /\ length (intervals (socket_close s)) = length (intervals s)
  /\ lifecycle_log (socket_close s) = lifecycle_log s ++ [EvDisconnected].
Proof.
  intros Hwf.
  assert (Hwf1 : heartbeat_wf (with_tuya s (with_connected (tuya s) false)))
    by exact Hwf.
  pose proof (fun i => clear_pingpong_stops _ i Hwf1) as Hstop.
  destruct s as [d tgt des tmo pp ivs log]. unfold socket_close. cbv zeta.
  unfold clear_pingpong in *.
  cbn [pingpongTimeout tuya client_target client_destroyed client_timeout intervals
       lifecycle_log with_tuya] in *.
  destruct pp as [j|];
    cbn [tuya lifecycle_log pingpongTimeout client_destroyed intervals
         client_target client_timeout] in *;
    (split; [reflexivity|]); (split; [exact Hstop|]);
    (split; [|reflexivity]); [apply length_insert|reflexivity].
Qed.

Lemma in_flight_cells d fl q :
  in_flight d fl -> q ∈ fl_cells fl -> (q < length (promises d))%nat.
Proof.
  intros (_ & Ha & Hs & _ & g & Hk & Hg & _) Hq.
  unfold fl_cells in Hq. rewrite Hk in Hq.
  apply lookup_lt_Some in Ha, Hs, Hg.
  repeat (apply elem_of_cons in Hq as [->|Hq]; [assumption|]).
  now apply elem_of_nil in Hq.
Qed.

(** [connect] and the ['connect'] event on an object that is not connected
    and whose heartbeat is stopped. *)
Lemma connect_then_connected s b fl :
  isConnected (tuya s) = false ->
  sequence_fresh (tuya s) ->
  (forall buf, writeSequenceN buf (incr (_currentSequenceN (tuya s))) = inr (b buf)) ->
  (forall i, intervals s !! i <> Some true) ->
  in_flight (tuya s) fl ->
  let s3 := snd (socket_connect (snd (connect s))) in
  client (tuya s3) = Some {| written := [b (get_frame (tuya s))] |}
  /\ isConnected (tuya s3) = true
  /\ in_flight (tuya s3) fl
  /\ caller_state (tuya s3) fl = caller_state (tuya s) fl
  /\ _currentSequenceN (tuya s3) = _currentSequenceN (tuya s) + 1
  /\ heartbeat_wf s3
  /\ intervals s3 !! length (intervals s) = Some true
  /\ lifecycle_log s3 = lifecycle_log s ++ [EvConnected].
Proof.
  intros Hc [Hlt Hkeys] Hw Hstop Hfl. cbv zeta.
  destruct s as [d tgt des tmo pp ivs log].
  cbn [tuya intervals lifecycle_log] in *.
  unfold connect, new_promise. cbn [tuya]. rewrite Hc. cbn [negb fst snd].
  set (cc := {| pstate := Pending; on_settled := NoReaction |}).
  set (d1 := with_connected
               (with_client (with_promises d (promises d ++ [cc]))
                  (Some {| written := [] |})) true).
  set (opts := {| schema := VUndefined; dps := None |}).
  assert (Hw1 : forall buf,
             writeSequenceN buf (incr (_currentSequenceN d1)) = inr (b buf)).
  { unfold d1. destruct d. exact Hw. }
  pose proof (get_is_sent opts d1 {| written := [] |} b eq_refl eq_refl Hw1) as Hget.
  unfold socket_connect.
  cbn [tuya client_target client_destroyed client_timeout lifecycle_log
       pingpongTimeout intervals].
  fold opts. fold d1. rewrite Hget. cbn [fst snd tuya intervals lifecycle_log
                                         pingpongTimeout].
  assert (Hp1 : promises d1 = promises d ++ [cc]).
  { unfold d1. destruct d. reflexivity. }
  assert (Hr1 : _resolvers d1 = _resolvers d).
  { unfold d1. destruct d. reflexivity. }
  assert (Hs1 : _currentSequenceN d1 = _currentSequenceN d).
  { unfold d1. destruct d. reflexivity. }
  assert (Hdev1 : device d1 = device d).
  { unfold d1. destruct d. reflexivity. }
  assert (Hfl1 : in_flight d1 fl).
  { apply (in_flight_frame d); [exact Hfl| |now rewrite Hr1].
    intros q Hq. rewrite Hp1. apply lookup_app_l.
    now apply (in_flight_cells d fl). }
  assert (Hseq : fl_seq fl <> incr (_currentSequenceN d1)).
  { destruct Hfl as (Ht & _). apply Hkeys in Ht.
    rewrite Hs1, (incr_below _ Hlt). lia. }
  destruct (old_flight_in_flight d1 (sent d1 {| written := [] |}
                                       (GetThen opts (length (promises d1)))
                                       (b (get_frame d1))) _ _ _ fl Hfl1
              eq_refl eq_refl Hseq) as [Hin Hold].
  split.
  { unfold sent. cbn [client written app]. unfold get_frame. now rewrite Hdev1. }
  split; [reflexivity|]. split; [exact Hin|].
  split.
  { apply caller_state_frame. intros q Hq.
    unfold sent. cbn [promises]. rewrite lookup_app_l by now apply Hold.
    rewrite Hp1. apply lookup_app_l. now apply (in_flight_cells d fl). }
  split.
  { unfold sent. cbn [_currentSequenceN]. now rewrite Hs1, (incr_below _ Hlt). }
  split.
  { intros j Hj. cbn [intervals pingpongTimeout] in *.
    destruct (decide (j = length ivs)) as [->|Hne]; [reflexivity|].
    exfalso. apply (Hstop j).
    apply lookup_app_Some in Hj as [Hj|[Hge Hj]]; [exact Hj|].
    destruct (j - length ivs)%nat as [|n] eqn:E; [lia|].
    destruct n; discriminate Hj. }
  split; [apply lookup_snoc_new|reflexivity].
Qed.

(** X14: A request that waits for its response when the socket closes is not
    rejected by the close, and still waits after [connect] has installed a
    new socket and that socket has connected: the table of resolvers and
    the counter of sequence numbers outlive the socket.  The new socket
    carries nothing but the status query, and exactly one heartbeat
    runs. *)
Theorem reconnect_keeps_the_requests (s : Connection) (b : buffer -> buffer)
    (fl : Flight) :
  heartbeat_wf s ->
  sequence_fresh (tuya s) ->
  (forall buf, writeSequenceN buf (incr (_currentSequenceN (tuya s))) = inr (b buf)) ->
  in_flight (tuya s) fl ->
  let s1 := socket_close s in
  let s3 := snd (socket_connect (snd (connect s1))) in
  in_flight (tuya s1) fl
  /\ in_flight (tuya s3) fl
  /\ caller_state (tuya s3) fl = caller_state (tuya s) fl
  /\ client (tuya s3) = Some {| written := [b (get_frame (tuya s))] |}
  /\ isConnected (tuya s3) = true
  /\ _currentSequenceN (tuya s3) = _currentSequenceN (tuya s) + 1
  /\ heartbeat_wf s3
  /\ intervals s3 !! length (intervals s) = Some true
  /\ lifecycle_log s3 = lifecycle_log s ++ [EvDisconnected; EvConnected].
Proof.
  intros Hwf Hf Hw Hfl. cbv zeta.
  destruct (socket_close_fields s Hwf) as (Ht & Hstop & Hlen & Hlog).
  assert (Hfl1 : in_flight (tuya (socket_close s)) fl) by (rewrite Ht; exact Hfl).
  assert (Hc1 : isConnected (tuya (socket_close s)) = false) by now rewrite Ht.
  assert (Hf1 : sequence_fresh (tuya (socket_close s))) by (rewrite Ht; exact Hf).
  assert (Hw1 : forall buf,
             writeSequenceN buf (incr (_currentSequenceN (tuya (socket_close s))))
             = inr (b buf)) by (rewrite Ht; exact Hw).
  destruct (connect_then_connected (socket_close s) b fl Hc1 Hf1 Hw1 Hstop Hfl1)
    as (H1 & H2 & H3 & H4 & H5 & H6 & H7 & H8).
  rewrite Hlen in H7. rewrite Hlog, <- app_assoc in H8. rewrite Ht in H1, H4, H5.
  split; [exact Hfl1|]. split; [exact H3|]. split; [exact H4|].
  split; [exact H1|]. split; [exact H2|]. split; [exact H5|].
  split; [exact H6|]. split; [exact H7|exact H8].
Qed.

End Reconnect.

(** ** A connection that is not established *)

Section Refused.

Context {lib : Libraries}.

(** X11: Of the ways a call of [connect] can fail, only the time-out of the
    socket rejects its promise.  The time-out callback destroys the socket
    and rejects with "connection timed out", without an ['error']
    notification; the close that follows the destruction is notified as
    ['disconnected'].  An error of the socket neither resolves nor rejects
    the promise, which stays pending: with a listener for ['error'] attached
    to the device the error is notified and the socket destroyed, and the
    close that follows is notified as well; with none attached, [emit]
    throws, the listener of the socket ends with that exception and does
    not destroy the socket. *)
Theorem connect_is_rejected_by_the_timeout_only (s : Connection) :
  isConnected (tuya s) = false ->
  let c := fst (connect s) in
  let s1 := snd (connect s) in
  let timed_out := socket_timeout c s1 in
  let refused := socket_error s1 in
  (state_of (promises (tuya timed_out)) c
   = Some (Rejected (JsError "connection timed out"))
   /\ client_destroyed timed_out = true
   /\ emitted (tuya timed_out) = emitted (tuya s)
   /\ state_of (promises (tuya (socket_close timed_out))) c
      = Some (Rejected (JsError "connection timed out"))
   /\ emitted (tuya (socket_close timed_out)) = emitted (tuya s)
   /\ lifecycle_log (socket_close timed_out) = lifecycle_log s ++ [EvDisconnected]
   /\ isConnected (tuya (socket_close timed_out)) = false)
  /\ (has_error_listener (tuya s) = true ->
      fst refused = None
      /\ client_destroyed (snd refused) = true
      /\ emitted (tuya (snd refused))
         = emitted (tuya s) ++ [EvError (JsError "Error from socket")]
      /\ state_of (promises (tuya (snd refused))) c = Some Pending
      /\ state_of (promises (tuya (socket_close (snd refused)))) c = Some Pending
      /\ lifecycle_log (socket_close (snd refused))
         = lifecycle_log s ++ [EvDisconnected]
      /\ isConnected (tuya (socket_close (snd refused))) = false)
  /\ (has_error_listener (tuya s) = false ->
      refused = (Some (JsError "Error from socket"), s1)
      /\ client_destroyed s1 = false
      /\ state_of (promises (tuya s1)) c = Some Pending).
Proof.
  intros Hc. cbv zeta.
  destruct s as [d tgt des tmo pp ivs log]. cbn [tuya] in Hc.
  unfold connect, new_promise. cbn [tuya]. rewrite Hc. cbn [negb fst snd].
  destruct d as [dev fd con rt ct ppp seq res cl em ps rs el].
  cbn [tuya has_error_listener lifecycle_log emitted].
  split; [|split].
  - unfold socket_timeout, socket_close, destroy_client, clear_pingpong. cbv zeta.
    cbn [tuya with_tuya with_client with_promises with_connected promises emitted
         lifecycle_log client_destroyed device foundDevices _connected
         _responseTimeout _connectTimeout _pingPongPeriod _currentSequenceN
         _resolvers client retries has_error_listener pingpongTimeout
         client_target client_timeout intervals].
    rewrite settle_new.
    destruct pp as [j|];
      cbn [tuya promises emitted lifecycle_log client_destroyed isConnected
           _connected pingpongTimeout client_target client_timeout intervals
           with_connected];
      repeat split; unfold state_of;
      cbn [promises with_promises with_client with_connected];
      rewrite ?lookup_snoc_new; reflexivity.
  - intros ->.
    unfold socket_error, emit_error, socket_close, destroy_client, emit, with_emitted,
      clear_pingpong.
    cbv zeta.
    cbn [tuya with_tuya with_client with_promises with_connected promises emitted
         lifecycle_log client_destroyed device foundDevices _connected
         _responseTimeout _connectTimeout _pingPongPeriod _currentSequenceN
         _resolvers client retries has_error_listener pingpongTimeout
         client_target client_timeout intervals fst snd].
    destruct pp as [j|];
      cbn [tuya promises emitted lifecycle_log client_destroyed isConnected
           _connected pingpongTimeout client_target client_timeout intervals
           with_connected];
      repeat split; unfold state_of;
      cbn [promises with_promises with_client with_connected];
      rewrite ?lookup_snoc_new; reflexivity.
  - intros ->.
    unfold socket_error, emit_error.
    cbn [tuya with_tuya with_client with_promises promises emitted
         lifecycle_log client_destroyed device foundDevices _connected
         _responseTimeout _connectTimeout _pingPongPeriod _currentSequenceN
         _resolvers client retries has_error_listener pingpongTimeout
         client_target client_timeout intervals fst snd].
    repeat split; unfold state_of;
      cbn [promises with_promises with_client with_connected];
      rewrite ?lookup_snoc_new; reflexivity.
Qed.

End Refused.

(** ** Discovery: the answer and what it leaves *)

Section Adoption.

Context {lib : Libraries}.

Lemma find_step_settled ev d f :
  has_listeners (listener f) = false ->
  timer f = false ->
  find_step ev (d, f) = (d, f).
Proof.
  intros Hl Ht. destruct ev as [m|e|]; cbn [find_step fst snd].
  - unfold on_message. now rewrite Hl.
  - unfold on_error. now rewrite Hl.
  - unfold on_timeout. now rewrite Ht.
Qed.

Lemma find_run_settled evs d f :
  has_listeners (listener f) = false ->
  timer f = false ->
  find_run evs (d, f) = (d, f).
Proof.
  intros Hl Ht. induction evs as [|ev evs IH]; [reflexivity|].
  unfold find_run in *. cbn [fold_left]. now rewrite find_step_settled.
Qed.

(** C7: a call of [find] without [all] does not wait for a datagram that
    matches.  When the address of the device is not configured, a datagram
    that carries no address passes the test of lines 548-549 because
    [undefined === undefined], whatever identifier it announces, and
    likewise for an identifier that is not configured and a datagram without
    one.  Such a datagram, which repeats neither the identifier nor the
    address configured, fulfils the call with [true] before the time-out
    and overwrites the identifier and the address of the device with what
    it carries; no later event, the end of the time-out included, settles
    the call otherwise, so it never fails with the time-out error. *)
Theorem find_fulfilled_without_a_match (message : buffer) (dataRes : Packet)
    (rest : list Packet) (thisID thisIP : value) (d : TuyaDevice) (f : FindCall) :
  has_listeners (listener f) = true ->
  result f = FindPending ->
  all f = false ->
  parse message = inr (dataRes :: rest) ->
  truthy (payload dataRes) = true ->
  get_prop (payload dataRes) "gwId" = inr thisID ->
  get_prop (payload dataRes) "ip" = inr thisIP ->
  (forall i, id (device d) = VStr i -> thisID <> VStr i) ->
  (forall a, ip (device d) = VStr a -> thisIP <> VStr a) ->
  (id (device d) = VUndefined /\ thisID = VUndefined)
  \/ (ip (device d) = VUndefined /\ thisIP = VUndefined) ->
  let s' := snd (on_message message d f) in
  fst (on_message message d f) = None
  /\ result (snd s') = FindFulfilled FoundTrue
  /\ timer (snd s') = false
  /\ id (device (fst s')) = thisID
  /\ ip (device (fst s')) = thisIP
  /\ forall evs, result (snd (find_run evs s')) = FindFulfilled FoundTrue.
Proof.
  intros Hl Hr Ha Hp Ht Hid Hip _ _ Hun. cbv zeta.
  unfold on_message. rewrite Hl, Hp. cbn [negb].
  unfold on_found. rewrite Hid, Hip. cbv zeta.
  set (d1 := if negb (already_found _ _ _) then _ else d).
  assert (Hdev : device d1 = device d).
  { unfold d1. destruct (negb _); [destruct d|]; reflexivity. }
  assert (Hm : strict_eq (id (device d)) thisID || strict_eq (ip (device d)) thisIP
               = true).
  { destruct Hun as [[-> ->]|[-> ->]]; cbn [strict_eq]; [reflexivity|].
    apply orb_true_r. }
  unfold matches. rewrite Ha, Hdev, Hm, Ht. cbn [negb andb fst snd].
  unfold find_settle, release, with_listener.
  cbn [result all timeout_ms listener timer bound_port reuseAddr closed has_listeners].
  rewrite Hr.
  split; [reflexivity|]. split; [reflexivity|]. split; [reflexivity|].
  split; [|split].
  - unfold adopt. cbv zeta. destruct d1. cbn [device with_device id].
    now rewrite Hid.
  - unfold adopt. cbv zeta. destruct d1. cbn [device with_device ip].
    now rewrite Hip.
  - intros evs. now rewrite find_run_settled.
Qed.

(** X17: The first datagram that matches the identifier or the address of a
    pending call of [find] without [all] fulfils the call with [true],
    clears its timer and releases the listener, so that nothing that comes
    later changes the call or the object.  The object takes its address,
    both identifiers, the product key and the version from the datagram and
    keeps its key and its port; the parser and the cipher are not made anew
    for the version adopted. *)
Theorem find_adopts_the_answer (message : buffer) (dataRes : Packet)
    (rest : list Packet) (thisID thisIP : value) (d : TuyaDevice) (f : FindCall) :
  has_listeners (listener f) = true ->
  result f = FindPending ->
  all f = false ->
  parse message = inr (dataRes :: rest) ->
  get_prop (payload dataRes) "gwId" = inr thisID ->
  get_prop (payload dataRes) "ip" = inr thisIP ->
  strict_eq (id (device d)) thisID || strict_eq (ip (device d)) thisIP = true ->
  truthy (payload dataRes) = true ->
  let read k := match get_prop (payload dataRes) k with
                | inr v => v
                | inl _ => VUndefined
                end in
  let d' := fst (snd (on_message message d f)) in
  let f' := snd (snd (on_message message d f)) in
  fst (on_message message d f) = None
  /\ result f' = FindFulfilled FoundTrue
  /\ timer f' = false
  /\ released f' = true
  /\ device d'
     = {| ip := thisIP; port := port (device d); id := thisID; gwID := thisID;
          key := key (device d); productKey := read "productKey";
          version := read "version";
          parser := parser (device d); cipher := cipher (device d) |}
  /\ forall evs, find_run evs (d', f') = (d', f').
Proof.
  intros Hl Hr Ha Hp Hid Hip Hm Ht. cbv zeta.
  unfold on_message. rewrite Hl, Hp. cbn [negb].
  unfold on_found. rewrite Hid, Hip. cbv zeta.
  set (d1 := if negb (already_found _ _ _) then _ else d).
  assert (Hdev : device d1 = device d).
  { unfold d1. destruct (negb _); [destruct d|]; reflexivity. }
  unfold matches. rewrite Ha, Hdev, Hm, Ht. cbn [negb andb fst snd].
  unfold find_settle, release, with_listener.
  cbn [result all timeout_ms listener timer bound_port reuseAddr closed has_listeners].
  rewrite Hr.
  split; [reflexivity|]. split; [reflexivity|]. split; [reflexivity|].
  split; [reflexivity|].
  split.
  - unfold adopt. cbv zeta. destruct d1. cbn [device with_device] in *.
    rewrite Hdev, Hid, Hip. reflexivity.
  - intros evs. now apply find_run_settled.
Qed.

Lemma find_step_grows ev s :
  (exists more, foundDevices (fst (find_step ev s)) = foundDevices (fst s) ++ more)
  /\ client (fst (find_step ev s)) = client (fst s)
  /\ _connected (fst (find_step ev s)) = _connected (fst s)
  /\ _resolvers (fst (find_step ev s)) = _resolvers (fst s)
  /\ promises (fst (find_step ev s)) = promises (fst s)
  /\ key (device (fst (find_step ev s))) = key (device (fst s)).
Proof.
  destruct s as [d f]. cbn [fst].
  assert (Hsame : (exists more : list FoundDevice, foundDevices d = foundDevices d ++ more)
                  /\ client d = client d /\ _connected d = _connected d
                  /\ _resolvers d = _resolvers d /\ promises d = promises d
                  /\ key (device d) = key (device d)).
  { split; [exists []; now rewrite app_nil_r|]. repeat split. }
  destruct ev as [m|e|]; cbn [find_step fst snd].
  - unfold on_message. destruct (negb _); [exact Hsame|].
    destruct (parse m) as [e|[|dataRes rest]]; [exact Hsame|exact Hsame|].
    unfold on_found.
    destruct (get_prop (payload dataRes) "gwId") as [e|thisID]; [exact Hsame|].
    destruct (get_prop (payload dataRes) "ip") as [e|thisIP]; [exact Hsame|].
    cbv zeta.
    destruct (negb (already_found _ _ _)), (matches _ _ _ _ _);
      cbn [fst snd]; destruct d; unfold adopt; cbv zeta;
      cbn [foundDevices client _connected _resolvers promises device key
           with_device with_foundDevices];
      (split; [eauto; exists []; now rewrite app_nil_r|]); repeat split.
  - unfold on_error. destruct (negb _); exact Hsame.
  - unfold on_timeout. destruct (timer f); [|exact Hsame].
    destruct (all f); exact Hsame.
Qed.

(** X18: Whatever happens during discovery, the list of found devices only
    grows at its end, and the socket, the connection flag, the table of
    resolvers, the promises of the requests and the key of the device are
    left alone. *)
Theorem discovery_only_appends (evs : list find_event) (s : TuyaDevice * FindCall) :
  (exists more, foundDevices (fst (find_run evs s)) = foundDevices (fst s) ++ more)
  /\ client (fst (find_run evs s)) = client (fst s)
  /\ _connected (fst (find_run evs s)) = _connected (fst s)
  /\ _resolvers (fst (find_run evs s)) = _resolvers (fst s)
  /\ promises (fst (find_run evs s)) = promises (fst s)
  /\ key (device (fst (find_run evs s))) = key (device (fst s)).
Proof.
  revert s. induction evs as [|ev evs IH]; intros s.
  - split; [exists []; now rewrite app_nil_r|]. repeat split.
  - unfold find_run in *. cbn [fold_left].
    destruct (IH (find_step ev s)) as ([m2 H2] & Hc2 & Hn2 & Hr2 & Hp2 & Hk2).
    destruct (find_step_grows ev s) as ([m1 H1] & Hc1 & Hn1 & Hr1 & Hp1 & Hk1).
    split; [exists (m1 ++ m2); now rewrite H2, H1, app_assoc|].
    repeat split; congruence.
Qed.

End Adoption.

(** ** [arrayDeepInclude] *)

(** X19: [arrayDeepInclude] says whether some element of the array has the same
    JSON text as the object, where two values without a JSON text count as
    the same. *)
Theorem arrayDeepInclude_exists (stringify : value -> option string)
    (arr : list value) (obj : value) :
  arrayDeepInclude stringify arr obj = true
  <-> exists item, item ∈ arr /\ stringify item = stringify obj.
Proof.
  unfold arrayDeepInclude. cbv zeta. rewrite negb_true_iff.
  induction arr as [|x arr IH]; cbn [forallb].
  - split; [discriminate|]. intros (item & Hin & _). now apply elem_of_nil in Hin.
  - rewrite andb_false_iff, IH. split.
    + intros [Hx|(item & Hin & Heq)].
      * exists x. split; [apply elem_of_cons; now left|].
        destruct (stringify x) as [a|], (stringify obj) as [c|];
          try discriminate; [|reflexivity].
        destruct (String.eqb_spec a c); [congruence|discriminate].
      * exists item. split; [apply elem_of_cons; now right|exact Heq].
    + intros (item & Hin & Heq). apply elem_of_cons in Hin as [->|Hin].
      * left. rewrite Heq. destruct (stringify obj) as [c|]; [|reflexivity].
        now rewrite String.eqb_refl.
      * right. now exists item.
Qed.

(** ** Closed instances of the properties above *)

Lemma sample_connected_fresh : sequence_fresh Sample.connected.
Proof. split; [reflexivity|]. intros k a H. discriminate H. Qed.

Lemma sample_one_request_fresh :
  sequence_fresh (snd (get Sample.query Sample.connected)).
Proof.
  split; [vm_compute; reflexivity|]. intros k a H.
  assert (Hr : _resolvers (snd (get Sample.query Sample.connected)) = [(1, 2%nat)])
    by (vm_compute; reflexivity).
  rewrite Hr in H. cbn [obj_get] in H.
  destruct (N.eqb_spec k 1) as [->|_]; [reflexivity|discriminate H].
Qed.

Lemma in_flight_sample :
  in_flight Sample.two_requests Sample.first_request
  /\ in_flight Sample.two_requests Sample.second_request.
Proof.
  split; (split; [reflexivity|]); (split; [reflexivity|]); (split; [reflexivity|]);
    (split; [cbn; lia|]); eexists; (split; [reflexivity|]);
    (split; [reflexivity|]); cbn; lia.
Qed.

Lemma responses_in_any_order_witness :
  exists d',
    handle_packets
      (map (response 10 (fun _ => Sample.switched_on))
         [Sample.second_request; Sample.first_request]) Sample.two_requests
    = (None, d')
    /\ caller_state d' Sample.first_request = Some (Fulfilled (VBool true))
    /\ caller_state d' Sample.second_request = Some (Fulfilled (VBool true)).
Proof.
  destruct (responses_in_any_order 10 (fun _ => Sample.switched_on)
              [Sample.first_request; Sample.second_request]
              [Sample.second_request; Sample.first_request] Sample.two_requests)
    as (d' & Hrun & Hall & _).
  - discriminate.
  - discriminate.
  - apply NoDup_cons. split; [|apply NoDup_singleton].
    intros H. apply list_elem_of_singleton in H. discriminate H.
  - intros fl1 fl2 H1 H2 Hne.
    apply elem_of_cons in H1 as [->|H1]; [|apply list_elem_of_singleton in H1 as ->];
      (apply elem_of_cons in H2 as [->|H2]; [|apply list_elem_of_singleton in H2 as ->]);
      try congruence;
      (split; [discriminate|]); intros q Hq Hq'; cbn in Hq, Hq';
      repeat (apply elem_of_cons in Hq as [->|Hq]);
      try (now apply elem_of_nil in Hq);
      repeat (apply elem_of_cons in Hq' as [Hq'|Hq']; [discriminate|]);
      now apply elem_of_nil in Hq'.
  - intros fl H.
    apply elem_of_cons in H as [->|H]; [|apply list_elem_of_singleton in H as ->];
      apply in_flight_sample.
  - apply Permutation_swap.
  - exists d'. split; [exact Hrun|].
    split; [apply (Hall Sample.first_request)|apply (Hall Sample.second_request)];
      repeat constructor.
Defined.

Lemma get_takes_off_witness :
  let d := snd (get Sample.query Sample.connected) in
  fst (get Sample.query d) = 3%nat
  /\ in_flight (snd (get Sample.query d)) Sample.second_request.
Proof.
  destruct (get_takes_off Sample.query (snd (get Sample.query Sample.connected))
              {| written := [[Byte.x01; Byte.x0a]] |}
              (fun buf => Byte.x02 :: tail buf)) as (H1 & H2 & _).
  - vm_compute. reflexivity.
  - vm_compute. reflexivity.
  - intros buf. vm_compute. reflexivity.
  - exact sample_one_request_fresh.
  - split; [vm_compute in H1 |- *; exact H1|vm_compute in H2 |- *; exact H2].
Defined.

Lemma set_takes_off_witness :
  let o := {| multiple := None; data := None; set_dps := Some (DpsNum 2);
              set_set := Some (VBool false) |} in
  fst (set (Some o) (VNum 1700000000) Sample.connected) = inr 0%nat
  /\ in_flight (snd (set (Some o) (VNum 1700000000) Sample.connected))
       {| fl_seq := 1; fl_attempt := 2; fl_send := 1; fl_callback := SetThen 0 |}.
Proof.
  destruct (set_takes_off
              {| multiple := None; data := None; set_dps := Some (DpsNum 2);
                 set_set := Some (VBool false) |}
              (VNum 1700000000) Sample.connected {| written := [] |}
              (fun buf => Byte.x01 :: tail buf)) as (H1 & _ & H2 & _).
  - vm_compute. reflexivity.
  - vm_compute. reflexivity.
  - intros buf. vm_compute. reflexivity.
  - exact sample_connected_fresh.
  - vm_compute. reflexivity.
  - split; [vm_compute in H1 |- *; exact H1|vm_compute in H2 |- *; exact H2].
Defined.

Lemma set_acknowledgement_is_swallowed_witness :
  let o := {| multiple := None; data := None; set_dps := None;
              set_set := Some (VBool true) |} in
  let ack := {| payload := VBuf []; commandByte := 7; sequenceN := 1 |} in
  state_of
    (promises (snd (_packetHandler ack
                      (snd (set (Some o) (VNum 1700000000) Sample.connected)))))
    0
  = Some Pending.
Proof.
  destruct (set_acknowledgement_is_swallowed
              {| multiple := None; data := None; set_dps := None;
                 set_set := Some (VBool true) |}
              (VNum 1700000000) Sample.connected {| written := [] |}
              (fun buf => Byte.x01 :: tail buf)
              {| payload := VBuf []; commandByte := 7; sequenceN := 1 |})
    as (_ & _ & H & _).
  - vm_compute. reflexivity.
  - vm_compute. reflexivity.
  - intros buf. vm_compute. reflexivity.
  - vm_compute. reflexivity.
  - vm_compute. reflexivity.
  - vm_compute in H |- *. exact H.
Defined.

Lemma table_keeps_send_order_witness :
  keys_ascending
    (client_run [HeartbeatTick; Inbound (Sample.pong 1); HeartbeatTick]
       Sample.connected).
Proof.
  destruct (table_keeps_send_order
              [HeartbeatTick; Inbound (Sample.pong 1); HeartbeatTick]
              Sample.connected) as (_ & H & _).
  - exact sample_connected_fresh.
  - exact I.
  - vm_compute. reflexivity.
  - vm_compute in H |- *. exact H.
Defined.

Lemma fallback_takes_least_key_witness :
  promises (snd (_packetHandler (Sample.status 0 Sample.switched_on)
                   Sample.two_requests))
  = call_resolver (promises Sample.two_requests) 2 Sample.switched_on.
Proof.
  destruct (fallback_takes_least_key (Sample.status 0 Sample.switched_on)
              Sample.two_requests 1 2%nat [(2, 5%nat)]) as (_ & H & _).
  - vm_compute. repeat split.
  - split; discriminate.
  - vm_compute. reflexivity.
  - vm_compute. reflexivity.
  - vm_compute in H |- *. exact H.
Defined.

Lemma retry_is_bounded_witness :
  state_of
    (promises (Nat.iter 5 (retry_timer 0)
                 (snd (_send Sample.request Sample.exhausted))))
    0
  = Some (Rejected (JsError "out of range")).
Proof.
  destruct (retry_is_bounded Sample.request Sample.exhausted
              (JsError "out of range")) as (_ & _ & H & _).
  - vm_compute. reflexivity.
  - intros k Hk. do 6 (destruct k as [|k]; [reflexivity|]). lia.
  - vm_compute. reflexivity.
  - vm_compute in H |- *. exact H.
Defined.

Lemma type_error_is_not_retried_witness :
  state_of (promises (snd (_send Sample.request Sample.socketless))) 0
  = Some (Rejected (CannotReadProperty "write")).
Proof.
  destruct (type_error_is_not_retried Sample.request Sample.socketless
              [Byte.x01; Byte.x0a]) as (H & _).
  - vm_compute. reflexivity.
  - vm_compute. reflexivity.
  - vm_compute. reflexivity.
  - vm_compute in H |- *. exact H.
Defined.

Lemma sample_established_wf : heartbeat_wf Sample.established.
Proof.
  intros j Hj.
  assert (Hi : intervals Sample.established = [true]) by (vm_compute; reflexivity).
  assert (Hp : pingpongTimeout Sample.established = Some 0%nat)
    by (vm_compute; reflexivity).
  rewrite Hi in Hj. rewrite Hp.
  destruct j as [|j]; [reflexivity|destruct j; discriminate Hj].
Qed.

Lemma close_stops_the_heartbeat_witness :
  isConnected (tuya (socket_close Sample.established)) = false
  /\ pingpongTimeout (socket_close Sample.established) = None.
Proof.
  destruct (close_stops_the_heartbeat Sample.established) as (H1 & _ & _ & H2 & _).
  - exact sample_established_wf.
  - split; [vm_compute in H1 |- *; exact H1|vm_compute in H2 |- *; exact H2].
Defined.

Lemma disconnect_is_quiet_witness :
  lifecycle_log (disconnect Sample.established) = [EvConnected]
  /\ pingpongTimeout (disconnect Sample.established) = Some 0%nat.
Proof.
  destruct (disconnect_is_quiet Sample.established) as (_ & _ & H1 & H2 & _).
  - exact sample_established_wf.
  - split; [vm_compute in H1 |- *; exact H1|vm_compute in H2 |- *; exact H2].
Defined.

Lemma connect_waits_for_the_status_witness :
  let s2 := snd (socket_connect (lib := Sample.framed) (snd (connect Sample.session))) in
  let s3 := snd (socket_data (lib := Sample.framed) [Byte.x01] s2) in
  state_of (promises (tuya (connect_resume 1 0 s3))) 0
  = Some (Fulfilled (VBool true)).
Proof.
  destruct (connect_waits_for_the_status (lib := Sample.framed) Sample.session
              (fun buf => Byte.x01 :: tail buf) [Byte.x01]
              (Sample.status 1 Sample.switched_on)) as (_ & _ & _ & H).
  - vm_compute. reflexivity.
  - split; [reflexivity|]. intros k a Hk. discriminate Hk.
  - intros buf. vm_compute. reflexivity.
  - vm_compute. reflexivity.
  - split; discriminate.
  - vm_compute. reflexivity.
  - vm_compute in H |- *. exact H.
Defined.

Lemma toggle_sets_the_opposite_witness :
  let answered p (s : toggle_stage * TuyaDevice) := snd (_packetHandler p (snd s)) in
  let now := VNum 1700000000 in
  let off := VObj [("dps", VObj [("1", VBool false)])] in
  let s1 := toggle (DpsNum 1) Sample.connected in
  let s2 := toggle_resume (fst s1) now (answered (Sample.status 1 Sample.switched_on) s1) in
  let s3 := toggle_resume (fst s2) now (answered (Sample.status 2 off) s2) in
  let s4 := toggle_resume (fst s3) now (answered (Sample.status 3 off) s3) in
  fst s4 = ToggleDone (Fulfilled (VBool false)).
Proof.
  destruct (toggle_sets_the_opposite (DpsNum 1) (VNum 1700000000) Sample.connected
              {| written := [] |}
              (fun n buf => default Byte.x00 (Byte.of_N (n mod 256)) :: tail buf)
              (Sample.status 1 Sample.switched_on)
              (Sample.status 2 (VObj [("dps", VObj [("1", VBool false)])]))
              (Sample.status 3 (VObj [("dps", VObj [("1", VBool false)])]))
              (VBool true) (VBool false)) as (_ & _ & H).
  - vm_compute. reflexivity.
  - vm_compute. reflexivity.
  - exact sample_connected_fresh.
  - vm_compute. reflexivity.
  - intros n buf [_ Hn]. cbn [writeSequenceN Sample.libraries].
    unfold Sample.writeSequenceN.
    destruct (N.ltb_spec n (2 ^ 32)) as [_|Hge]; [reflexivity|].
    change (_currentSequenceN Sample.connected) with 0 in Hn.
    change (2 ^ 32) with 4294967296 in Hge. lia.
  - split; discriminate.
  - vm_compute. reflexivity.
  - split; discriminate.
  - vm_compute. reflexivity.
  - split; discriminate.
  - vm_compute. reflexivity.
  - vm_compute. reflexivity.
  - vm_compute. reflexivity.
  - vm_compute in H |- *. exact H.
Defined.

Lemma toggle_requires_connection_witness :
  let s1 := toggle (DpsNum 1) Sample.fresh in
  fst (toggle_resume (fst s1) VUndefined (snd s1))
  = ToggleDone (Rejected (JsError "No connection has been made to the device.")).
Proof.
  destruct (toggle_requires_connection (DpsNum 1) VUndefined Sample.fresh)
    as (H & _).
  - vm_compute. reflexivity.
  - vm_compute in H |- *. exact H.
Defined.

Lemma sample_status_query : in_flight (tuya Sample.established) Sample.status_query.
Proof.
  split; [vm_compute; reflexivity|]. split; [vm_compute; reflexivity|].
  split; [vm_compute; reflexivity|]. split; [discriminate|].
  exists 1%nat. split; [reflexivity|]. split; [vm_compute; reflexivity|].
  split; discriminate.
Qed.

Lemma reconnect_keeps_the_requests_witness :
  in_flight
    (tuya (snd (socket_connect (snd (connect (socket_close Sample.established))))))
    Sample.status_query.
Proof.
  destruct (reconnect_keeps_the_requests Sample.established
              (fun buf => Byte.x02 :: tail buf) Sample.status_query)
    as (_ & H & _).
  - exact sample_established_wf.
  - split; [vm_compute; reflexivity|]. intros k a Hk.
    assert (Hr : _resolvers (tuya Sample.established) = [(1, 3%nat)])
      by (vm_compute; reflexivity).
    rewrite Hr in Hk. cbn [obj_get] in Hk.
    destruct (N.eqb_spec k 1) as [->|_]; [reflexivity|discriminate Hk].
  - intros buf. vm_compute. reflexivity.
  - exact sample_status_query.
  - vm_compute in H |- *. exact H.
Defined.

Lemma connect_is_rejected_by_the_timeout_only_witness :
  state_of
    (promises (tuya (socket_close (socket_timeout 0 (snd (connect Sample.session))))))
    0
  = Some (Rejected (JsError "connection timed out"))
  /\ socket_error (snd (connect Sample.session))
     = (Some (JsError "Error from socket"), snd (connect Sample.session)).
Proof.
  destruct (connect_is_rejected_by_the_timeout_only Sample.session)
    as ((_ & _ & _ & H1 & _) & _ & H2).
  - vm_compute. reflexivity.
  - split; [vm_compute in H1 |- *; exact H1|].
    apply H2. vm_compute. reflexivity.
Defined.

Lemma find_adopts_the_answer_witness :
  let s := snd (on_message [Byte.x01] Sample.fresh (Sample.listening false)) in
  result (snd s) = FindFulfilled FoundTrue
  /\ ip (device (fst s)) = VStr "10.0.0.5".
Proof.
  destruct (find_adopts_the_answer [Byte.x01]
              {| payload := VObj [("gwId", VStr "dev1"); ("ip", VStr "10.0.0.5")];
                 commandByte := 0; sequenceN := 0 |} []
              (VStr "dev1") (VStr "10.0.0.5") Sample.fresh (Sample.listening false))
    as (_ & H1 & _ & _ & H2 & _).
  - vm_compute. reflexivity.
  - vm_compute. reflexivity.
  - vm_compute. reflexivity.
  - vm_compute. reflexivity.
  - vm_compute. reflexivity.
  - vm_compute. reflexivity.
  - vm_compute. reflexivity.
  - vm_compute. reflexivity.
  - split; [vm_compute in H1 |- *; exact H1|rewrite H2; reflexivity].
Defined.

Lemma find_fulfilled_without_a_match_witness :
  let s := snd (on_message (lib := Sample.undecoded) [Byte.x01]
                  Sample.fresh (Sample.listening false)) in
  id (device Sample.fresh) = VStr "dev1"
  /\ result (snd s) = FindFulfilled FoundTrue
  /\ id (device (fst s)) = VUndefined
  /\ result (snd (find_step (lib := Sample.undecoded) TimerFires s))
     = FindFulfilled FoundTrue.
Proof.
  destruct (find_fulfilled_without_a_match (lib := Sample.undecoded) [Byte.x01]
              {| payload := VStr "3.3-undecoded"; commandByte := 0; sequenceN := 0 |} []
              VUndefined VUndefined Sample.fresh (Sample.listening false))
    as (_ & H1 & _ & H2 & _ & H3).
  - vm_compute. reflexivity.
  - vm_compute. reflexivity.
  - vm_compute. reflexivity.
  - vm_compute. reflexivity.
  - vm_compute. reflexivity.
  - vm_compute. reflexivity.
  - vm_compute. reflexivity.
  - intros i _. discriminate.
  - intros a _. discriminate.
  - right. split; vm_compute; reflexivity.
  - split; [vm_compute; reflexivity|]. split; [exact H1|]. split; [exact H2|].
    exact (H3 [TimerFires]).
Defined.
